(** * WeRead client: a shallow embedding of [src/weread/client.py]

    The development follows the Python source function by function.
    Python values are modelled as the interpreter has them:

    - a [str] is a sequence of Unicode code points ([pystr]);
    - an [int] is an unbounded integer ([Z]);
    - a raised exception is the [Raise] outcome of the [result] monad;
    - the value produced by [response.json()] is a [json] tree, a Python
      [dict] being an association list in insertion order with unique keys.

    Library functions the client calls ([hashlib.md5], [str.encode],
    [re.match], [int], [format], [sorted], [dict.get], ...) are modelled
    here as far as the client uses them. *)

From Stdlib Require Import String Ascii.
From Stdlib Require Import List ZArith NArith Bool Lia.
From Stdlib Require Import Permutation Sorted QArith.
Import ListNotations.

Set Implicit Arguments.

Local Open Scope N_scope.

(** ** Outcomes of a call: a value or a raised exception *)

Inductive exn : Type :=
| KeyError
| TypeError
| ValueError
| AttributeError
| IndexError
| UnicodeEncodeError
| JSONDecodeError
| OverflowError
| ConnectionError
| AuthenticationError
| CookieError.

Inductive result (A : Type) : Type :=
| Ok (a : A)
| Raise (e : exn).

Arguments Ok {A} a.
Arguments Raise {A} e.

Definition bind {A B : Type} (m : result A) (k : A -> result B) : result B :=
  match m with
  | Ok a => k a
  | Raise e => Raise e
  end.

Notation "x <- m ;; k" := (bind m (fun x => k))
  (at level 61, m at next level, right associativity).
Notation "' p <- m ;; k" := (bind m (fun p => k))
  (at level 61, p pattern, m at next level, right associativity).

(** [mapM f l] evaluates [f] on the elements of [l] from left to right
    and stops at the first exception, as a comprehension or a key
    function applied by [sorted] does. *)
Fixpoint mapM {A B : Type} (f : A -> result B) (l : list A) : result (list B) :=
  match l with
  | [] => Ok []
  | x :: l' => y <- f x ;; ys <- mapM f l' ;; Ok (y :: ys)
  end.

(** ** Strings *)

(** A Python [str]: the sequence of its code points. *)
Definition pystr : Type := list N.

(** ASCII literals of the source. *)
Definition lit (s : string) : pystr :=
  map N_of_ascii (list_ascii_of_string s).

Definition pystr_eqb (s t : pystr) : bool :=
  if list_eq_dec N.eq_dec s t then true else false.

(** [s[i:j]] for indices [0 <= i], [0 <= j]. *)
Definition slice (s : pystr) (i j : nat) : pystr :=
  firstn (j - i) (skipn i s).

(** [s[-k:]] for [k > 0]. *)
Definition suffix (s : pystr) (k : nat) : pystr :=
  skipn (length s - k) s.

(** Every literal of the source and every string of hexadecimal digits
    lies below 256, far from the surrogates. *)
Definition narrow (s : pystr) : Prop := Forall (fun c => c < 256) s.

(** *** [format(n, "x")] *)

Definition hexdigit (d : N) : N :=
  if d <? 10 then 48 + d else 87 + d.

Fixpoint hex_loop (fuel : nat) (n : N) (acc : pystr) : pystr :=
  match fuel with
  | O => acc
  | S fuel' =>
      let acc' := hexdigit (n mod 16) :: acc in
      if n / 16 =? 0 then acc' else hex_loop fuel' (n / 16) acc'
  end.

(** Lowercase hexadecimal of a natural number, no padding, ["0"] for 0.
    The number of binary digits bounds the number of hexadecimal ones. *)
Definition hex (n : N) : pystr :=
  hex_loop (S (N.size_nat n)) n [].

(** Reading hexadecimal digits back. *)
Definition unhexdigit (c : N) : N := if c <? 58 then c - 48 else c - 87.

Definition unhex (s : pystr) : N :=
  fold_left (fun a c => 16 * a + unhexdigit c) s 0.

Definition format_x (z : Z) : pystr :=
  if (z <? 0)%Z then 45 :: hex (Z.abs_N z) else hex (Z.abs_N z).

(** *** [str.encode("utf-8")] *)

Definition is_surrogate (c : N) : bool :=
  (0xD800 <=? c) && (c <=? 0xDFFF).

(** The UTF-8 bytes of one code point. *)
Definition utf8_char (c : N) : list N :=
  if c <? 0x80 then [c]
  else if c <? 0x800 then
    [N.lor 0xC0 (N.shiftr c 6); N.lor 0x80 (N.land c 0x3F)]
  else if c <? 0x10000 then
    [N.lor 0xE0 (N.shiftr c 12);
     N.lor 0x80 (N.land (N.shiftr c 6) 0x3F);
     N.lor 0x80 (N.land c 0x3F)]
  else
    [N.lor 0xF0 (N.shiftr c 18);
     N.lor 0x80 (N.land (N.shiftr c 12) 0x3F);
     N.lor 0x80 (N.land (N.shiftr c 6) 0x3F);
     N.lor 0x80 (N.land c 0x3F)].

Definition utf8_bytes (s : pystr) : list N := flat_map utf8_char s.

(** The strict codec refuses lone surrogates. *)
Definition encode_utf8 (s : pystr) : result (list N) :=
  if existsb is_surrogate s then Raise UnicodeEncodeError
  else Ok (utf8_bytes s).

(** ** [hashlib.md5] (RFC 1321) on 32-bit words with wrap-around *)

Module MD5.

Definition mask32 : N := 0xFFFFFFFF.

Definition add32 (a b : N) : N := N.land (a + b) mask32.

Definition not32 (a : N) : N := N.lxor (N.land a mask32) mask32.

Definition rotl32 (x s : N) : N :=
  N.land (N.lor (N.shiftl x s) (N.shiftr x (32 - s))) mask32.

Definition K : list N :=
    [0xd76aa478; 0xe8c7b756; 0x242070db; 0xc1bdceee;
     0xf57c0faf; 0x4787c62a; 0xa8304613; 0xfd469501;
     0x698098d8; 0x8b44f7af; 0xffff5bb1; 0x895cd7be;
     0x6b901122; 0xfd987193; 0xa679438e; 0x49b40821;
     0xf61e2562; 0xc040b340; 0x265e5a51; 0xe9b6c7aa;
     0xd62f105d; 0x02441453; 0xd8a1e681; 0xe7d3fbc8;
     0x21e1cde6; 0xc33707d6; 0xf4d50d87; 0x455a14ed;
     0xa9e3e905; 0xfcefa3f8; 0x676f02d9; 0x8d2a4c8a;
     0xfffa3942; 0x8771f681; 0x6d9d6122; 0xfde5380c;
     0xa4beea44; 0x4bdecfa9; 0xf6bb4b60; 0xbebfbc70;
     0x289b7ec6; 0xeaa127fa; 0xd4ef3085; 0x04881d05;
     0xd9d4d039; 0xe6db99e5; 0x1fa27cf8; 0xc4ac5665;
     0xf4292244; 0x432aff97; 0xab9423a7; 0xfc93a039;
     0x655b59c3; 0x8f0ccc92; 0xffeff47d; 0x85845dd1;
     0x6fa87e4f; 0xfe2ce6e0; 0xa3014314; 0x4e0811a1;
     0xf7537e82; 0xbd3af235; 0x2ad7d2bb; 0xeb86d391].

Definition shifts : list N :=
    [7; 12; 17; 22; 7; 12; 17; 22; 7; 12; 17; 22; 7; 12; 17; 22;
     5; 9; 14; 20; 5; 9; 14; 20; 5; 9; 14; 20; 5; 9; 14; 20;
     4; 11; 16; 23; 4; 11; 16; 23; 4; 11; 16; 23; 4; 11; 16; 23;
     6; 10; 15; 21; 6; 10; 15; 21; 6; 10; 15; 21; 6; 10; 15; 21].

Record state : Type := mkState { sa : N; sb : N; sc : N; sd : N }.

Definition init : state :=
  mkState 0x67452301 0xefcdab89 0x98badcfe 0x10325476.

(** The mixing function and the message-word index of step [i]. *)
Definition mix (i : nat) (b c d : N) : N * nat :=
  if (i <? 16)%nat then
    (N.lor (N.land b c) (N.land (not32 b) d), i)
  else if (i <? 32)%nat then
    (N.lor (N.land d b) (N.land (not32 d) c), ((5 * i + 1) mod 16)%nat)
  else if (i <? 48)%nat then
    (N.lxor (N.lxor b c) d, ((3 * i + 5) mod 16)%nat)
  else
    (N.lxor c (N.lor b (not32 d)), ((7 * i) mod 16)%nat).

Definition step (m : list N) (st : state) (i : nat) : state :=
  let '(f, g) := mix i (sb st) (sc st) (sd st) in
  let f' := add32 (add32 (add32 f (sa st)) (nth i K 0)) (nth g m 0) in
  mkState (sd st) (add32 (sb st) (rotl32 f' (nth i shifts 0))) (sb st) (sc st).

(** Little-endian words of a block. *)
Fixpoint words (bs : list N) : list N :=
  match bs with
  | b0 :: b1 :: b2 :: b3 :: rest =>
      (b0 + N.shiftl b1 8 + N.shiftl b2 16 + N.shiftl b3 24) :: words rest
  | _ => []
  end.

Definition compress (st : state) (block : list N) : state :=
  let st' := fold_left (step (words block)) (seq 0 64) st in
  mkState (add32 (sa st) (sa st')) (add32 (sb st) (sb st'))
          (add32 (sc st) (sc st')) (add32 (sd st) (sd st')).

Definition le_bytes (k : nat) (x : N) : list N :=
  map (fun i => N.land (N.shiftr x (8 * N.of_nat i)) 0xFF) (seq 0 k).

(** Padding: a one bit, zeros up to 56 modulo 64, the bit length on 64
    bits. *)
Definition pad (msg : list N) : list N :=
  let n := length msg in
  let zeros := ((55 + 64 - n mod 64) mod 64)%nat in
  msg ++ [0x80] ++ repeat 0 zeros
      ++ le_bytes 8 (N.land (8 * N.of_nat n) 0xFFFFFFFFFFFFFFFF).

Fixpoint blocks (fuel : nat) (st : state) (bs : list N) : state :=
  match fuel with
  | O => st
  | S fuel' =>
      match bs with
      | [] => st
      | _ => blocks fuel' (compress st (firstn 64 bs)) (skipn 64 bs)
      end
  end.

Definition digest (msg : list N) : list N :=
  let p := pad msg in
  let st := blocks (length p) init p in
  le_bytes 4 (sa st) ++ le_bytes 4 (sb st)
    ++ le_bytes 4 (sc st) ++ le_bytes 4 (sd st).

Definition byte_hex (b : N) : pystr :=
  [hexdigit (b / 16 mod 16); hexdigit (b mod 16)].

(** [hashlib.md5(msg).hexdigest()] *)
Definition hexdigest (msg : list N) : pystr :=
  flat_map byte_hex (digest msg).

End MD5.

(** [m = hashlib.md5(); m.update(s.encode("utf-8")); m.hexdigest()] *)
Definition md5_hex_of_str (s : pystr) : result pystr :=
  bs <- encode_utf8 s ;; Ok (MD5.hexdigest bs).

(** ** Decimal digits, [re.match], [int], [str.split] *)

(** The code points with Unicode property [Nd] come in runs of ten, one
    per script, in the order of their values; [nd_zeros] lists the digit
    zero of every run of the Unicode database of CPython 3.11
    (version 14.0.0).  [re]'s [\d] on [str] patterns and [int] both read
    this table. *)
Definition nd_zeros : list N :=
  [0x30; 0x660; 0x6f0; 0x7c0; 0x966; 0x9e6; 0xa66; 0xae6; 0xb66; 0xbe6;
   0xc66; 0xce6; 0xd66; 0xde6; 0xe50; 0xed0; 0xf20; 0x1040; 0x1090;
   0x17e0; 0x1810; 0x1946; 0x19d0; 0x1a80; 0x1a90; 0x1b50; 0x1bb0;
   0x1c40; 0x1c50; 0xa620; 0xa8d0; 0xa900; 0xa9d0; 0xa9f0; 0xaa50;
   0xabf0; 0xff10; 0x104a0; 0x10d30; 0x11066; 0x110f0; 0x11136; 0x111d0;
   0x112f0; 0x11450; 0x114d0; 0x11650; 0x116c0; 0x11730; 0x118e0;
   0x11950; 0x11c50; 0x11d50; 0x11da0; 0x16a60; 0x16ac0; 0x16b50;
   0x1d7ce; 0x1d7d8; 0x1d7e2; 0x1d7ec; 0x1d7f6; 0x1e140; 0x1e2f0;
   0x1e950; 0x1fbf0].

Definition decimal_value (c : N) : option N :=
  match find (fun z => (z <=? c) && (c <? z + 10)) nd_zeros with
  | Some z => Some (c - z)
  | None => None
  end.

Definition is_digit (c : N) : bool :=
  match decimal_value c with Some _ => true | None => false end.

Definition is_ascii_digit (c : N) : bool := (48 <=? c) && (c <=? 57).

(** The greedy [\d*] consumes the longest run of digits. *)
Fixpoint drop_digits (s : pystr) : pystr :=
  match s with
  | [] => []
  | c :: s' => if is_digit c then drop_digits s' else s
  end.

(** [re.match("^\\d*$", s)] succeeds or not.  Without [re.MULTILINE],
    [$] matches at the end of the string and just before a newline that
    ends the string. *)
Definition re_match_digits (s : pystr) : bool :=
  match drop_digits s with
  | [] => true
  | [10] => true
  | _ => false
  end.

(** White space that [int] skips at both ends of its argument. *)
Definition int_space (c : N) : bool :=
  ((9 <=? c) && (c <=? 13)) || (c =? 32) || (c =? 0x85) || (c =? 0xA0)
  || (c =? 0x1680) || ((0x2000 <=? c) && (c <=? 0x200A))
  || (c =? 0x2028) || (c =? 0x2029) || (c =? 0x202F) || (c =? 0x205F)
  || (c =? 0x3000).

Fixpoint lstrip (s : pystr) : pystr :=
  match s with
  | [] => []
  | c :: s' => if int_space c then lstrip s' else s
  end.

Definition strip (s : pystr) : pystr := rev (lstrip (rev (lstrip s))).

(** Digits, single underscores allowed between two digits: the value read
    and the number of digits, or [None] on a malformed literal. *)
Fixpoint digits_value (s : pystr) (after_digit : bool) (acc : Z) (count : nat)
  : option (Z * nat) :=
  match s with
  | [] => if after_digit then Some (acc, count) else None
  | c :: s' =>
      match decimal_value c with
      | Some d => digits_value s' true (10 * acc + Z.of_N d)%Z (S count)
      | None =>
          if (c =? 95) && after_digit then digits_value s' false acc count
          else None
      end
  end.

(** [sys.get_int_max_str_digits()], the interpreter's default. *)
Definition int_max_str_digits : nat := 4300.

(** [int(s)] for a [str] argument, base 10. *)
Definition py_int (s : pystr) : result Z :=
  let body := strip s in
  let '(sign, ds) :=
    match body with
    | 43 :: ds => (1%Z, ds)
    | 45 :: ds => ((-1)%Z, ds)
    | _ => (1%Z, body)
    end in
  match digits_value ds false 0%Z 0 with
  | Some (v, count) =>
      if (int_max_str_digits <? count)%nat then Raise ValueError
      else Ok (sign * v)%Z
  | None => Raise ValueError
  end.

(** [s.split(sep)] for a one-character separator: never empty. *)
Fixpoint split_on (sep : N) (s : pystr) : list pystr :=
  match s with
  | [] => [[]]
  | c :: s' =>
      if c =? sep then [] :: split_on sep s'
      else match split_on sep s' with
           | h :: t => (c :: h) :: t
           | [] => [[c]]
           end
  end.

Fixpoint range_loop (fuel i stop step : nat) : list nat :=
  match fuel with
  | O => []
  | S fuel' =>
      if (i <? stop)%nat then i :: range_loop fuel' (i + step) stop step
      else []
  end.

(** [range(start, stop, step)] for [step >= 1]: at most [stop] indices. *)
Definition py_range (start stop step : nat) : list nat :=
  range_loop stop start stop step.

(** ** JSON values as [response.json()] builds them *)

(** Objects are [dict]s with [str] keys, in insertion order and without
    duplicate keys; numbers are the integers (a number with a fraction or
    an exponent would be a [float], which this model leaves out). *)
#[warnings="-register-all"]
Inductive json : Type :=
| JNull
| JBool (b : bool)
| JInt (z : Z)
| JStr (s : pystr)
| JArr (l : list json)
| JObj (d : list (pystr * json)).

(** *** [dict] with [str] keys *)

Fixpoint dict_get {V : Type} (d : list (pystr * V)) (k : pystr) : option V :=
  match d with
  | [] => None
  | (k', v) :: d' => if pystr_eqb k' k then Some v else dict_get d' k
  end.

(** [d[k] = v]: the value is replaced in place, a new key goes last. *)
Fixpoint dict_set {V : Type} (d : list (pystr * V)) (k : pystr) (v : V)
  : list (pystr * V) :=
  match d with
  | [] => [(k, v)]
  | (k', v') :: d' =>
      if pystr_eqb k' k then (k', v) :: d' else (k', v') :: dict_set d' k v
  end.

Fixpoint dict_remove {V : Type} (d : list (pystr * V)) (k : pystr)
  : list (pystr * V) :=
  match d with
  | [] => []
  | (k', v') :: d' =>
      if pystr_eqb k' k then d' else (k', v') :: dict_remove d' k
  end.

(** [d.pop(k)]: the value and the dictionary left behind. *)
Definition dict_pop {V : Type} (d : list (pystr * V)) (k : pystr)
  : result (V * list (pystr * V)) :=
  match dict_get d k with
  | Some v => Ok (v, dict_remove d k)
  | None => Raise KeyError
  end.

Definition has_key {V : Type} (d : list (pystr * V)) (k : pystr) : bool :=
  match dict_get d k with Some _ => true | None => false end.

(** *** Comparisons *)

(** [bool] is a subclass of [int]: [True == 1]. *)
Definition as_int (v : json) : option Z :=
  match v with
  | JInt z => Some z
  | JBool true => Some 1%Z
  | JBool false => Some 0%Z
  | _ => None
  end.

(** [a == b] *)
Fixpoint py_eq (a b : json) {struct a} : bool :=
  match a, b with
  | JNull, JNull => true
  | JStr s, JStr t => pystr_eqb s t
  | JArr l, JArr m =>
      (fix go (l m : list json) {struct l} : bool :=
         match l, m with
         | [], [] => true
         | x :: l', y :: m' => py_eq x y && go l' m'
         | _, _ => false
         end) l m
  | JObj d, JObj e =>
      (length d =? length e)%nat &&
      (fix go (d : list (pystr * json)) {struct d} : bool :=
         match d with
         | [] => true
         | (k, v) :: d' =>
             match dict_get e k with
             | Some w => py_eq v w && go d'
             | None => false
             end
         end) d
  | _, _ =>
      match as_int a, as_int b with
      | Some x, Some y => (x =? y)%Z
      | _, _ => false
      end
  end.

(** Order of [str]: by code points. *)
Fixpoint str_lt (s t : pystr) : bool :=
  match s, t with
  | _, [] => false
  | [], _ :: _ => true
  | c :: s', d :: t' =>
      if c <? d then true else if d <? c then false else str_lt s' t'
  end.

(** [a < b]; [TypeError] between values of unordered types. *)
Fixpoint py_lt (a b : json) {struct a} : result bool :=
  match a, b with
  | JStr s, JStr t => Ok (str_lt s t)
  | JArr l, JArr m =>
      (fix go (l m : list json) {struct l} : result bool :=
         match l, m with
         | [], [] => Ok false
         | [], _ :: _ => Ok true
         | _ :: _, [] => Ok false
         | x :: l', y :: m' => if py_eq x y then go l' m' else py_lt x y
         end) l m
  | _, _ =>
      match as_int a, as_int b with
      | Some x, Some y => Ok (x <? y)%Z
      | _, _ => Raise TypeError
      end
  end.

(** *** Attribute and item access on an arbitrary value *)

(** [v.get(k, default)]: only a [dict] has the method. *)
Definition py_get (v : json) (k : pystr) (default : json) : result json :=
  match v with
  | JObj d => Ok (match dict_get d k with Some x => x | None => default end)
  | _ => Raise AttributeError
  end.

(** [v[k]] for a [str] subscript. *)
Definition py_getitem (v : json) (k : pystr) : result json :=
  match v with
  | JObj d => match dict_get d k with Some x => Ok x | None => Raise KeyError end
  | _ => Raise TypeError
  end.

(** [v[0]] *)
Definition py_getitem_0 (v : json) : result json :=
  match v with
  | JArr (x :: _) => Ok x
  | JArr [] => Raise IndexError
  | JStr (c :: _) => Ok (JStr [c])
  | JStr [] => Raise IndexError
  | JObj _ => Raise KeyError
  | _ => Raise TypeError
  end.

(** [len(v)] *)
Definition py_len (v : json) : result nat :=
  match v with
  | JArr l => Ok (length l)
  | JStr s => Ok (length s)
  | JObj d => Ok (length d)
  | _ => Raise TypeError
  end.

(** [iter(v)], run to the end: the items a [for] loop, [filter] or
    [sorted] sees. *)
Definition py_iter (v : json) : result (list json) :=
  match v with
  | JArr l => Ok l
  | JStr s => Ok (map (fun c => JStr [c]) s)
  | JObj d => Ok (map (fun kv => JStr (fst kv)) d)
  | _ => Raise TypeError
  end.

Fixpoint is_prefix (p s : pystr) : bool :=
  match p, s with
  | [], _ => true
  | _ :: _, [] => false
  | c :: p', d :: s' => (c =? d) && is_prefix p' s'
  end.

Fixpoint is_substring (p s : pystr) : bool :=
  is_prefix p s ||
  match s with
  | [] => false
  | _ :: s' => is_substring p s'
  end.

(** [k in v] for a [str] [k]. *)
Definition py_contains (k : pystr) (v : json) : result bool :=
  match v with
  | JObj d => Ok (has_key d k)
  | JArr l => Ok (existsb (fun x => py_eq x (JStr k)) l)
  | JStr s => Ok (is_substring k s)
  | _ => Raise TypeError
  end.

(** *** [sorted] and [list.sort] with a key function *)

(** The keys of all items are computed first, left to right; the sort is
    stable and compares keys with [<] only.  On keys that [<] orders
    totally the outcome is the one stable ordering, whichever algorithm
    runs; it is computed here by insertion from the right, an item
    passing over the items whose key is strictly smaller. *)
Section Sorting.

Variables (K A : Type) (lt : K -> K -> result bool).

Fixpoint insert_keyed (x : K * A) (l : list (K * A)) : result (list (K * A)) :=
  match l with
  | [] => Ok [x]
  | y :: l' =>
      b <- lt (fst y) (fst x) ;;
      if b then r <- insert_keyed x l' ;; Ok (y :: r)
      else Ok (x :: y :: l')
  end.

Fixpoint sort_keyed (l : list (K * A)) : result (list (K * A)) :=
  match l with
  | [] => Ok []
  | x :: l' => s <- sort_keyed l' ;; insert_keyed x s
  end.

Definition sorted_by (key : A -> result K) (l : list A) : result (list A) :=
  ks <- mapM key l ;;
  s <- sort_keyed (combine ks l) ;;
  Ok (map snd s).

End Sorting.

(** An item does not come before an item of strictly smaller key, for
    an order [ltb] of the keys. *)
Definition key_le {K A : Type} (ltb : K -> K -> bool) (p q : K * A) : Prop :=
  ltb (fst q) (fst p) = false.

Definition good_item {K A : Type} (good : K -> Prop) (p : K * A) : Prop :=
  good (fst p).

(** Keys that are pairs compare as tuples do: on the first components
    when they differ, else on the second. *)
Definition tuple_lt (a b : json * Z) : result bool :=
  if py_eq (fst a) (fst b) then Ok (snd a <? snd b)%Z
  else py_lt (fst a) (fst b).

(** ** Numbers returned by the client *)

(** A Python number: an [int], or a [float] given by the rational it is
    the nearest double of. *)
Inductive number : Type :=
| NInt (z : Z)
| NFloat (q : Q).

(** [int / int] raises [OverflowError] when the quotient rounds beyond
    the largest double. *)
Definition quotient_overflows (z d : Z) : bool :=
  (d * (2 ^ 1024 - 2 ^ 970) <=? Z.abs z)%Z.

(** [v / 1000] *)
Definition truediv_1000 (v : json) : result number :=
  match as_int v with
  | Some z =>
      if quotient_overflows z 1000 then Raise OverflowError
      else Ok (NFloat (z # 1000))
  | None => Raise TypeError
  end.

(** ** HTTP responses *)

(** What the client reads of a [requests.Response]: [ok] is the status
    test, [json] the outcome of [response.json()] (an exception when the
    body is not JSON), [text] the body. *)
Record response : Type := mkResponse {
  ok : bool;
  json_of : result json;
  text : pystr
}.

(** ** The client *)

Module WeReadClient.

(** *** The identifier codec *)

(** [transform_id]: the mode code and the transformed segments. *)
Definition transform_id (book_id : pystr) : result (pystr * list pystr) :=
  let id_length := length book_id in
  if re_match_digits book_id then
    ary <- mapM
             (fun i =>
                n <- py_int (slice book_id i (Nat.min (i + 9) id_length)) ;;
                Ok (format_x n))
             (py_range 0 id_length 9) ;;
    Ok (lit "3", ary)
  else
    let result :=
      fold_left
        (fun result i => result ++ format_x (Z.of_N (nth i book_id 0)))
        (seq 0 id_length) [] in
    Ok (lit "4", [result]).

(** One turn of the loop over the transformed segments. *)
Definition append_segment (transformed_ids : list pystr)
    (result : pystr) (i : nat) : pystr :=
  let seg := nth i transformed_ids [] in
  let hex_length_str := format_x (Z.of_nat (length seg)) in
  let hex_length_str :=
    if (length hex_length_str =? 1)%nat then lit "0" ++ hex_length_str
    else hex_length_str in
  let result := result ++ hex_length_str ++ seg in
  if (Z.of_nat i <? Z.of_nat (length transformed_ids) - 1)%Z
  then result ++ lit "g"
  else result.

(** [calculate_book_str_id]: the identifier used in web URLs. *)
Definition calculate_book_str_id (book_id : pystr) : result pystr :=
  digest <- md5_hex_of_str book_id ;;
  let result := slice digest 0 3 in
  '(code, transformed_ids) <- transform_id book_id ;;
  let result := result ++ code ++ lit "2" ++ suffix digest 2 in
  let result :=
    fold_left (append_segment transformed_ids)
              (seq 0 (length transformed_ids)) result in
  let result :=
    if (length result <? 20)%nat
    then result ++ slice digest 0 (20 - length result)
    else result in
  digest2 <- md5_hex_of_str result ;;
  Ok (result ++ slice digest2 0 3).

(** *** Construction *)

(** A [RequestsCookieJar], by the dictionary it was built from. *)
Definition cookiejar : Type := list (pystr * pystr).

Definition cookiejar_from_dict (cookies_dict : list (pystr * pystr))
  : cookiejar := cookies_dict.

Section Construction.

(** [SimpleCookie.load] followed by [items()]: the names and values of
    the morsels read from the cookie string, or the [CookieError] that
    [load] raises on an illegal key. *)
Variable SimpleCookie_load : pystr -> result (list (pystr * pystr)).

(** The request for [url] as the transport answers it, with the cookies
    the session holds: the response, or the exception raised by the
    transport. *)
Variable send : option cookiejar -> pystr -> result response.

Definition WEREAD_URL : pystr := lit "https://weread.qq.com/".

(** [_parse_cookie_string]: the jar stays [None] when the loop has no
    morsel to go through. *)
Definition _parse_cookie_string (cookie_string : pystr)
  : result (option cookiejar) :=
  morsels <- SimpleCookie_load cookie_string ;;
  Ok (snd
        (fold_left
           (fun (st : list (pystr * pystr) * option cookiejar) morsel =>
              let cookies_dict :=
                dict_set (fst st) (fst morsel) (snd morsel) in
              (cookies_dict, Some (cookiejar_from_dict cookies_dict)))
           morsels
           ([], None))).

(** [session.get(url)] in a session whose [cookies] attribute is
    [cookies]: the request is sent, and once it is answered the session
    stores the cookies of the response in its jar
    ([self.cookies.extract_cookies]); where the attribute is [None] this
    access raises [AttributeError]. *)
Definition session_get (cookies : option cookiejar) (url : pystr)
  : result response :=
  response <- send cookies url ;;
  match cookies with
  | Some _ => Ok response
  | None => Raise AttributeError
  end.

(** A constructed client: the cookies of its session. *)
Record client : Type := mkClient { cookies : option cookiejar }.

(** [__init__]: no [try] surrounds the parsing or the probe, and the
    response of the probe is dropped. *)
Definition __init__ (cookie_string : pystr) : result client :=
  cookies <- _parse_cookie_string cookie_string ;;
  _ <- session_get cookies WEREAD_URL ;;
  Ok (mkClient cookies).

End Construction.

(** *** Queries

    Each query is a function of the response its request received. *)

(** [get_notebooklist] *)
Definition get_notebooklist (response : response)
  : result (option (list json)) :=
  if ok response then
    data <- json_of response ;;
    books <- py_get data (lit "books") (JArr []) ;;
    match books with
    | JArr l =>
        sorted <- sorted_by py_lt (fun x => py_getitem x (lit "sort")) l ;;
        Ok (Some sorted)
    | _ => Raise AttributeError
    end
  else Ok None.

(** The [range] field of a bookmark up to its first dash, as a number:
    [int(x.get("range", "0-0").split("-")[0] or 0)]. *)
Definition range_start (x : json) : result Z :=
  r <- py_get x (lit "range") (JStr (lit "0-0")) ;;
  match r with
  | JStr s =>
      match hd [] (split_on 45 s) with
      | [] => Ok 0%Z
      | start => py_int start
      end
  | _ => Raise AttributeError
  end.

(** The sort key of a bookmark. *)
Definition bookmark_key (x : json) : result (json * Z) :=
  uid <- py_get x (lit "chapterUid") (JInt 1) ;;
  start <- range_start x ;;
  Ok (uid, start).

(** [get_bookmark_list] *)
Definition get_bookmark_list (response : response)
  : result (option (list json)) :=
  if ok response then
    data <- json_of response ;;
    updated <- py_get data (lit "updated") (JArr []) ;;
    items <- py_iter updated ;;
    sorted <- sorted_by tuple_lt bookmark_key items ;;
    Ok (Some sorted)
  else Ok None.

(** [get_read_info] *)
Definition get_read_info (response : response) : result (option json) :=
  if ok response then data <- json_of response ;; Ok (Some data)
  else Ok None.

(** [get_bookinfo] *)
Definition get_bookinfo (response : response) : result (json * number) :=
  if ok response then
    data <- json_of response ;;
    isbn <- py_get data (lit "isbn") (JStr []) ;;
    rating <- py_get data (lit "newRating") (JInt 0) ;;
    new_rating <- truediv_1000 rating ;;
    Ok (isbn, new_rating)
  else Ok (JStr [], NInt 0).

(** [x.get("review", {}).get("type") == n] *)
Definition review_type_is (n : Z) (x : json) : result bool :=
  review <- py_get x (lit "review") (JObj []) ;;
  t <- py_get review (lit "type") JNull ;;
  Ok (py_eq t (JInt n)).

(** [list(filter(f, l))] *)
Fixpoint filterM {A : Type} (f : A -> result bool) (l : list A)
  : result (list A) :=
  match l with
  | [] => Ok []
  | x :: l' =>
      b <- f x ;;
      r <- filterM f l' ;;
      Ok (if b then x :: r else r)
  end.

(** [{**x, "markText": x.pop("content")}].  The items of a dictionary
    display are evaluated from left to right: [x] is unpacked into the
    new dictionary first, [x.pop] then removes the key from [x] itself.
    The outcome is the new dictionary together with [x] as the call
    leaves it. *)
Definition rename_content (x : json) : result (json * json) :=
  match x with
  | JObj d =>
      let unpacked := d in
      '(content, d_after_pop) <- dict_pop d (lit "content") ;;
      Ok (JObj (dict_set unpacked (lit "markText") content),
          JObj d_after_pop)
  | _ => Raise TypeError
  end.

(** [get_review_list] *)
Definition get_review_list (response : response)
  : result (list json * list json) :=
  if negb (ok response) then Ok ([], [])
  else
    data <- json_of response ;;
    reviews <- py_get data (lit "reviews") (JArr []) ;;
    items <- py_iter reviews ;;
    summary <- filterM (review_type_is 4) items ;;
    reviews <- filterM (review_type_is 1) items ;;
    reviews <- mapM (fun x => py_get x (lit "review") JNull) reviews ;;
    reviews <- mapM (fun x => r <- rename_content x ;; Ok (fst r)) reviews ;;
    Ok (summary, reviews).

(** Equality of the keys of a [dict]; lists and dictionaries are not
    hashable. *)
Definition hashable (k : json) : bool :=
  match k with
  | JArr _ | JObj _ => false
  | _ => true
  end.

(** [m[k] = v] on a dictionary with arbitrary hashable keys. *)
Fixpoint map_set (m : list (json * json)) (k v : json) : list (json * json) :=
  match m with
  | [] => [(k, v)]
  | (k', v') :: m' =>
      if py_eq k' k then (k', v) :: m' else (k', v') :: map_set m' k v
  end.

Fixpoint map_get (m : list (json * json)) (k : json) : option json :=
  match m with
  | [] => None
  | (k', v) :: m' => if py_eq k' k then Some v else map_get m' k
  end.

(** [{item["chapterUid"]: item for item in update}] *)
Fixpoint chapter_map (m : list (json * json)) (update : list json)
  : result (list (json * json)) :=
  match update with
  | [] => Ok m
  | item :: rest =>
      k <- py_getitem item (lit "chapterUid") ;;
      if hashable k then chapter_map (map_set m k item) rest
      else Raise TypeError
  end.

(** [get_chapter_info] *)
Definition get_chapter_info (response : response)
  : result (option (list (json * json))) :=
  if ok response then
    body <- json_of response ;;
    has_data <- py_contains (lit "data") body ;;
    if has_data then
      data <- py_getitem body (lit "data") ;;
      n <- py_len data ;;
      if (n =? 1)%nat then
        first <- py_getitem_0 data ;;
        has_updated <- py_contains (lit "updated") first ;;
        if has_updated then
          update <- py_getitem first (lit "updated") ;;
          items <- py_iter update ;;
          m <- chapter_map [] items ;;
          Ok (Some m)
        else Ok None
      else Ok None
    else Ok None
  else Ok None.

End WeReadClient.

(** ** The identifier as the specification words it *)

Module Spec.

(** A string of digits padded with zeros on the left to width 2. *)
Definition zero_pad2 (s : pystr) : pystr := repeat 48 (2 - length s) ++ s.

(** A segment behind the hexadecimal count of its characters. *)
Definition segment (seg : pystr) : pystr :=
  zero_pad2 (hex (N.of_nat (length seg))) ++ seg.

(** The segments in order, ["g"] after every one but the last. *)
Fixpoint segments (segs : list pystr) : pystr :=
  match segs with
  | [] => []
  | [seg] => segment seg
  | seg :: rest => segment seg ++ lit "g" ++ segments rest
  end.

Definition last_chars (k : nat) (s : pystr) : pystr := rev (firstn k (rev s)).

(** Steps 5 and 6. *)
Definition head_and_segments (digest code : pystr) (segs : list pystr)
  : pystr :=
  firstn 3 digest ++ code ++ lit "2" ++ last_chars 2 digest ++ segments segs.

(** Step 7. *)
Definition padded (digest s : pystr) : pystr :=
  if (length s <? 20)%nat then s ++ firstn (20 - length s) digest else s.

(** Steps 5 to 8, from the digest of the identifier, the mode code and
    the segments. *)
Definition book_str_id (digest code : pystr) (segs : list pystr) : pystr :=
  let s := padded digest (head_and_segments digest code segs) in
  s ++ firstn 3 (MD5.hexdigest (utf8_bytes s)).

(** Step 2: the identifier consists entirely of ASCII decimal digits. *)
Definition numeric (book_id : pystr) : bool := forallb is_ascii_digit book_id.

Fixpoint chunks_loop (fuel k : nat) (s : pystr) : list pystr :=
  match fuel with
  | O => []
  | S fuel' =>
      match s with
      | [] => []
      | _ => firstn k s :: chunks_loop fuel' k (skipn k s)
      end
  end.

(** Consecutive chunks of at most [k] characters, left to right. *)
Definition chunks (k : nat) (s : pystr) : list pystr :=
  chunks_loop (length s) k s.

(** A string of ASCII digits read in base 10. *)
Definition base10 (s : pystr) : N :=
  fold_left (fun acc c => 10 * acc + (c - 48)) s 0.

(** Steps 2 to 4: the mode code and the segments. *)
Definition transform_id (book_id : pystr) : pystr * list pystr :=
  if numeric book_id then
    (lit "3", map (fun chunk => hex (base10 chunk)) (chunks 9 book_id))
  else
    (lit "4", [flat_map hex book_id]).

End Spec.

(** ** Shapes of upstream data and sample responses *)

Definition is_object (x : json) : bool :=
  match x with JObj _ => true | _ => false end.

Definition is_ok {A : Type} (m : result A) : bool :=
  match m with Ok _ => true | Raise _ => false end.

(** A success response with the given JSON body. *)
Definition success (body : json) : response := mkResponse true (Ok body) [].

(** A response with a non-success status, whatever its body. *)
Definition failure (body : result json) (text : pystr) : response :=
  mkResponse false body text.

(** The field [k] of an object, [default] when the field is absent or
    the value is not an object. *)
Definition field (x : json) (k : pystr) (default : json) : json :=
  match x with
  | JObj d => match dict_get d k with Some v => v | None => default end
  | _ => default
  end.

Definition has_field (x : json) (k : pystr) : bool :=
  match x with
  | JObj d => has_key d k
  | _ => false
  end.

(** *** Reviews *)

(** The type discriminant of an entry of the review list is [n]. *)
Definition entry_type_is (n : Z) (x : json) : bool :=
  py_eq (field (field x (lit "review") (JObj [])) (lit "type") JNull) (JInt n).

(** An entry of the review list as upstream sends it: an object whose
    [review], when present, is an object, with a [content] when its type
    is 1. *)
Definition review_entry_ok (x : json) : bool :=
  match x with
  | JObj d =>
      match dict_get d (lit "review") with
      | None => true
      | Some (JObj r) =>
          if py_eq (field (JObj r) (lit "type") JNull) (JInt 1)
          then has_key r (lit "content")
          else true
      | Some _ => false
      end
  | _ => false
  end.

(** What the client makes of the review of a type-1 entry. *)
Definition renamed (x : json) : json :=
  match field x (lit "review") JNull with
  | JObj r =>
      JObj (dict_set r (lit "markText")
                     (field (JObj r) (lit "content") JNull))
  | other => other
  end.

(** One normal review with a [content]. *)
Definition one_normal_review : response :=
  success
    (JObj [(lit "reviews",
            JArr [JObj [(lit "review",
                         JObj [(lit "type", JInt 1);
                               (lit "content", JStr (lit "a"))])]])]).

(** One normal review without [content]. *)
Definition review_without_content : response :=
  success
    (JObj [(lit "reviews",
            JArr [JObj [(lit "review", JObj [(lit "type", JInt 1)])]])]).

(** *** Book details *)

Definition rating_4500 : response :=
  success (JObj [(lit "isbn", JStr (lit "9787111213826"));
                 (lit "newRating", JInt 4500)]).

Definition rating_null : response :=
  success (JObj [(lit "isbn", JStr (lit "9787111213826"));
                 (lit "newRating", JNull)]).

(** *** Library *)

Definition book_without_sort : response :=
  success (JObj [(lit "books",
                  JArr [JObj [(lit "bookId", JStr (lit "695233"))]])]).

(** *** Bookmarks *)

(** The chapter of a bookmark: its integer [chapterUid], 1 without. *)
Definition chapter_uid (x : json) : Z :=
  match as_int (field x (lit "chapterUid") (JInt 1)) with
  | Some u => u
  | None => 1%Z
  end.

(** The text of the [range] of a bookmark before its first dash, empty
    without a [range]. *)
Definition range_head (x : json) : pystr :=
  match field x (lit "range") (JStr (lit "0-0")) with
  | JStr s => hd [] (split_on 45 s)
  | _ => []
  end.

(** The start of the range of a bookmark: the number before the first
    dash, 0 without one. *)
Definition start_of_range (x : json) : Z :=
  match py_int (range_head x) with
  | Ok z => z
  | Raise _ => 0%Z
  end.

(** A bookmark as upstream sends it: an object whose [chapterUid], when
    present, is an integer and whose [range], when present, is a string
    that starts with a dash or with a decimal integer before its first
    dash. *)
Definition bookmark_ok (x : json) : bool :=
  match x with
  | JObj d =>
      match dict_get d (lit "chapterUid") with
      | None => true
      | Some v => match as_int v with Some _ => true | None => false end
      end
      &&
      match dict_get d (lit "range") with
      | None => true
      | Some (JStr s) =>
          match hd [] (split_on 45 s) with
          | [] => true
          | start => is_ok (py_int start)
          end
      | Some _ => false
      end
  | _ => false
  end.

(** The order of the bookmark list: by chapter, then by start of range. *)
Definition bookmark_le (x y : json) : Prop :=
  (chapter_uid x < chapter_uid y)%Z
  \/ (chapter_uid x = chapter_uid y /\ (start_of_range x <= start_of_range y)%Z).

Definition bookmark (uid : Z) (range : string) : json :=
  JObj [(lit "chapterUid", JInt uid); (lit "range", JStr (lit range))].

(** The two bookmarks of the end-to-end scenario. *)
Definition two_bookmarks : response :=
  success (JObj [(lit "updated",
                  JArr [bookmark 2 "10-20"; bookmark 1 "5-9"])]).

(** A bookmark whose range does not start with a number. *)
Definition malformed_range : response :=
  success (JObj [(lit "updated",
                  JArr [JObj [(lit "chapterUid", JInt 1);
                              (lit "range", JStr (lit "x-1"))]])]).

(** *** Chapters *)

(** The integer [chapterUid] of an item of the update list. *)
Definition item_uid (item : json) : option Z :=
  match item with
  | JObj d =>
      match dict_get d (lit "chapterUid") with
      | Some (JInt u) => Some u
      | _ => None
      end
  | _ => None
  end.

Definition item_has_uid (u : Z) (item : json) : bool :=
  match item_uid item with
  | Some v => (v =? u)%Z
  | None => false
  end.

(** A chapter response: one data element with the given update list. *)
Definition chapters (update : list json) : response :=
  success (JObj [(lit "data",
                  JArr [JObj [(lit "bookId", JStr (lit "695233"));
                              (lit "updated", JArr update)]])]).

Definition chapter_without_uid : response :=
  chapters [JObj [(lit "title", JStr (lit "Preface"))]].

(** The order [<] puts on the keys of bookmarks whose chapters are
    integers. *)
Definition key_ltb (a b : json * Z) : bool :=
  match as_int (fst a), as_int (fst b) with
  | Some u, Some v => if (u =? v)%Z then (snd a <? snd b)%Z else (u <? v)%Z
  | _, _ => false
  end.

Definition int_key (k : json * Z) : Prop := exists u, as_int (fst k) = Some u.

(** The key the source computes for a well-shaped bookmark. *)
Definition key_of (x : json) : json * Z :=
  (field x (lit "chapterUid") (JInt 1), start_of_range x).

(** Every key of the mapping is an integer. *)
Definition int_keys (m : list (json * json)) : Prop :=
  Forall (fun p => exists a, fst p = JInt a) m.

(** ** Characters of a web identifier *)

Definition is_hex_char (c : N) : bool :=
  ((48 <=? c) && (c <=? 57)) || ((97 <=? c) && (c <=? 102)).

(** A lowercase hexadecimal digit or the separator ["g"]. *)
Definition is_web_id_char (c : N) : bool := is_hex_char c || (c =? 103).

Definition hex_string (s : pystr) : Prop :=
  Forall (fun c => is_hex_char c = true) s.

Definition web_id_string (s : pystr) : Prop :=
  Forall (fun c => is_web_id_char c = true) s.

(** A property of characters checked on every decimal digit of the
    Unicode table. *)
Definition digits_satisfy (P : N -> bool) : bool :=
  forallb (fun z => forallb (fun i => P (z + N.of_nat i)) (seq 0 10)) nd_zeros.

(** The body of the loop of [transform_id] over the chunks. *)
Definition chunk_segment (chunk : pystr) : result pystr :=
  n <- py_int chunk ;; Ok (format_x n).

(** Whole chunks of nine decimal digits (none, or more) followed by one
    line feed. *)
Definition whole_chunks_then_newline (s : pystr) : Prop :=
  exists d,
    forallb is_digit d = true /\ (length d mod 9 = 0)%nat /\ s = d ++ [10].

(** ** Library records and their order *)

(** A record of the library list as upstream sends it: an object with an
    integer [sort]. *)
Definition book_ok (x : json) : bool :=
  match x with
  | JObj d =>
      match dict_get d (lit "sort") with
      | Some v => match as_int v with Some _ => true | None => false end
      | None => false
      end
  | _ => false
  end.

(** The integer [sort] of a record, 0 without one. *)
Definition sort_value (x : json) : Z :=
  match as_int (field x (lit "sort") JNull) with
  | Some u => u
  | None => 0%Z
  end.

(** The order [<] puts on integer keys. *)
Definition int_ltb (a b : json) : bool :=
  match as_int a, as_int b with
  | Some u, Some v => (u <? v)%Z
  | _, _ => false
  end.

Definition int_like (v : json) : Prop := exists u, as_int v = Some u.

(** The key of a bookmark is the pair [(u, s)]. *)
Definition key_is (u s : Z) (k : json * Z) : bool :=
  match as_int (fst k) with
  | Some v => (v =? u)%Z && (snd k =? s)%Z
  | None => false
  end.

(** The key of a library record is [u]. *)
Definition sort_is (u : Z) (k : json) : bool :=
  match as_int k with
  | Some v => (v =? u)%Z
  | None => false
  end.

(** The library record [x] has [sort] equal to [u]. *)
Definition has_sort (u : Z) (x : json) : bool :=
  sort_is u (field x (lit "sort") JNull).

(** The bookmark [x] is at chapter [u], start of range [s]. *)
Definition at_position (u s : Z) (x : json) : bool := key_is u s (key_of x).

(** ** Cookies *)

(** The dictionary the loop of [_parse_cookie_string] builds. *)
Definition cookies_of (morsels : list (pystr * pystr)) (d : list (pystr * pystr))
  : list (pystr * pystr) :=
  fold_left (fun d m => dict_set d (fst m) (snd m)) morsels d.


(** A loader for cookie strings of one morsel: [name=value] gives the
    morsel, a comma in the name is an illegal key, and a string without
    [=] has no morsel. *)
Definition load_one (cookie_string : pystr)
  : result (list (pystr * pystr)) :=
  match split_on 61 cookie_string with
  | [name; value] =>
      if existsb (N.eqb 44) name then Raise CookieError
      else Ok [(name, value)]
  | _ => Ok []
  end.

(** A probe that fails at the transport. *)
Definition probe_down (cookies : option WeReadClient.cookiejar)
    (url : pystr) : result response :=
  Raise ConnectionError.

(** A probe that the service answers, here with an error status. *)
Definition probe_answered (cookies : option WeReadClient.cookiejar)
    (url : pystr) : result response :=
  Ok (failure (Ok JNull) (lit "login required")).

(** ** [str] of a number *)

Fixpoint dec_loop (fuel : nat) (n : N) (acc : pystr) : pystr :=
  match fuel with
  | O => acc
  | S fuel' =>
      let acc' := (48 + n mod 10) :: acc in
      if n / 10 =? 0 then acc' else dec_loop fuel' (n / 10) acc'
  end.

(** Decimal digits of a natural number, ["0"] for 0. *)
Definition dec (n : N) : pystr := dec_loop (S (N.size_nat n)) n [].

(** [str(z)] for an [int]: [ValueError] when the number has more
    decimal digits than the interpreter converts. *)
Definition str_int (z : Z) : result pystr :=
  let digits := dec (Z.abs_N z) in
  if (int_max_str_digits <? length digits)%nat then Raise ValueError
  else Ok (if (z <? 0)%Z then 45 :: digits else digits).

(** [sep.join(l)] *)
Fixpoint join (sep : pystr) (l : list pystr) : pystr :=
  match l with
  | [] => []
  | [s] => s
  | s :: rest => s ++ sep ++ join sep rest
  end.

(** [l[:z]] for an [int] [z] of either sign. *)
Definition slice_to {A : Type} (l : list A) (z : Z) : list A :=
  if (z <? 0)%Z then firstn (length l - Z.to_nat (- z)) l
  else firstn (Z.to_nat z) l.

(** ** [weread/mcp/utils.py] *)

Module McpUtils.

Section Formatting.

(** [str] of a list or of a dictionary, as the interpreter prints it,
    or the exception it raises on the way. *)
Variable container_str : json -> result pystr.

(** What a replacement field of an f-string puts for a value. *)
Definition py_str (v : json) : result pystr :=
  match v with
  | JStr s => Ok s
  | JInt z => str_int z
  | JBool true => Ok (lit "True")
  | JBool false => Ok (lit "False")
  | JNull => Ok (lit "None")
  | _ => container_str v
  end.

(** [format_book_summary] *)
Definition format_book_summary (book_data : json) : result pystr :=
  book <- py_get book_data (lit "book") (JObj []) ;;
  title <- py_get book (lit "title") (JStr (lit "Unknown")) ;;
  title <- py_str title ;;
  author <- py_get book (lit "author") (JStr (lit "Unknown")) ;;
  author <- py_str author ;;
  publisher <- py_get book (lit "publisher") (JStr (lit "Unknown")) ;;
  publisher <- py_str publisher ;;
  book_id <- py_get book (lit "bookId") (JStr (lit "Unknown")) ;;
  book_id <- py_str book_id ;;
  Ok (lit "Title: " ++ title ++ [10]
      ++ lit "Author: " ++ author ++ [10]
      ++ lit "Publisher: " ++ publisher ++ [10]
      ++ lit "ID: " ++ book_id ++ [10]).

(** One turn of the loop of [format_highlights]. *)
Definition highlight_line (bm : json) : result pystr :=
  text <- py_get bm (lit "markText") (JStr []) ;;
  chapter <- py_get bm (lit "chapterTitle") (JStr []) ;;
  text <- py_str text ;;
  chapter <- py_str chapter ;;
  Ok ([34] ++ text ++ [34] ++ lit " - " ++ chapter).

(** The truth value of [max_highlights]: [None] and 0 are false. *)
Definition limit_given (max_highlights : option Z) : bool :=
  match max_highlights with
  | Some z => negb (z =? 0)%Z
  | None => false
  end.

(** [format_highlights] *)
Definition format_highlights (bookmarks : list json)
    (max_highlights : option Z) : result pystr :=
  match bookmarks with
  | [] => Ok (lit "No highlights found.")
  | _ =>
      let bookmarks :=
        match max_highlights with
        | Some z => if limit_given max_highlights then slice_to bookmarks z
                    else bookmarks
        | None => bookmarks
        end in
      result <- mapM highlight_line bookmarks ;;
      Ok (join [10] result)
  end.

End Formatting.

End McpUtils.

(** ** More of [str] and of truth values *)

(** [s.replace(old, new)] for a non-empty [old]: the occurrences of
    [old] are replaced from left to right and do not overlap; [skip]
    counts the characters of an occurrence still to pass over. *)
Fixpoint replace_from (old new : pystr) (skip : nat) (s : pystr) : pystr :=
  match s with
  | [] => []
  | c :: s' =>
      match skip with
      | S k => replace_from old new k s'
      | O =>
          if is_prefix old s
          then new ++ replace_from old new (length old - 1) s'
          else c :: replace_from old new 0 s'
      end
  end.

Definition replace (old new s : pystr) : pystr := replace_from old new 0 s.

(** [v.replace(old, new)]: only a [str] has the method. *)
Definition py_replace (v : json) (old new : pystr) : result pystr :=
  match v with
  | JStr s => Ok (replace old new s)
  | _ => Raise AttributeError
  end.

(** The truth value of [v]. *)
Definition py_truthy (v : json) : bool :=
  match v with
  | JNull => false
  | JBool b => b
  | JInt z => negb (z =? 0)%Z
  | JStr s => negb (length s =? 0)%nat
  | JArr l => negb (length l =? 0)%nat
  | JObj d => negb (length d =? 0)%nat
  end.

(** [a or b] for an optional [str] [a]. *)
Definition str_or (a : option pystr) (b : pystr) : pystr :=
  match a with
  | Some (c :: s) => c :: s
  | _ => b
  end.

(** A loop that threads an accumulator and stops at the first
    exception. *)
Fixpoint foldM {A B : Type} (f : B -> A -> result B) (l : list A) (acc : B)
  : result B :=
  match l with
  | [] => Ok acc
  | x :: l' => acc' <- f acc x ;; foldM f l' acc'
  end.

(** ** [weread/mcp/server.py] *)

Module Server.

Import WeReadClient.

(** What the helper of the front ends raises, and what it lets
    through. *)
Inductive tool_error : Type :=
| CookieRequired
    (* Exception("WeRead cookie is required") *)
| AuthenticationFailed (cause : exn)
    (* Exception(f"Failed to authenticate with WeRead: {str(e)}") *)
| ClientError (e : exn).
    (* an exception of the client or of the tool's own code, as raised *)

Inductive outcome (A : Type) : Type :=
| Done (a : A)
| Failed (e : tool_error).

Arguments Done {A} a.
Arguments Failed {A} e.

(** The module-level dictionary [client_cache]. *)
Definition client_cache : Type := list (pystr * client).

(** A tool reads and updates the cache, and returns or raises. *)
Definition tool (A : Type) : Type := client_cache -> outcome A * client_cache.

Definition tbind {A B : Type} (m : tool A) (k : A -> tool B) : tool B :=
  fun cache =>
    match m cache with
    | (Done a, cache') => k a cache'
    | (Failed e, cache') => (Failed e, cache')
    end.

(** Code that does not touch the cache; its exceptions leave the tool
    as they are. *)
Definition lift {A : Type} (m : result A) : tool A :=
  fun cache =>
    (match m with Ok a => Done a | Raise e => Failed (ClientError e) end,
     cache).

Notation "x <~ m ;; k" := (tbind m (fun x => k))
  (at level 61, m at next level, right associativity).

Definition WEREAD_NOTEBOOKS_URL : pystr :=
  lit "https://i.weread.qq.com/user/notebooks".

Definition WEREAD_BOOKMARKLIST_URL : pystr :=
  lit "https://i.weread.qq.com/book/bookmarklist".

Section Tools.

(** [DEFAULT_COOKIE], read from the environment when the module is
    loaded. *)
Variable DEFAULT_COOKIE : pystr.

Variable SimpleCookie_load : pystr -> result (list (pystr * pystr)).

(** The request of [session.get(url, params=params)] as the transport
    answers it: the response, or the exception raised.  The queries of
    a client run in a session that has a jar; for the probe of the
    constructor, [__init__] adds what a session without a jar does. *)
Variable session_get :
  option cookiejar -> pystr -> list (pystr * pystr) -> result response.

(** [str.lower] *)
Variable lower : pystr -> pystr.

(** [str] of a list or of a dictionary. *)
Variable container_str : json -> result pystr.

(** [WeReadClient(cookie)] *)
Definition WeReadClient (cookie : pystr) : result client :=
  __init__ SimpleCookie_load (fun cookies url => session_get cookies url [])
           cookie.

(** [get_weread_client] *)
Definition get_weread_client (cookie : option pystr) : tool client :=
  fun cache =>
    let cookie := str_or cookie DEFAULT_COOKIE in
    match cookie with
    | [] => (Failed CookieRequired, cache)
    | _ =>
        match dict_get cache cookie with
        | Some client => (Done client, cache)
        | None =>
            match WeReadClient cookie with
            | Ok client => (Done client, dict_set cache cookie client)
            | Raise e => (Failed (AuthenticationFailed e), cache)
            end
        end
    end.

(** The dictionary [authenticate] returns. *)
Record auth_status : Type := mkAuth {
  authenticated : bool;
  error : option tool_error
}.

(** [authenticate] *)
Definition authenticate (cookie : pystr)
  : client_cache -> auth_status * client_cache :=
  fun cache =>
    match get_weread_client (Some cookie) cache with
    | (Done _, cache') => (mkAuth true None, cache')
    | (Failed e, cache') => (mkAuth false (Some e), cache')
    end.

(** [client.get_notebooklist()] with its request. *)
Definition client_get_notebooklist (c : client)
  : result (option (list json)) :=
  response <- session_get (cookies c) WEREAD_NOTEBOOKS_URL [] ;;
  get_notebooklist response.

(** [client.get_bookmark_list(book_id)] with its request. *)
Definition client_get_bookmark_list (c : client) (book_id : pystr)
  : result (option (list json)) :=
  response <- session_get (cookies c) WEREAD_BOOKMARKLIST_URL
                [(lit "bookId", book_id)] ;;
  get_bookmark_list response.

(** [get_web_url] *)
Definition get_web_url (book_id : pystr) : result json :=
  web_id <- calculate_book_str_id book_id ;;
  let url := lit "https://weread.qq.com/web/reader/" ++ web_id in
  Ok (JObj [(lit "url", JStr url)]).

(** The search for the library record of [book_id]: the first record
    whose [book] has this [bookId]. *)
Fixpoint find_book (book_id : pystr) (books : list json)
  : result (option json) :=
  match books with
  | [] => Ok None
  | book :: rest =>
      details <- py_get book (lit "book") (JObj []) ;;
      id <- py_get details (lit "bookId") JNull ;;
      if py_eq id (JStr book_id) then Ok (Some book)
      else find_book book_id rest
  end.

(** [format_book_highlights] *)
Definition format_book_highlights (book_id : pystr)
    (max_highlights : option Z) (cookie : option pystr) : tool pystr :=
  client <~ get_weread_client cookie ;;
  lift
    (books <- client_get_notebooklist client ;;
     book_info <-
       match books with
       | Some (b :: l) => find_book book_id (b :: l)
       | _ => Ok None
       end ;;
     bookmarks <- client_get_bookmark_list client book_id ;;
     let bookmarks :=
       match bookmarks with
       | Some (b :: l) => b :: l
       | _ => []
       end in
     result <-
       match book_info with
       | Some info =>
           if py_truthy info then
             book_details <- py_get info (lit "book") (JObj []) ;;
             title <- py_get book_details (lit "title")
                        (JStr (lit "Unknown")) ;;
             author <- py_get book_details (lit "author")
                         (JStr (lit "Unknown")) ;;
             title <- McpUtils.py_str container_str title ;;
             author <- McpUtils.py_str container_str author ;;
             Ok (lit "# Highlights from " ++ title
                 ++ lit " by " ++ author ++ [10; 10])
           else Ok (lit "# Highlights for book ID: " ++ book_id ++ [10; 10])
       | None => Ok (lit "# Highlights for book ID: " ++ book_id ++ [10; 10])
       end ;;
     highlights <-
       McpUtils.format_highlights container_str bookmarks max_highlights ;;
     Ok (result ++ highlights)).

(** [v.lower()]: only a [str] has the method. *)
Definition py_lower (v : json) : result pystr :=
  match v with
  | JStr s => Ok (lower s)
  | _ => Raise AttributeError
  end.

(** One turn of the loop of [search_books]. *)
Definition search_step (query : pystr) (results : list json)
    (book_data : json) : result (list json) :=
  book <- py_get book_data (lit "book") (JObj []) ;;
  title <- py_get book (lit "title") (JStr []) ;;
  title <- py_lower title ;;
  author <- py_get book (lit "author") (JStr []) ;;
  author <- py_lower author ;;
  if is_substring query title || is_substring query author then
    id <- py_get book (lit "bookId") (JStr []) ;;
    title <- py_get book (lit "title") (JStr []) ;;
    author <- py_get book (lit "author") (JStr []) ;;
    cover <- py_get book (lit "cover") (JStr []) ;;
    cover <- py_replace cover (lit "/s_") (lit "/t7_") ;;
    Ok (results ++ [JObj [(lit "id", id); (lit "title", title);
                          (lit "author", author); (lit "cover", JStr cover)]])
  else Ok results.

(** [search_books] *)
Definition search_books (query : pystr) (cookie : option pystr)
  : tool (list json) :=
  let query := lower query in
  client <~ get_weread_client cookie ;;
  lift
    (books <- client_get_notebooklist client ;;
     match books with
     | Some (b :: l) => foldM (search_step query) (b :: l) []
     | _ => Ok []
     end).

End Tools.

(** A call of [get_weread_client], with the transport of its time. *)
Record call : Type := mkCall {
  transport :
    option cookiejar -> pystr -> list (pystr * pystr) -> result response;
  argument : option pystr
}.

(** The cache after a sequence of calls of [get_weread_client]. *)
Fixpoint cache_after (DEFAULT_COOKIE : pystr)
    (SimpleCookie_load : pystr -> result (list (pystr * pystr)))
    (calls : list call) (cache : client_cache) : client_cache :=
  match calls with
  | [] => cache
  | c :: calls' =>
      cache_after DEFAULT_COOKIE SimpleCookie_load calls'
        (snd (get_weread_client DEFAULT_COOKIE SimpleCookie_load
                (transport c) (argument c) cache))
  end.

End Server.

(** ** [weread/api/routes.py] *)

Module Routes.

Import WeReadClient.

(** What a route answers: the body, or an [HTTPException] with the
    exception its [detail] is the text of. *)
Inductive http (A : Type) : Type :=
| Respond (a : A)
| HTTPException (status_code : Z) (detail : exn).

Arguments Respond {A} a.
Arguments HTTPException {A} status_code detail.

Section Handlers.

(** The variable [WEREAD_COOKIE] of the environment at the time of the
    call, the empty string without one. *)
Variable DEFAULT_COOKIE : pystr.

Variable SimpleCookie_load : pystr -> result (list (pystr * pystr)).

(** The probe request as the transport answers it. *)
Variable send : option cookiejar -> pystr -> result response.

(** [get_weread_client]: no cache, a client is built at every call. *)
Definition get_weread_client (cookie : option pystr)
  : Server.outcome client :=
  let cookie := str_or cookie DEFAULT_COOKIE in
  match cookie with
  | [] => Server.Failed Server.CookieRequired
  | _ =>
      match __init__ SimpleCookie_load send cookie with
      | Ok client => Server.Done client
      | Raise e => Server.Failed (Server.AuthenticationFailed e)
      end
  end.

(** The answer of [/auth]: its status and its body. *)
Record auth_response : Type := mkAuthResponse {
  status_code : Z;
  authenticated : bool;
  error : option Server.tool_error
}.

(** [authenticate] *)
Definition authenticate (cookie : pystr) : auth_response :=
  match get_weread_client (Some cookie) with
  | Server.Done _ => mkAuthResponse 200 true None
  | Server.Failed e => mkAuthResponse 401 false (Some e)
  end.

End Handlers.

(** [get_web_url] *)
Definition get_web_url (book_id : pystr) : http json :=
  match
    (web_id <- calculate_book_str_id book_id ;;
     let url := lit "https://weread.qq.com/web/reader/" ++ web_id in
     Ok (JObj [(lit "url", JStr url)]))
  with
  | Ok body => Respond body
  | Raise e => HTTPException 500 e
  end.

End Routes.

(** ** Library records as the search reads them *)

Definition text_of (v : json) : pystr :=
  match v with JStr s => s | _ => [] end.

Definition is_text (v : json) : bool :=
  match v with JStr _ => true | _ => false end.

(** The [book] of a library record, [{}] without one. *)
Definition details (x : json) : json := field x (lit "book") (JObj []).

(** A record the search can read: an object whose [book] is absent or an
    object, with [title], [author] and [cover] absent or strings. *)
Definition book_searchable (x : json) : bool :=
  is_object x && is_object (details x)
  && is_text (field (details x) (lit "title") (JStr []))
  && is_text (field (details x) (lit "author") (JStr []))
  && is_text (field (details x) (lit "cover") (JStr [])).

(** The lowered title or the lowered author of the record contains
    [query]. *)
Definition book_matches (lower : pystr -> pystr) (query : pystr) (x : json)
  : bool :=
  is_substring query
    (lower (text_of (field (details x) (lit "title") (JStr []))))
  || is_substring query
       (lower (text_of (field (details x) (lit "author") (JStr [])))).

(** What the search returns of a record. *)
Definition book_summary (x : json) : json :=
  JObj [(lit "id", field (details x) (lit "bookId") (JStr []));
        (lit "title", field (details x) (lit "title") (JStr []));
        (lit "author", field (details x) (lit "author") (JStr []));
        (lit "cover",
         JStr (replace (lit "/s_") (lit "/t7_")
                 (text_of (field (details x) (lit "cover") (JStr [])))))].

(** ** Sample transports, caches and libraries *)

(** A transport that fails on every request. *)
Definition transport_down (cookies : option WeReadClient.cookiejar)
    (url : pystr) (params : list (pystr * pystr)) : result response :=
  Raise ConnectionError.

(** A transport that answers every request with the same response. *)
Definition transport_answers (r : response)
    (cookies : option WeReadClient.cookiejar)
    (url : pystr) (params : list (pystr * pystr)) : result response :=
  Ok r.

(** The answer of an upstream that refuses the cookie. *)
Definition refused : response :=
  failure (Ok (JObj [(lit "errcode", JInt (-2012))])) (lit "login required").

(** The client of the cookie [a=1]. *)
Definition client_a : WeReadClient.client :=
  WeReadClient.mkClient (Some [(lit "a", lit "1")]).

(** Lowering of the letters A to Z, the other characters unchanged. *)
Definition ascii_lower (s : pystr) : pystr :=
  map (fun c => if (65 <=? c) && (c <=? 90) then c + 32 else c) s.

Definition library_records : list json :=
  [JObj [(lit "sort", JInt 20);
         (lit "book",
          JObj [(lit "bookId", JStr (lit "b2"));
                (lit "title", JStr (lit "Emma"));
                (lit "author", JStr (lit "Jane Austen"));
                (lit "cover", JStr (lit "http://x/s_b2.jpg"))])];
   JObj [(lit "sort", JInt 10);
         (lit "book",
          JObj [(lit "bookId", JStr (lit "b1"));
                (lit "title", JStr (lit "Walden"))])]].

Definition two_books : response :=
  success (JObj [(lit "books", JArr library_records)]).

(** A bookmark with its text and the title of its chapter. *)
Definition highlight (text chapter : string) : json :=
  JObj [(lit "markText", JStr (lit text));
        (lit "chapterTitle", JStr (lit chapter))].

Definition two_highlights : list json :=
  [highlight "To be" "Act 3"; highlight "The rest is silence" "Act 5"].

(** A bookmark the formatter can print: an object whose [markText] and
    [chapterTitle] are absent or strings. *)
Definition highlight_ok (bm : json) : bool :=
  is_object bm
  && is_text (field bm (lit "markText") (JStr []))
  && is_text (field bm (lit "chapterTitle") (JStr [])).

(** The line of a bookmark: its text between quotes, a dash, the title
    of its chapter. *)
Definition highlight_text (bm : json) : pystr :=
  [34] ++ text_of (field bm (lit "markText") (JStr [])) ++ [34]
  ++ lit " - " ++ text_of (field bm (lit "chapterTitle") (JStr [])).

(** A bookmark with a note, to tell apart bookmarks of one position. *)
Definition noted_bookmark (uid : Z) (range note : string) : json :=
  JObj [(lit "chapterUid", JInt uid); (lit "range", JStr (lit range));
        (lit "markText", JStr (lit note))].

(** Three bookmarks, two of them at chapter 2, start 5. *)
Definition tied_bookmarks : list json :=
  [noted_bookmark 2 "5-9" "second"; noted_bookmark 1 "0-3" "first";
   noted_bookmark 2 "5-7" "third"].

(** * Properties *)

Import WeReadClient.

(** ** Strings of one-byte code points *)

Lemma narrow_app (s t : pystr) : narrow s -> narrow t -> narrow (s ++ t).
Proof. intros Hs Ht. apply Forall_app. split; assumption. Qed.

Lemma narrow_firstn (k : nat) (s : pystr) : narrow s -> narrow (firstn k s).
Proof.
  intros H. unfold narrow in *. rewrite <- (firstn_skipn k s) in H.
  apply Forall_app in H. tauto.
Qed.

Lemma narrow_skipn (k : nat) (s : pystr) : narrow s -> narrow (skipn k s).
Proof.
  intros H. unfold narrow in *. rewrite <- (firstn_skipn k s) in H.
  apply Forall_app in H. tauto.
Qed.

Lemma narrow_lit (s : string) : narrow (lit s).
Proof.
  unfold narrow, lit. apply Forall_forall. intros c Hc.
  apply in_map_iff in Hc. destruct Hc as [a [<- _]].
  apply N_ascii_bounded.
Qed.

Lemma narrow_slice (s : pystr) (i j : nat) : narrow s -> narrow (slice s i j).
Proof. intros H. apply narrow_firstn, narrow_skipn, H. Qed.

Lemma narrow_suffix (s : pystr) (k : nat) : narrow s -> narrow (suffix s k).
Proof. intros H. apply narrow_skipn, H. Qed.

Lemma hexdigit_narrow (n : N) : hexdigit (n mod 16) < 256.
Proof.
  unfold hexdigit.
  assert (n mod 16 < 16) by (apply N.mod_lt; discriminate).
  destruct (n mod 16 <? 10); lia.
Qed.

Lemma hex_loop_narrow (fuel : nat) :
  forall n acc, narrow acc -> narrow (hex_loop fuel n acc).
Proof.
  induction fuel as [|fuel IH]; intros n acc Hacc; simpl.
  - exact Hacc.
  - assert (Hc : narrow (hexdigit (n mod 16) :: acc)).
    { constructor; [apply hexdigit_narrow | exact Hacc]. }
    destruct (n / 16 =? 0); [exact Hc | apply IH, Hc].
Qed.

Lemma hex_narrow (n : N) : narrow (hex n).
Proof. apply hex_loop_narrow. constructor. Qed.

Lemma format_x_narrow (z : Z) : narrow (format_x z).
Proof.
  unfold format_x. destruct (z <? 0)%Z.
  - constructor; [reflexivity | apply hex_narrow].
  - apply hex_narrow.
Qed.

Lemma hexdigest_narrow (msg : list N) : narrow (MD5.hexdigest msg).
Proof.
  unfold MD5.hexdigest. induction (MD5.digest msg) as [|b bs IH]; simpl.
  - constructor.
  - constructor; [apply hexdigit_narrow|].
    constructor; [apply hexdigit_narrow | exact IH].
Qed.

(** A narrow string is encoded without complaint. *)
Lemma narrow_no_surrogate (s : pystr) :
  narrow s -> existsb is_surrogate s = false.
Proof.
  induction 1 as [|c s Hc _ IH]; simpl; [reflexivity|].
  rewrite IH, orb_false_r. unfold is_surrogate.
  apply andb_false_iff. left. apply N.leb_gt. lia.
Qed.

Lemma md5_hex_of_str_narrow (s : pystr) :
  narrow s -> md5_hex_of_str s = Ok (MD5.hexdigest (utf8_bytes s)).
Proof.
  intros H. unfold md5_hex_of_str, encode_utf8.
  rewrite (narrow_no_surrogate H). reflexivity.
Qed.

Lemma md5_hex_of_str_Ok_narrow (s digest : pystr) :
  md5_hex_of_str s = Ok digest -> narrow digest.
Proof.
  unfold md5_hex_of_str, encode_utf8.
  destruct (existsb is_surrogate s); simpl; [discriminate|].
  intros H. injection H as <-. apply hexdigest_narrow.
Qed.

(** ** The monad *)

Lemma bind_Ok {A B : Type} (m : result A) (k : A -> result B) (b : B) :
  bind m k = Ok b -> exists a, m = Ok a /\ k a = Ok b.
Proof. destruct m as [a|e]; simpl; [eauto | discriminate]. Qed.

Lemma mapM_Forall {A B : Type} (f : A -> result B) (P : B -> Prop) :
  (forall x y, f x = Ok y -> P y) ->
  forall l ys, mapM f l = Ok ys -> Forall P ys.
Proof.
  intros Hf. induction l as [|x l IH]; simpl; intros ys H.
  - injection H as <-. constructor.
  - apply bind_Ok in H. destruct H as [y [Hy H]].
    apply bind_Ok in H. destruct H as [ys' [Hys H]].
    injection H as <-. constructor; eauto.
Qed.

(** ** [format(n, "x")] *)

Lemma unhexdigit_hexdigit (d : N) : d < 16 -> unhexdigit (hexdigit d) = d.
Proof.
  intros H. unfold hexdigit, unhexdigit.
  destruct (d <? 10) eqn:E.
  - apply N.ltb_lt in E.
    replace (48 + d <? 58) with true by (symmetry; apply N.ltb_lt; lia). lia.
  - apply N.ltb_ge in E.
    replace (87 + d <? 58) with false by (symmetry; apply N.ltb_ge; lia). lia.
Qed.

Lemma hex_loop_S (fuel : nat) (n : N) (acc : pystr) :
  hex_loop (S fuel) n acc
  = if n / 16 =? 0 then hexdigit (n mod 16) :: acc
    else hex_loop fuel (n / 16) (hexdigit (n mod 16) :: acc).
Proof. reflexivity. Qed.

(** The fuel of [hex] is enough: the digits produced in front of [acc]
    are those of [n]. *)
Lemma hex_loop_value (fuel : nat) :
  forall n acc,
    n < 16 ^ N.of_nat fuel ->
    fold_left (fun a c => 16 * a + unhexdigit c) (hex_loop (S fuel) n acc) 0
    = fold_left (fun a c => 16 * a + unhexdigit c) acc n.
Proof.
  induction fuel as [|fuel IH]; intros n acc Hn.
  - simpl in Hn. assert (n = 0) by lia. subst n. reflexivity.
  - rewrite hex_loop_S.
    assert (Hd : n mod 16 < 16) by (apply N.mod_lt; discriminate).
    destruct (n / 16 =? 0) eqn:E.
    + apply N.eqb_eq in E. cbn [fold_left].
      rewrite (unhexdigit_hexdigit Hd).
      f_equal. pose proof (N.div_mod n 16) as Hdm. rewrite E in Hdm. lia.
    + rewrite IH.
      * cbn [fold_left]. rewrite (unhexdigit_hexdigit Hd).
        f_equal. symmetry. apply N.div_mod. discriminate.
      * apply N.Div0.div_lt_upper_bound.
        rewrite Nat2N.inj_succ, N.pow_succ_r' in Hn. exact Hn.
Qed.

Lemma size_nat_bound (n : N) : n < 16 ^ N.of_nat (N.size_nat n).
Proof.
  assert (H : n < 2 ^ N.of_nat (N.size_nat n)).
  { destruct n as [|p]; [reflexivity|]. simpl N.size_nat.
    induction p as [p IH|p IH|].
    - cbn [Pos.size_nat]. rewrite Nat2N.inj_succ, N.pow_succ_r'. lia.
    - cbn [Pos.size_nat]. rewrite Nat2N.inj_succ, N.pow_succ_r'. lia.
    - reflexivity. }
  eapply N.lt_le_trans; [exact H|].
  apply N.pow_le_mono_l. lia.
Qed.

(** [format(n, "x")] writes [n]. *)
Lemma unhex_hex (n : N) : unhex (hex n) = n.
Proof.
  unfold unhex, hex. rewrite hex_loop_value by apply size_nat_bound.
  reflexivity.
Qed.

Lemma hex_loop_length (fuel : nat) :
  forall n acc, (length acc <= length (hex_loop fuel n acc))%nat.
Proof.
  induction fuel as [|fuel IH]; intros n acc; simpl; [lia|].
  destruct (n / 16 =? 0); simpl; [lia|].
  specialize (IH (n / 16) (hexdigit (n mod 16) :: acc)). simpl in IH. lia.
Qed.

Lemma hex_nonempty (n : N) : (1 <= length (hex n))%nat.
Proof.
  unfold hex. simpl. destruct (n / 16 =? 0); simpl; [lia|].
  pose proof (hex_loop_length (N.size_nat n) (n / 16) [hexdigit (n mod 16)]) as H.
  simpl in H. exact H.
Qed.

Lemma format_x_of_nat (k : nat) : format_x (Z.of_nat k) = hex (N.of_nat k).
Proof.
  unfold format_x.
  replace (Z.of_nat k <? 0)%Z with false by (symmetry; apply Z.ltb_ge; lia).
  f_equal. rewrite <- nat_N_Z. apply Zabs2N.id.
Qed.

(** The source pads a count of one digit; the specification pads to
    width 2: the same, a count having at least one digit. *)
Lemma pad_one_digit (k : nat) :
  (if (length (format_x (Z.of_nat k)) =? 1)%nat
   then lit "0" ++ format_x (Z.of_nat k)
   else format_x (Z.of_nat k))
  = Spec.zero_pad2 (hex (N.of_nat k)).
Proof.
  rewrite format_x_of_nat. unfold Spec.zero_pad2.
  pose proof (hex_nonempty (N.of_nat k)) as H.
  destruct (length (hex (N.of_nat k))) as [|[|m]] eqn:E; simpl; try reflexivity.
  lia.
Qed.

(** ** The loop over the segments *)

Lemma append_segment_at (pre rest : list pystr) (seg r : pystr) :
  append_segment (pre ++ seg :: rest) r (length pre)
  = r ++ Spec.segment seg ++ match rest with [] => [] | _ => lit "g" end.
Proof.
  unfold append_segment. rewrite nth_middle, pad_one_digit.
  fold (Spec.segment seg). rewrite length_app. simpl length.
  destruct rest as [|seg' rest].
  - replace (_ <? _)%Z with false by (symmetry; apply Z.ltb_ge; simpl; lia).
    rewrite app_nil_r. reflexivity.
  - replace (_ <? _)%Z with true by (symmetry; apply Z.ltb_lt; simpl; lia).
    rewrite <- !app_assoc. reflexivity.
Qed.

Lemma segments_loop (post : list pystr) :
  forall (pre : list pystr) (r : pystr),
    fold_left (append_segment (pre ++ post))
              (seq (length pre) (length post)) r
    = r ++ Spec.segments post.
Proof.
  induction post as [|seg rest IH]; intros pre r.
  - simpl. rewrite app_nil_r. reflexivity.
  - simpl length. simpl seq. simpl fold_left.
    rewrite append_segment_at.
    specialize (IH (pre ++ [seg])).
    rewrite <- app_assoc, length_app in IH. simpl in IH.
    rewrite Nat.add_1_r in IH. rewrite IH.
    destruct rest as [|seg' rest'].
    + simpl. rewrite !app_nil_r. reflexivity.
    + change (Spec.segments (seg :: seg' :: rest'))
        with (Spec.segment seg ++ lit "g" ++ Spec.segments (seg' :: rest')).
      rewrite <- !app_assoc. reflexivity.
Qed.

Lemma segments_loop_all (segs : list pystr) (r : pystr) :
  fold_left (append_segment segs) (seq 0 (length segs)) r
  = r ++ Spec.segments segs.
Proof. exact (segments_loop segs [] r). Qed.

Lemma segment_narrow (seg : pystr) : narrow seg -> narrow (Spec.segment seg).
Proof.
  intros H. unfold Spec.segment, Spec.zero_pad2.
  repeat apply narrow_app; try assumption; try apply hex_narrow.
  apply Forall_forall. intros c Hc. apply repeat_spec in Hc. subst c. reflexivity.
Qed.

Lemma segments_narrow (segs : list pystr) :
  Forall narrow segs -> narrow (Spec.segments segs).
Proof.
  induction 1 as [|seg rest Hseg Hrest IH].
  - constructor.
  - destruct rest as [|seg' rest'].
    + simpl. apply segment_narrow, Hseg.
    + change (Spec.segments (seg :: seg' :: rest'))
        with (Spec.segment seg ++ lit "g" ++ Spec.segments (seg' :: rest')).
      apply narrow_app; [apply segment_narrow, Hseg|].
      apply narrow_app; [apply narrow_lit | exact IH].
Qed.

(** ** [transform_id] yields narrow strings *)

Lemma ord_loop_narrow (book_id : pystr) (idx : list nat) :
  forall acc, narrow acc ->
    narrow (fold_left
              (fun result i => result ++ format_x (Z.of_N (nth i book_id 0)))
              idx acc).
Proof.
  induction idx as [|i idx IH]; intros acc Hacc; simpl; [exact Hacc|].
  apply IH, narrow_app; [exact Hacc | apply format_x_narrow].
Qed.

Lemma transform_id_narrow (book_id code : pystr) (segs : list pystr) :
  transform_id book_id = Ok (code, segs) ->
  narrow code /\ Forall narrow segs.
Proof.
  unfold transform_id. destruct (re_match_digits book_id).
  - intros H. apply bind_Ok in H. destruct H as [ary [Hary H]].
    injection H as <- <-. split; [apply narrow_lit|].
    eapply mapM_Forall; [|exact Hary].
    intros i y Hy. cbv beta in Hy. apply bind_Ok in Hy.
    destruct Hy as [n [_ Hy]]. injection Hy as <-. apply format_x_narrow.
  - intros H. injection H as <- <-. split; [apply narrow_lit|].
    constructor; [|constructor]. apply ord_loop_narrow. constructor.
Qed.

(** ** The identifier is the one the specification builds *)

Lemma suffix_last_chars (k : nat) (s : pystr) :
  suffix s k = Spec.last_chars k s.
Proof.
  unfold suffix, Spec.last_chars. rewrite firstn_rev, rev_involutive.
  reflexivity.
Qed.

Lemma calculate_book_str_id_bind (book_id : pystr) :
  calculate_book_str_id book_id =
    (digest <- md5_hex_of_str book_id ;;
     '(code, segs) <- transform_id book_id ;;
     Ok (Spec.book_str_id digest code segs)).
Proof.
  unfold calculate_book_str_id.
  destruct (md5_hex_of_str book_id) as [digest|e] eqn:Hd; cbn [bind];
    [|reflexivity].
  destruct (transform_id book_id) as [[code segs]|e] eqn:Ht; cbn [bind];
    [|reflexivity].
  cbv beta zeta.
  apply md5_hex_of_str_Ok_narrow in Hd.
  apply transform_id_narrow in Ht. destruct Ht as [Hcode Hsegs].
  rewrite segments_loop_all, suffix_last_chars.
  unfold slice. cbn [skipn]. rewrite !Nat.sub_0_r.
  assert (Hbody : (firstn 3 digest ++ code ++ lit "2" ++ Spec.last_chars 2 digest)
                    ++ Spec.segments segs
                  = Spec.head_and_segments digest code segs).
  { unfold Spec.head_and_segments. rewrite <- !app_assoc. reflexivity. }
  rewrite Hbody.
  assert (Hn : narrow (Spec.padded digest (Spec.head_and_segments digest code segs))).
  { assert (Hh : narrow (Spec.head_and_segments digest code segs)).
    { unfold Spec.head_and_segments, Spec.last_chars.
      repeat apply narrow_app;
        auto using narrow_firstn, narrow_lit, segments_narrow.
      rewrite firstn_rev, rev_involutive. apply narrow_skipn, Hd. }
    unfold Spec.padded.
    destruct (length _ <? 20)%nat; [apply narrow_app|]; auto using narrow_firstn. }
  change (bind (md5_hex_of_str
                  (Spec.padded digest (Spec.head_and_segments digest code segs)))
               (fun digest2 =>
                  Ok (Spec.padded digest (Spec.head_and_segments digest code segs)
                        ++ firstn 3 digest2))
          = Ok (Spec.book_str_id digest code segs)).
  rewrite (md5_hex_of_str_narrow Hn). reflexivity.
Qed.



(** ** [transform_id] and the specification *)

Lemma ascii_digit_cases (c : N) :
  is_ascii_digit c = true ->
  c = 48 \/ c = 49 \/ c = 50 \/ c = 51 \/ c = 52
  \/ c = 53 \/ c = 54 \/ c = 55 \/ c = 56 \/ c = 57.
Proof.
  unfold is_ascii_digit. intros H. apply andb_true_iff in H.
  destruct H as [H1 H2]. apply N.leb_le in H1, H2. lia.
Qed.

Ltac each_ascii_digit c H :=
  apply ascii_digit_cases in H; decompose [or] H; clear H; subst c.

Lemma decimal_value_ascii (c : N) :
  is_ascii_digit c = true -> decimal_value c = Some (c - 48).
Proof. intros H. each_ascii_digit c H; reflexivity. Qed.

Lemma int_space_ascii_digit (c : N) :
  is_ascii_digit c = true -> int_space c = false.
Proof. intros H. each_ascii_digit c H; reflexivity. Qed.

Lemma is_digit_ascii (c : N) : is_ascii_digit c = true -> is_digit c = true.
Proof.
  intros H. unfold is_digit. rewrite (decimal_value_ascii c H). reflexivity.
Qed.

Lemma drop_digits_numeric (s : pystr) :
  Spec.numeric s = true -> drop_digits s = [].
Proof.
  unfold Spec.numeric. induction s as [|c s IH]; simpl; [reflexivity|].
  intros H. apply andb_true_iff in H. destruct H as [Hc Hs].
  rewrite (is_digit_ascii c Hc). apply IH, Hs.
Qed.

(** The pattern accepts every string of ASCII digits. *)
Lemma re_match_digits_numeric (s : pystr) :
  Spec.numeric s = true -> re_match_digits s = true.
Proof.
  intros H. unfold re_match_digits. rewrite (drop_digits_numeric s H).
  reflexivity.
Qed.

Lemma lstrip_numeric (s : pystr) : Spec.numeric s = true -> lstrip s = s.
Proof.
  destruct s as [|c s]; [reflexivity|]. unfold Spec.numeric. simpl.
  intros H. apply andb_true_iff in H. destruct H as [Hc _].
  rewrite (int_space_ascii_digit c Hc). reflexivity.
Qed.

Lemma numeric_rev (s : pystr) :
  Spec.numeric s = true -> Spec.numeric (rev s) = true.
Proof.
  unfold Spec.numeric. rewrite !forallb_forall. intros H c Hc.
  apply H. apply in_rev. exact Hc.
Qed.

Lemma strip_numeric (s : pystr) : Spec.numeric s = true -> strip s = s.
Proof.
  intros H. unfold strip. rewrite (lstrip_numeric s H).
  rewrite (lstrip_numeric (rev s) (numeric_rev s H)). apply rev_involutive.
Qed.

Lemma digits_value_numeric (s : pystr) :
  forall (after_digit : bool) (acc : Z) (count : nat),
    Spec.numeric s = true ->
    s <> [] \/ after_digit = true ->
    digits_value s after_digit acc count
    = Some (fold_left (fun a c => (10 * a + Z.of_N (c - 48))%Z) s acc,
            (count + length s)%nat).
Proof.
  unfold Spec.numeric.
  induction s as [|c s IH]; intros b acc count Hs Hne.
  - destruct Hne as [Hne| ->]; [contradiction|]. simpl.
    rewrite Nat.add_0_r. reflexivity.
  - simpl in Hs. apply andb_true_iff in Hs. destruct Hs as [Hc Hs].
    cbn [digits_value]. rewrite (decimal_value_ascii c Hc).
    rewrite IH by auto. cbn [fold_left length]. do 2 f_equal. lia.
Qed.

Lemma base10_Z (s : pystr) :
  forall acc : N,
    fold_left (fun a c => (10 * a + Z.of_N (c - 48))%Z) s (Z.of_N acc)
    = Z.of_N (fold_left (fun a c => 10 * a + (c - 48)) s acc).
Proof.
  induction s as [|c s IH]; intros acc; cbn [fold_left]; [reflexivity|].
  rewrite <- IH. f_equal. lia.
Qed.

(** [int] reads a string of ASCII digits in base 10. *)
Lemma py_int_numeric (s : pystr) :
  Spec.numeric s = true -> s <> [] ->
  (length s <= int_max_str_digits)%nat ->
  py_int s = Ok (Z.of_N (Spec.base10 s)).
Proof.
  intros Hs Hne Hlen. unfold py_int. rewrite (strip_numeric s Hs).
  assert (Hsign : (let '(sign, ds) :=
                     match s with
                     | 43 :: ds => (1%Z, ds)
                     | 45 :: ds => ((-1)%Z, ds)
                     | _ => (1%Z, s)
                     end in
                   match digits_value ds false 0 0 with
                   | Some (v, count) =>
                       if (int_max_str_digits <? count)%nat
                       then Raise ValueError
                       else Ok (sign * v)%Z
                   | None => Raise ValueError
                   end)
                  = match digits_value s false 0 0 with
                    | Some (v, count) =>
                        if (int_max_str_digits <? count)%nat
                        then Raise ValueError
                        else Ok (1 * v)%Z
                    | None => Raise ValueError
                    end).
  { destruct s as [|c ds]; [reflexivity|].
    unfold Spec.numeric in Hs. simpl in Hs. apply andb_true_iff in Hs.
    destruct Hs as [Hc _]. each_ascii_digit c Hc; reflexivity. }
  rewrite Hsign.
  rewrite (@digits_value_numeric s false 0 0 Hs (or_introl Hne)).
  replace (int_max_str_digits <? 0 + length s)%nat with false
    by (symmetry; apply Nat.ltb_ge; simpl; exact Hlen).
  change 0%Z with (Z.of_N 0). rewrite base10_Z. unfold Spec.base10.
  f_equal. lia.
Qed.

Lemma format_x_of_N (n : N) : format_x (Z.of_N n) = hex n.
Proof.
  unfold format_x.
  replace (Z.of_N n <? 0)%Z with false by (symmetry; apply Z.ltb_ge; lia).
  f_equal. apply Zabs2N.id.
Qed.

Lemma numeric_firstn (k : nat) (s : pystr) :
  Spec.numeric s = true -> Spec.numeric (firstn k s) = true.
Proof.
  unfold Spec.numeric. rewrite !forallb_forall. intros H c Hc.
  apply H. rewrite <- (firstn_skipn k s). apply in_or_app. left. exact Hc.
Qed.

Lemma numeric_skipn (k : nat) (s : pystr) :
  Spec.numeric s = true -> Spec.numeric (skipn k s) = true.
Proof.
  unfold Spec.numeric. rewrite !forallb_forall. intros H c Hc.
  apply H. rewrite <- (firstn_skipn k s). apply in_or_app. right. exact Hc.
Qed.

(** The slice the loop takes at index [i] is the chunk of 9 characters
    that starts there. *)
Lemma slice_chunk (s : pystr) (i : nat) :
  slice s i (Nat.min (i + 9) (length s)) = firstn 9 (skipn i s).
Proof.
  unfold slice.
  destruct (Nat.le_gt_cases (i + 9) (length s)) as [H|H].
  - rewrite Nat.min_l by exact H. f_equal. lia.
  - rewrite Nat.min_r by lia.
    rewrite !firstn_all2; [reflexivity | |]; rewrite length_skipn; lia.
Qed.

Lemma range_loop_chunks (s : pystr) (fuel : nat) :
  Spec.numeric s = true ->
  forall i,
    mapM (fun i =>
            n <- py_int (slice s i (Nat.min (i + 9) (length s))) ;;
            Ok (format_x n))
         (range_loop fuel i (length s) 9)
    = Ok (map (fun chunk => hex (Spec.base10 chunk))
              (Spec.chunks_loop fuel 9 (skipn i s))).
Proof.
  intros Hs. induction fuel as [|fuel IH]; intros i; [reflexivity|].
  cbn [range_loop Spec.chunks_loop].
  destruct (i <? length s)%nat eqn:E.
  - apply Nat.ltb_lt in E.
    destruct (skipn i s) as [|c rest] eqn:Hskip.
    { apply (f_equal (@length N)) in Hskip. rewrite length_skipn in Hskip.
      simpl in Hskip. lia. }
    rewrite <- Hskip. cbn [mapM]. rewrite slice_chunk.
    rewrite py_int_numeric.
    + cbn [bind]. rewrite format_x_of_N, IH. cbn [bind map].
      rewrite skipn_skipn, (Nat.add_comm 9 i). reflexivity.
    + apply numeric_firstn, numeric_skipn, Hs.
    + rewrite Hskip. discriminate.
    + rewrite length_firstn. unfold int_max_str_digits. lia.
  - apply Nat.ltb_ge in E. rewrite skipn_all2 by exact E. reflexivity.
Qed.

Lemma ord_loop_flat_map (post : pystr) :
  forall (pre acc : pystr),
    fold_left
      (fun result i => result ++ format_x (Z.of_N (nth i (pre ++ post) 0)))
      (seq (length pre) (length post)) acc
    = acc ++ flat_map hex post.
Proof.
  induction post as [|c post IH]; intros pre acc.
  - simpl. rewrite app_nil_r. reflexivity.
  - cbn [length seq fold_left flat_map]. rewrite nth_middle, format_x_of_N.
    specialize (IH (pre ++ [c]) (acc ++ hex c)).
    rewrite <- app_assoc, length_app in IH. simpl in IH.
    rewrite Nat.add_1_r in IH. rewrite IH, <- app_assoc. reflexivity.
Qed.

(** On an identifier of ASCII decimal digits [transform_id] returns what
    the specification says: mode ["3"] and the chunks of 9 digits in
    hexadecimal. *)
Lemma transform_id_numeric (book_id : pystr) :
  Spec.numeric book_id = true ->
  transform_id book_id = Ok (Spec.transform_id book_id).
Proof.
  intros H. unfold transform_id, Spec.transform_id.
  rewrite (re_match_digits_numeric book_id H), H.
  unfold py_range. rewrite (range_loop_chunks book_id (length book_id) H 0).
  reflexivity.
Qed.

(** On an identifier the pattern refuses [transform_id] returns what the
    specification says: mode ["4"] and the code points in hexadecimal. *)
Lemma transform_id_generic (book_id : pystr) :
  re_match_digits book_id = false ->
  transform_id book_id = Ok (Spec.transform_id book_id).
Proof.
  intros H. unfold transform_id, Spec.transform_id. rewrite H.
  destruct (Spec.numeric book_id) eqn:E.
  - rewrite (re_match_digits_numeric book_id E) in H. discriminate.
  - pose proof (ord_loop_flat_map book_id [] []) as Hloop.
    simpl in Hloop. rewrite Hloop. reflexivity.
Qed.

(** The two disagree only on the identifiers that the pattern accepts
    without their being made of ASCII digits. *)
Lemma transform_id_departs_only_when_misclassified (book_id : pystr) :
  transform_id book_id <> Ok (Spec.transform_id book_id) ->
  re_match_digits book_id = true /\ Spec.numeric book_id = false.
Proof.
  intros H. destruct (re_match_digits book_id) eqn:Em.
  - destruct (Spec.numeric book_id) eqn:En; [|auto].
    exfalso. apply H, transform_id_numeric, En.
  - exfalso. apply H, transform_id_generic, Em.
Qed.

(** Outside the identifiers that cannot be encoded or that the pattern
    misclassifies, the function returns. *)
Lemma calculate_book_str_id_returns (book_id : pystr) :
  existsb is_surrogate book_id = false ->
  Spec.numeric book_id = true \/ re_match_digits book_id = false ->
  calculate_book_str_id book_id
  = Ok (Spec.book_str_id (MD5.hexdigest (utf8_bytes book_id))
                         (fst (Spec.transform_id book_id))
                         (snd (Spec.transform_id book_id))).
Proof.
  intros Hs Hc. rewrite calculate_book_str_id_bind.
  unfold md5_hex_of_str, encode_utf8. rewrite Hs. cbn [bind].
  assert (Ht : transform_id book_id = Ok (Spec.transform_id book_id)).
  { destruct Hc as [Hc|Hc];
      [apply transform_id_numeric | apply transform_id_generic]; exact Hc. }
  rewrite Ht. destruct (Spec.transform_id book_id). reflexivity.
Qed.

(** ** Where the classification of [transform_id] departs from the
    specification *)

(** C2.  The identifier made of the digit 1 and a line feed does not
    consist of decimal digits, yet [transform_id] puts it in the numeric
    mode: [$] matches before a final line feed.  The specification gives
    mode ["4"] and the single segment ["31a"]. *)
Theorem transform_id_trailing_newline :
  transform_id [49; 10] = Ok (lit "3", [lit "1"])
  /\ Spec.numeric [49; 10] = false
  /\ Spec.transform_id [49; 10] = (lit "4", [lit "31a"]).
Proof. repeat split; vm_compute; reflexivity. Qed.

(** The same holds for decimal digits outside ASCII, which [\d] matches:
    ARABIC-INDIC DIGIT ONE and TWO are read as the number 12. *)
Example transform_id_arabic_indic :
  transform_id [0x661; 0x662] = Ok (lit "3", [lit "c"])
  /\ Spec.transform_id [0x661; 0x662] = (lit "4", [lit "661662"]).
Proof. split; vm_compute; reflexivity. Qed.

(** C7.  On the identifier that is a single line feed the numeric mode is
    chosen and [int] refuses the chunk: [calculate_book_str_id] raises
    [ValueError] and produces no output. *)
Theorem calculate_book_str_id_newline_raises :
  transform_id [10] = Raise ValueError
  /\ calculate_book_str_id [10] = Raise ValueError.
Proof. split; vm_compute; reflexivity. Qed.

(** A lone surrogate is a character of a [str]; encoding it fails before
    anything else is computed. *)
Example calculate_book_str_id_surrogate_raises :
  calculate_book_str_id [0xD800] = Raise UnicodeEncodeError.
Proof. vm_compute. reflexivity. Qed.

(** The identifiers of the specification's example and of the empty
    string. *)
Example calculate_book_str_id_12_digits :
  transform_id (lit "123456789012") = Ok (lit "3", [lit "75bcd15"; lit "c"])
  /\ calculate_book_str_id (lit "123456789012")
     = Ok (lit "341326f0775bcd15g01c007").
Proof. split; vm_compute; reflexivity. Qed.

Example calculate_book_str_id_empty :
  calculate_book_str_id [] = Ok (lit "d41327ed41d8cd98f00b86b").
Proof. vm_compute. reflexivity. Qed.

Example md5_abc :
  MD5.hexdigest (utf8_bytes (lit "abc")) = lit "900150983cd24fb0d6963f7d28e17f72".
Proof. vm_compute. reflexivity. Qed.


(** ** Book details *)

Lemma py_get_object (d : list (pystr * json)) (k : pystr) (default : json) :
  py_get (JObj d) k default = Ok (field (JObj d) k default).
Proof. reflexivity. Qed.

(** C9 (as amended).  On every non-success response [get_bookinfo]
    returns [("", 0)]; on a success response whose body is an object
    with [newRating] absent or an integer within the range of a float it
    returns the [isbn] field (default [""]) with [newRating] (default 0)
    divided by 1000, so that 4500 yields 4.5. *)
Theorem get_bookinfo_amended :
  (forall r, ok r = false -> get_bookinfo r = Ok (JStr [], NInt 0))
  /\ (forall r d z,
         ok r = true ->
         json_of r = Ok (JObj d) ->
         as_int (field (JObj d) (lit "newRating") (JInt 0)) = Some z ->
         quotient_overflows z 1000 = false ->
         get_bookinfo r
         = Ok (field (JObj d) (lit "isbn") (JStr []), NFloat (z # 1000)))
  /\ (forall r d,
         ok r = true ->
         json_of r = Ok (JObj d) ->
         dict_get d (lit "newRating") = Some (JInt 4500) ->
         exists q,
           get_bookinfo r = Ok (field (JObj d) (lit "isbn") (JStr []), NFloat q)
           /\ (q == 45 # 10)%Q).
Proof.
  assert (Hdiv : forall r d z,
             ok r = true ->
             json_of r = Ok (JObj d) ->
             as_int (field (JObj d) (lit "newRating") (JInt 0)) = Some z ->
             quotient_overflows z 1000 = false ->
             get_bookinfo r
             = Ok (field (JObj d) (lit "isbn") (JStr []), NFloat (z # 1000))).
  { intros r d z Hok Hj Hz Hq. unfold get_bookinfo.
    rewrite Hok, Hj. cbn [bind]. rewrite !py_get_object. cbn [bind].
    unfold truediv_1000. rewrite Hz, Hq. reflexivity. }
  split; [|split].
  - intros r H. unfold get_bookinfo. rewrite H. reflexivity.
  - exact Hdiv.
  - intros r d Hok Hj Hr. exists (4500 # 1000)%Q. split; [|reflexivity].
    apply Hdiv; try assumption; [|reflexivity].
    unfold field. rewrite Hr. reflexivity.
Qed.

Lemma get_bookinfo_amended_witness :
  get_bookinfo (failure (Raise JSONDecodeError) (lit "Forbidden"))
    = Ok (JStr [], NInt 0)
  /\ get_bookinfo rating_4500
     = Ok (JStr (lit "9787111213826"), NFloat (4500 # 1000)).
Proof.
  split.
  - apply (proj1 get_bookinfo_amended). reflexivity.
  - apply (proj1 (proj2 get_bookinfo_amended) rating_4500
             [(lit "isbn", JStr (lit "9787111213826"));
              (lit "newRating", JInt 4500)] 4500%Z);
      reflexivity.
Defined.

(** C9 as stated fails: a success response whose [newRating] is [null]
    makes the division raise [TypeError]. *)
Lemma get_bookinfo_null_rating_raises :
  ok rating_null = true /\ get_bookinfo rating_null = Raise TypeError.
Proof. split; reflexivity. Qed.

(** ** Dictionaries *)

Lemma pystr_eqb_eq (s t : pystr) : pystr_eqb s t = true <-> s = t.
Proof.
  unfold pystr_eqb. destruct (list_eq_dec N.eq_dec s t); split;
    congruence.
Qed.

Lemma pystr_eqb_refl (s : pystr) : pystr_eqb s s = true.
Proof. apply pystr_eqb_eq. reflexivity. Qed.

Lemma pystr_eqb_neq (s t : pystr) : s <> t -> pystr_eqb s t = false.
Proof.
  intros H. destruct (pystr_eqb s t) eqn:E; [|reflexivity].
  apply pystr_eqb_eq in E. contradiction.
Qed.

Lemma dict_get_set_same {V : Type} (d : list (pystr * V)) (k : pystr) (v : V) :
  dict_get (dict_set d k v) k = Some v.
Proof.
  induction d as [|[k' v'] d IH]; simpl.
  - rewrite pystr_eqb_refl. reflexivity.
  - destruct (pystr_eqb k' k) eqn:E; simpl; rewrite E; [reflexivity | exact IH].
Qed.

Lemma dict_get_set_other {V : Type} (d : list (pystr * V)) (k k' : pystr) (v : V) :
  k <> k' -> dict_get (dict_set d k v) k' = dict_get d k'.
Proof.
  intros Hk. induction d as [|[k0 v0] d IH]; simpl.
  - rewrite (pystr_eqb_neq Hk). reflexivity.
  - destruct (pystr_eqb k0 k) eqn:E; simpl.
    + apply pystr_eqb_eq in E. subst k0. rewrite (pystr_eqb_neq Hk).
      reflexivity.
    + destruct (pystr_eqb k0 k'); [reflexivity | exact IH].
Qed.

(** ** Loops whose body does not raise *)

Lemma filterM_pure {A : Type} (f : A -> result bool) (g : A -> bool)
    (l : list A) :
  (forall x, In x l -> f x = Ok (g x)) -> filterM f l = Ok (filter g l).
Proof.
  induction l as [|x l IH]; intros H; simpl; [reflexivity|].
  rewrite (H x (or_introl eq_refl)). cbn [bind].
  rewrite IH by (intros y Hy; apply H; right; exact Hy).
  cbn [bind]. reflexivity.
Qed.

Lemma mapM_pure {A B : Type} (f : A -> result B) (g : A -> B) (l : list A) :
  (forall x, In x l -> f x = Ok (g x)) -> mapM f l = Ok (map g l).
Proof.
  induction l as [|x l IH]; intros H; simpl; [reflexivity|].
  rewrite (H x (or_introl eq_refl)). cbn [bind].
  rewrite IH by (intros y Hy; apply H; right; exact Hy).
  reflexivity.
Qed.

(** The first item on which the body raises stops the loop. *)
Lemma mapM_raises {A B : Type} (f : A -> result B) (e : exn) (l : list A) :
  Forall (fun x => is_ok (f x) = true \/ f x = Raise e) l ->
  Exists (fun x => f x = Raise e) l ->
  mapM f l = Raise e.
Proof.
  induction 1 as [|x l Hx _ IH]; intros Hex.
  - inversion Hex.
  - simpl. destruct (f x) as [y|e'] eqn:E; cbn [bind].
    + assert (Hl : Exists (fun x => f x = Raise e) l).
      { inversion Hex; subst; [congruence | assumption]. }
      rewrite (IH Hl). reflexivity.
    + destruct Hx as [Hx|Hx]; [discriminate | congruence].
Qed.

(** ** Reviews *)

Lemma review_type_is_entry (n : Z) (x : json) :
  review_entry_ok x = true -> review_type_is n x = Ok (entry_type_is n x).
Proof.
  destruct x as [| | | | |d]; try discriminate. unfold review_entry_ok.
  unfold review_type_is, entry_type_is, py_get, field.
  destruct (dict_get d (lit "review")) as [[| | | | |r]|]; try discriminate;
    intros _; reflexivity.
Qed.

Lemma review_of_entry (x : json) :
  review_entry_ok x = true ->
  py_get x (lit "review") JNull = Ok (field x (lit "review") JNull).
Proof. destruct x; try discriminate. reflexivity. Qed.

Lemma rename_of_normal_entry (x : json) :
  review_entry_ok x = true -> entry_type_is 1 x = true ->
  (y <- rename_content (field x (lit "review") JNull) ;; Ok (fst y))
  = Ok (renamed x).
Proof.
  destruct x as [| | | | |d]; try discriminate.
  unfold review_entry_ok, entry_type_is, renamed, field.
  destruct (dict_get d (lit "review")) as [[| | | | |r]|]; try discriminate.
  intros Hc Ht. rewrite Ht in Hc. unfold rename_content, dict_pop.
  unfold has_key in Hc.
  destruct (dict_get r (lit "content")) as [c|]; [|discriminate].
  reflexivity.
Qed.

Lemma mapM_map {A B C : Type} (h : A -> B) (g : B -> result C) (l : list A) :
  mapM g (map h l) = mapM (fun x => g (h x)) l.
Proof.
  induction l as [|x l IH]; simpl; [reflexivity|]. rewrite IH. reflexivity.
Qed.

(** C6 (as amended).  Whenever the HTTP status is non-success
    [get_review_list] returns both sequences empty, without reading the
    body; on a success response whose body is an object with [reviews]
    absent or a list of well-shaped entries (each an object whose
    [review], when present, is an object that has a [content] when its
    type is 1) it returns a pair of sequences: the entries of type 4, and
    the reviews of the entries of type 1 with [markText] added. *)
Theorem get_review_list_amended :
  (forall r, ok r = false -> get_review_list r = Ok ([], []))
  /\ (forall r d l,
         ok r = true ->
         json_of r = Ok (JObj d) ->
         field (JObj d) (lit "reviews") (JArr []) = JArr l ->
         forallb review_entry_ok l = true ->
         get_review_list r
         = Ok (filter (entry_type_is 4) l,
               map renamed (filter (entry_type_is 1) l))).
Proof.
  split.
  - intros r H. unfold get_review_list. rewrite H. reflexivity.
  - intros r d l Hok Hj Hl Hwf. unfold get_review_list.
    rewrite Hok, Hj. cbn [negb bind]. rewrite py_get_object, Hl.
    cbn [bind py_iter].
    rewrite forallb_forall in Hwf.
    rewrite (filterM_pure (review_type_is 4) (entry_type_is 4))
      by (intros x Hx; apply review_type_is_entry, Hwf, Hx).
    cbn [bind].
    rewrite (filterM_pure (review_type_is 1) (entry_type_is 1))
      by (intros x Hx; apply review_type_is_entry, Hwf, Hx).
    cbn [bind].
    assert (Hin : forall x, In x (filter (entry_type_is 1) l) ->
                        review_entry_ok x = true /\ entry_type_is 1 x = true).
    { intros x Hx. apply filter_In in Hx. destruct Hx as [Hx Ht].
      split; [apply Hwf, Hx | exact Ht]. }
    rewrite (mapM_pure _ (fun x => field x (lit "review") JNull))
      by (intros x Hx; apply review_of_entry, Hin, Hx).
    cbn [bind]. rewrite mapM_map.
    rewrite (mapM_pure _ renamed)
      by (intros x Hx; apply rename_of_normal_entry; apply Hin, Hx).
    reflexivity.
Qed.

Lemma get_review_list_amended_witness :
  get_review_list (failure (Ok JNull) []) = Ok ([], [])
  /\ forallb review_entry_ok
       [JObj [(lit "review",
               JObj [(lit "type", JInt 1);
                     (lit "content", JStr (lit "a"))])]] = true
  /\ get_review_list one_normal_review
     = Ok (filter (entry_type_is 4)
             [JObj [(lit "review",
                     JObj [(lit "type", JInt 1);
                           (lit "content", JStr (lit "a"))])]],
           map renamed
             (filter (entry_type_is 1)
                [JObj [(lit "review",
                        JObj [(lit "type", JInt 1);
                              (lit "content", JStr (lit "a"))])]])).
Proof.
  split; [|split].
  - apply (proj1 get_review_list_amended). reflexivity.
  - reflexivity.
  - apply (proj2 get_review_list_amended one_normal_review
             [(lit "reviews",
               JArr [JObj [(lit "review",
                            JObj [(lit "type", JInt 1);
                                  (lit "content", JStr (lit "a"))])]])]);
      reflexivity.
Defined.

(** C6 as stated fails: a success response with a review of type 1 that
    has no [content] makes [x.pop("content")] raise [KeyError]. *)
Lemma get_review_list_missing_content_raises :
  ok review_without_content = true
  /\ get_review_list review_without_content = Raise KeyError.
Proof. split; reflexivity. Qed.

(** C3.  The record returned for a normal review still has its [content]
    field beside the new [markText]: the dictionary display copies the
    review before [pop] removes the field from the review itself. *)
Theorem get_review_list_keeps_content :
  get_review_list one_normal_review
  = Ok ([], [JObj [(lit "type", JInt 1);
                   (lit "content", JStr (lit "a"));
                   (lit "markText", JStr (lit "a"))]])
  /\ rename_content (JObj [(lit "type", JInt 1);
                           (lit "content", JStr (lit "a"))])
     = Ok (JObj [(lit "type", JInt 1);
                 (lit "content", JStr (lit "a"));
                 (lit "markText", JStr (lit "a"))],
           JObj [(lit "type", JInt 1)]).
Proof. split; reflexivity. Qed.

(** The same on every well-shaped review list: each record of the normal
    list carries [markText] and [content], with one value. *)
Lemma renamed_has_both (x : json) :
  review_entry_ok x = true -> entry_type_is 1 x = true ->
  has_field (renamed x) (lit "content") = true
  /\ has_field (renamed x) (lit "markText") = true
  /\ field (renamed x) (lit "markText") JNull
     = field (renamed x) (lit "content") JNull.
Proof.
  destruct x as [| | | | |d]; try discriminate.
  unfold review_entry_ok, entry_type_is, renamed, field.
  destruct (dict_get d (lit "review")) as [[| | | | |r]|]; try discriminate.
  intros Hc Ht. rewrite Ht in Hc. unfold has_key in Hc.
  unfold has_field, has_key.
  rewrite dict_get_set_same.
  rewrite dict_get_set_other by (intros H; vm_compute in H; discriminate).
  destruct (dict_get r (lit "content")) as [c|]; [|discriminate].
  auto.
Qed.

(** The two sequences are taken from disjoint parts of the list. *)
Lemma entry_types_disjoint (x : json) :
  entry_type_is 4 x = true -> entry_type_is 1 x = true -> False.
Proof.
  unfold entry_type_is.
  destruct (field (field x (lit "review") (JObj [])) (lit "type") JNull)
    as [|[|]|z| | |]; simpl; try discriminate.
  intros H4 H1. apply Z.eqb_eq in H4, H1. congruence.
Qed.

(** ** The library list *)

(** C10.  [get_notebooklist] returns the unavailable result only for a
    non-success status, and for that status always; on a success
    response whose [books] is a list of objects one of which has no
    [sort] key it raises [KeyError], the key function reading [sort] of
    every record before anything is compared; such a response exists. *)
Theorem get_notebooklist_missing_sort_raises :
  (forall r, get_notebooklist r = Ok None <-> ok r = false)
  /\ (forall r d l,
         ok r = true ->
         json_of r = Ok (JObj d) ->
         field (JObj d) (lit "books") (JArr []) = JArr l ->
         forallb is_object l = true ->
         existsb (fun x => negb (has_field x (lit "sort"))) l = true ->
         get_notebooklist r = Raise KeyError)
  /\ (ok book_without_sort = true
      /\ get_notebooklist book_without_sort = Raise KeyError).
Proof.
  split; [|split].
  - intros r. unfold get_notebooklist. destruct (ok r); split;
      try reflexivity; try discriminate.
    destruct (json_of r) as [data|e]; cbn [bind]; [|discriminate].
    destruct (py_get data (lit "books") (JArr [])) as [books|e];
      cbn [bind]; [|discriminate].
    destruct books; try discriminate.
    destruct (sorted_by _ _ _); cbn [bind]; discriminate.
  - intros r d l Hok Hj Hl Hobj Hex. unfold get_notebooklist.
    rewrite Hok, Hj. cbn [bind]. rewrite py_get_object, Hl. cbn [bind].
    unfold sorted_by.
    rewrite (@mapM_raises _ _ (fun x => py_getitem x (lit "sort")) KeyError l).
    + reflexivity.
    + apply Forall_forall. intros x Hx.
      rewrite forallb_forall in Hobj. specialize (Hobj x Hx).
      destruct x as [| | | | |dx]; try discriminate. simpl.
      destruct (dict_get dx (lit "sort")); auto.
    + apply Exists_exists. apply existsb_exists in Hex.
      destruct Hex as [x [Hx Hs]]. exists x. split; [exact Hx|].
      rewrite forallb_forall in Hobj. specialize (Hobj x Hx).
      destruct x as [| | | | |dx]; try discriminate.
      unfold has_field, has_key in Hs. simpl.
      destruct (dict_get dx (lit "sort")); [discriminate | reflexivity].
  - split; reflexivity.
Qed.

Lemma get_notebooklist_missing_sort_raises_witness :
  forallb is_object [JObj [(lit "bookId", JStr (lit "695233"))]] = true
  /\ get_notebooklist book_without_sort = Raise KeyError
  /\ get_notebooklist (failure (Ok JNull) (lit "Unauthorized")) = Ok None.
Proof.
  split; [reflexivity|]. split.
  - apply (proj1 (proj2 get_notebooklist_missing_sort_raises)
             book_without_sort
             [(lit "books", JArr [JObj [(lit "bookId", JStr (lit "695233"))]])]
             [JObj [(lit "bookId", JStr (lit "695233"))]]);
      reflexivity.
  - apply (proj1 get_notebooklist_missing_sort_raises). reflexivity.
Defined.

(** ** Stable sorting on keys that [<] orders *)

Section SortingFacts.

Variables (K A : Type) (lt : K -> K -> result bool).
Variables (ltb : K -> K -> bool) (good : K -> Prop).

Hypothesis lt_good : forall a b, good a -> good b -> lt a b = Ok (ltb a b).
Hypothesis ltb_asym : forall a b, ltb a b = true -> ltb b a = false.

Local Abbreviation key_le := (@key_le K A ltb).
Local Abbreviation good_item := (@good_item K A good).

Lemma insert_keyed_sorted (x : K * A) (l : list (K * A)) :
  good_item x -> Forall good_item l ->
  exists r,
    insert_keyed lt x l = Ok r
    /\ Permutation (x :: l) r
    /\ (Sorted key_le l -> Sorted key_le r)
    /\ (forall a, key_le a x -> HdRel key_le a l -> HdRel key_le a r).
Proof.
  intros Hx. induction 1 as [|y l Hy Hl IH].
  - exists [x]. repeat split; auto.
  - simpl. rewrite (lt_good Hy Hx). cbn [bind].
    destruct (ltb (fst y) (fst x)) eqn:E.
    + destruct IH as [r [Hr [Hp [Hs Hh]]]]. rewrite Hr. cbn [bind].
      exists (y :: r). repeat split.
      * rewrite perm_swap. apply perm_skip, Hp.
      * intros Hsorted. inversion Hsorted; subst.
        constructor; [auto|]. apply Hh; [|assumption].
        unfold key_le. apply ltb_asym, E.
      * intros a _ Ha. inversion Ha; subst. constructor. assumption.
    + exists (x :: y :: l). repeat split; auto.
  Qed.

Lemma sort_keyed_sorted (l : list (K * A)) :
  Forall good_item l ->
  exists r,
    sort_keyed lt l = Ok r /\ Permutation l r /\ Sorted key_le r.
Proof.
  induction 1 as [|x l Hx Hl IH].
  - exists []. repeat split; auto.
  - destruct IH as [s [Hs [Hp Hsorted]]]. simpl. rewrite Hs. cbn [bind].
    assert (Hgs : Forall good_item s).
    { apply Forall_forall. intros p Hin.
      apply (proj1 (Forall_forall _ _) Hl).
      apply Permutation_in with (l := s); [symmetry; exact Hp | exact Hin]. }
    destruct (insert_keyed_sorted Hx Hgs) as [r [Hr [Hpr [Hsr _]]]].
    exists r. repeat split; auto.
    transitivity (x :: s); [apply perm_skip, Hp | exact Hpr].
Qed.

Variables (key : A -> result K) (keyf : A -> K).

Lemma combine_keys (l : list A) :
  combine (map keyf l) l = map (fun x => (keyf x, x)) l.
Proof. induction l as [|x l IH]; simpl; [|rewrite IH]; reflexivity. Qed.

(** [sorted] returns, and returns a sorted permutation, when the key
    function returns keys that [<] orders. *)
Lemma sorted_by_sorted (l : list A) :
  (forall x, In x l -> key x = Ok (keyf x) /\ good (keyf x)) ->
  exists r,
    sorted_by lt key l = Ok r
    /\ Permutation l r
    /\ Sorted (fun x y => ltb (keyf y) (keyf x) = false) r.
Proof.
  intros H. unfold sorted_by.
  rewrite (mapM_pure key keyf) by (intros x Hx; apply H, Hx).
  cbn [bind]. rewrite combine_keys.
  destruct (@sort_keyed_sorted (map (fun x => (keyf x, x)) l))
    as [s [Hs [Hp Hsorted]]].
  { apply Forall_forall. intros p Hp. apply in_map_iff in Hp.
    destruct Hp as [x [<- Hx]]. apply H, Hx. }
  rewrite Hs. cbn [bind]. exists (map snd s). split; [reflexivity|].
  assert (Hshape : Forall (fun p => fst p = keyf (snd p)) s).
  { apply Forall_forall. intros p Hin.
    apply Permutation_in with (l' := map (fun x => (keyf x, x)) l) in Hin;
      [|symmetry; exact Hp].
    apply in_map_iff in Hin. destruct Hin as [x [<- _]]. reflexivity. }
  split.
  - apply (Permutation_map snd) in Hp. rewrite map_map in Hp. simpl in Hp.
    rewrite map_id in Hp. exact Hp.
  - clear Hs Hp. induction Hsorted as [|p s Hsorted IH Hhd]; simpl.
    + constructor.
    + inversion Hshape as [|p' s' Hp Hrest]; subst.
      constructor; [apply IH, Hrest|].
      destruct Hhd as [|q s Hq]; simpl; constructor.
      inversion Hrest as [|q' s' Hq' _]; subst.
      unfold key_le in Hq. rewrite Hp, Hq' in Hq. exact Hq.
Qed.

End SortingFacts.

(** ** Bookmarks *)

Lemma py_eq_int (a b : json) (u v : Z) :
  as_int a = Some u -> as_int b = Some v -> py_eq a b = (u =? v)%Z.
Proof.
  destruct a as [|[|]|x| | |]; try discriminate;
    destruct b as [|[|]|y| | |]; try discriminate;
    simpl; intros Hu Hv; injection Hu as <-; injection Hv as <-; reflexivity.
Qed.

Lemma py_lt_int (a b : json) (u v : Z) :
  as_int a = Some u -> as_int b = Some v -> py_lt a b = Ok (u <? v)%Z.
Proof.
  destruct a as [|[|]|x| | |]; try discriminate;
    destruct b as [|[|]|y| | |]; try discriminate;
    simpl; intros Hu Hv; injection Hu as <-; injection Hv as <-; reflexivity.
Qed.

Lemma tuple_lt_int_key (a b : json * Z) :
  int_key a -> int_key b -> tuple_lt a b = Ok (key_ltb a b).
Proof.
  intros [u Hu] [v Hv]. unfold tuple_lt, key_ltb.
  rewrite (py_eq_int _ _ Hu Hv), (py_lt_int _ _ Hu Hv), Hu, Hv.
  destruct (u =? v)%Z; reflexivity.
Qed.

Lemma key_ltb_asym (a b : json * Z) :
  key_ltb a b = true -> key_ltb b a = false.
Proof.
  unfold key_ltb.
  destruct (as_int (fst a)) as [u|], (as_int (fst b)) as [v|];
    try discriminate.
  destruct (u =? v)%Z eqn:E.
  - apply Z.eqb_eq in E. subst v. rewrite Z.eqb_refl.
    intros H. apply Z.ltb_lt in H. apply Z.ltb_ge. lia.
  - intros H. apply Z.ltb_lt in H. apply Z.eqb_neq in E.
    replace (v =? u)%Z with false by (symmetry; apply Z.eqb_neq; lia).
    apply Z.ltb_ge. lia.
Qed.

Lemma py_int_empty : py_int [] = Raise ValueError.
Proof. reflexivity. Qed.

Lemma py_int_zero : py_int (lit "0") = Ok 0%Z.
Proof. reflexivity. Qed.

(** On a well-shaped bookmark the key function returns, and returns the
    chapter and the start of the range. *)
Lemma bookmark_key_ok (x : json) :
  bookmark_ok x = true ->
  bookmark_key x = Ok (key_of x)
  /\ as_int (fst (key_of x)) = Some (chapter_uid x).
Proof.
  destruct x as [| | | | |d]; try discriminate.
  unfold bookmark_ok. intros H. apply andb_true_iff in H.
  destruct H as [Hu Hr]. split.
  - unfold bookmark_key, key_of. rewrite py_get_object. cbn [bind].
    assert (Hs : range_start (JObj d) = Ok (start_of_range (JObj d))).
    { unfold range_start, start_of_range, range_head.
      rewrite py_get_object. cbn [bind]. unfold field.
      destruct (dict_get d (lit "range")) as [[| | |s| |]|];
        try discriminate.
      - destruct (hd [] (split_on 45 s)) as [|c start] eqn:E.
        + reflexivity.
        + destruct (py_int (c :: start)); [reflexivity | discriminate].
      - reflexivity. }
    rewrite Hs. reflexivity.
  - unfold key_of, chapter_uid, field. cbn [fst].
    destruct (dict_get d (lit "chapterUid")) as [v|]; [|reflexivity].
    destruct (as_int v); [reflexivity | discriminate].
Qed.

Lemma key_le_bookmark_le (x y : json) :
  bookmark_ok x = true -> bookmark_ok y = true ->
  key_ltb (key_of y) (key_of x) = false -> bookmark_le x y.
Proof.
  intros Hx Hy. unfold key_ltb, bookmark_le.
  rewrite (proj2 (bookmark_key_ok x Hx)), (proj2 (bookmark_key_ok y Hy)).
  unfold key_of. cbn [snd].
  destruct (chapter_uid y =? chapter_uid x)%Z eqn:E; intros H.
  - apply Z.eqb_eq in E. apply Z.ltb_ge in H. right. split; [congruence | exact H].
  - apply Z.eqb_neq in E. apply Z.ltb_ge in H. left. lia.
Qed.

Lemma Sorted_impl_in {A : Type} (R S : A -> A -> Prop) (l : list A) :
  (forall x y, In x l -> In y l -> R x y -> S x y) ->
  Sorted R l -> Sorted S l.
Proof.
  intros H Hs. induction Hs as [|x l Hs IH Hhd].
  - constructor.
  - constructor.
    + apply IH. intros a b Ha Hb. apply H; right; assumption.
    + destruct Hhd as [|y l Hxy]; constructor.
      apply H; [left; reflexivity | right; left; reflexivity | exact Hxy].
Qed.

(** C4 (as amended).  For every success response whose [updated] is
    absent or a list of well-shaped bookmarks (objects whose [chapterUid],
    when present, is an integer and whose [range], when present, is a
    string starting with a dash or with a decimal integer before its
    first dash), [get_bookmark_list] returns the entries, all of them,
    sorted so that for consecutive entries [chapterUid] is non-decreasing
    and, within equal [chapterUid], the start of range is non-decreasing;
    [chapterUid] counts as 1 when the field is absent and the start of
    range as 0 when the field is absent or starts with a dash. *)
Theorem get_bookmark_list_sorted :
  (forall r d l,
      ok r = true ->
      json_of r = Ok (JObj d) ->
      field (JObj d) (lit "updated") (JArr []) = JArr l ->
      forallb bookmark_ok l = true ->
      exists sorted,
        get_bookmark_list r = Ok (Some sorted)
        /\ Permutation l sorted
        /\ Sorted bookmark_le sorted)
  /\ (forall x, has_field x (lit "chapterUid") = false -> chapter_uid x = 1%Z)
  /\ (forall x, has_field x (lit "range") = false -> start_of_range x = 0%Z)
  /\ (forall x s,
         field x (lit "range") JNull = JStr (45 :: s) -> start_of_range x = 0%Z).
Proof.
  split; [|split; [|split]].
  - intros r d l Hok Hj Hl Hwf. unfold get_bookmark_list.
    rewrite Hok, Hj. cbn [bind]. rewrite py_get_object, Hl.
    cbn [bind py_iter].
    rewrite forallb_forall in Hwf.
    destruct (@sorted_by_sorted _ _ tuple_lt key_ltb int_key
                tuple_lt_int_key key_ltb_asym bookmark_key key_of l)
      as [sorted [Hs [Hp Hsorted]]].
    { intros x Hx. destruct (bookmark_key_ok x (Hwf x Hx)) as [Hk Hu].
      split; [exact Hk | eexists; exact Hu]. }
    rewrite Hs. cbn [bind]. exists sorted. repeat split; auto.
    apply Sorted_impl_in with (2 := Hsorted).
    intros x y Hx Hy. apply key_le_bookmark_le; apply Hwf.
    + apply Permutation_in with (l := sorted); [symmetry|]; assumption.
    + apply Permutation_in with (l := sorted); [symmetry|]; assumption.
  - intros x H. unfold chapter_uid, field.
    destruct x as [| | | | |d]; try reflexivity.
    unfold has_field, has_key in H.
    destruct (dict_get d (lit "chapterUid")); [discriminate | reflexivity].
  - intros x H. unfold start_of_range, range_head, field.
    destruct x as [| | | | |d]; try reflexivity.
    unfold has_field, has_key in H.
    destruct (dict_get d (lit "range")); [discriminate | reflexivity].
  - intros x s H. unfold start_of_range, range_head.
    assert (Hf : field x (lit "range") (JStr (lit "0-0")) = JStr (45 :: s)).
    { unfold field in *. destruct x as [| | | | |d]; try discriminate.
      destruct (dict_get d (lit "range")); [exact H | discriminate]. }
    rewrite Hf. reflexivity.
Qed.

Lemma get_bookmark_list_sorted_witness :
  forallb bookmark_ok [bookmark 2 "10-20"; bookmark 1 "5-9"] = true
  /\ exists sorted,
       get_bookmark_list two_bookmarks = Ok (Some sorted)
       /\ Permutation [bookmark 2 "10-20"; bookmark 1 "5-9"] sorted
       /\ Sorted bookmark_le sorted.
Proof.
  split; [reflexivity|].
  apply (proj1 get_bookmark_list_sorted two_bookmarks
           [(lit "updated", JArr [bookmark 2 "10-20"; bookmark 1 "5-9"])]);
    reflexivity.
Defined.

(** The end-to-end scenario of the specification. *)
Example get_bookmark_list_two_bookmarks :
  get_bookmark_list two_bookmarks
  = Ok (Some [bookmark 1 "5-9"; bookmark 2 "10-20"]).
Proof. vm_compute. reflexivity. Qed.

(** C4 as stated fails: a range that does not start with a number is not
    read as 0; [int] raises [ValueError] and no list is returned. *)
Lemma get_bookmark_list_malformed_range_raises :
  ok malformed_range = true
  /\ get_bookmark_list malformed_range = Raise ValueError
  /\ ~ (exists l, get_bookmark_list malformed_range = Ok (Some l)).
Proof.
  assert (H : get_bookmark_list malformed_range = Raise ValueError)
    by (vm_compute; reflexivity).
  split; [reflexivity|]. split; [exact H|].
  intros [l Hl]. rewrite H in Hl. discriminate.
Qed.

(** ** Chapters *)

Lemma map_get_set (m : list (json * json)) (k u : Z) (v : json) :
  int_keys m ->
  map_get (map_set m (JInt k) v) (JInt u)
  = if (k =? u)%Z then Some v else map_get m (JInt u).
Proof.
  induction 1 as [|[k0 v0] m [a Ha] _ IH]; simpl.
  - reflexivity.
  - simpl in Ha. subst k0. simpl.
    destruct (a =? k)%Z eqn:Eak; simpl.
    + apply Z.eqb_eq in Eak. subst a. destruct (k =? u)%Z; reflexivity.
    + rewrite IH. destruct (a =? u)%Z eqn:Eau; [|reflexivity].
      apply Z.eqb_eq in Eau. subst a. rewrite Z.eqb_sym, Eak. reflexivity.
Qed.

Lemma map_set_int_keys (m : list (json * json)) (k : Z) (v : json) :
  int_keys m -> int_keys (map_set m (JInt k) v).
Proof.
  induction 1 as [|[k0 v0] m Hk Hm IH]; simpl.
  - constructor; [exists k; reflexivity | constructor].
  - destruct (py_eq k0 (JInt k)); constructor; auto.
Qed.

Lemma find_app {A : Type} (p : A -> bool) (l l' : list A) :
  find p (l ++ l') = match find p l with Some x => Some x | None => find p l' end.
Proof.
  induction l as [|x l IH]; simpl; [reflexivity|].
  destruct (p x); [reflexivity | exact IH].
Qed.

Lemma item_uid_getitem (item : json) (k : Z) :
  item_uid item = Some k ->
  py_getitem item (lit "chapterUid") = Ok (JInt k).
Proof.
  destruct item as [| | | | |d]; try discriminate. simpl.
  destruct (dict_get d (lit "chapterUid")) as [[| |z| | |]|]; try discriminate.
  intros H. injection H as <-. reflexivity.
Qed.

(** The comprehension returns when every item has an integer
    [chapterUid]; a later item replaces an earlier one of the same
    [chapterUid]. *)
Lemma chapter_map_spec (items : list json) :
  forall m,
    (forall item, In item items -> item_uid item <> None) ->
    int_keys m ->
    exists m',
      chapter_map m items = Ok m'
      /\ int_keys m'
      /\ forall u,
          map_get m' (JInt u)
          = match find (item_has_uid u) (rev items) with
            | Some item => Some item
            | None => map_get m (JInt u)
            end.
Proof.
  induction items as [|item rest IH]; intros m Hitems Hm.
  - exists m. repeat split; auto.
  - destruct (item_uid item) as [k|] eqn:Ek;
      [|exfalso; apply (Hitems item (or_introl eq_refl)); exact Ek].
    simpl chapter_map. rewrite (item_uid_getitem _ Ek). cbn [bind hashable].
    destruct (IH (map_set m (JInt k) item)) as [m' [Hm' [Hk' Hget]]].
    { intros it Hin. apply Hitems. right. exact Hin. }
    { apply map_set_int_keys, Hm. }
    exists m'. repeat split; auto.
    intros u. rewrite Hget. simpl rev. rewrite find_app.
    destruct (find (item_has_uid u) (rev rest)); [reflexivity|].
    rewrite (map_get_set _ _ _ Hm). simpl find.
    unfold item_has_uid. rewrite Ek. destruct (k =? u)%Z; reflexivity.
Qed.

Lemma NoDup_map_injective {A B : Type} (f : A -> B) (l : list A) :
  NoDup (map f l) ->
  forall x y, In x l -> In y l -> f x = f y -> x = y.
Proof.
  induction l as [|a l IH]; simpl; intros Hnd x y Hx Hy Hf; [contradiction|].
  inversion Hnd as [|b l' Hnotin Hnd']; subst.
  destruct Hx as [<-|Hx], Hy as [<-|Hy]; auto.
  - exfalso. apply Hnotin. rewrite Hf. apply in_map, Hy.
  - exfalso. apply Hnotin. rewrite <- Hf. apply in_map, Hx.
Qed.

Lemma find_unique_uid (items : list json) (item : json) (u : Z) :
  NoDup (map item_uid items) ->
  In item items -> item_uid item = Some u ->
  find (item_has_uid u) (rev items) = Some item.
Proof.
  intros Hnd Hin Hu.
  destruct (find (item_has_uid u) (rev items)) as [y|] eqn:E.
  - apply find_some in E. destruct E as [Hy Hp].
    apply in_rev in Hy. unfold item_has_uid in Hp.
    destruct (item_uid y) as [v|] eqn:Ev; [|discriminate].
    apply Z.eqb_eq in Hp. subst v. f_equal.
    apply (NoDup_map_injective item_uid items Hnd); congruence.
  - assert (Hf : item_has_uid u item = false).
    { apply (find_none _ _ E item). rewrite <- in_rev. exact Hin. }
    unfold item_has_uid in Hf. rewrite Hu, Z.eqb_refl in Hf. discriminate.
Qed.

(** C8 (as amended).  [get_chapter_info] returns the unavailable result
    whenever the HTTP status is non-success, or the body is an object
    without [data], or [data] is an array whose length is not 1, or its
    single element is an object without [updated].  Otherwise, when
    [updated] is a list of objects that all have an integer
    [chapterUid], it returns the mapping built from the list in order:
    each [chapterUid] is sent to the last item that carries it, hence
    every item's [chapterUid] to that item when no [chapterUid] occurs
    twice. *)
Theorem get_chapter_info_amended :
  (forall r, ok r = false -> get_chapter_info r = Ok None)
  /\ (forall r d,
         ok r = true -> json_of r = Ok (JObj d) ->
         dict_get d (lit "data") = None ->
         get_chapter_info r = Ok None)
  /\ (forall r d l,
         ok r = true -> json_of r = Ok (JObj d) ->
         dict_get d (lit "data") = Some (JArr l) ->
         length l <> 1%nat ->
         get_chapter_info r = Ok None)
  /\ (forall r d e,
         ok r = true -> json_of r = Ok (JObj d) ->
         dict_get d (lit "data") = Some (JArr [JObj e]) ->
         dict_get e (lit "updated") = None ->
         get_chapter_info r = Ok None)
  /\ (forall r d e items,
         ok r = true -> json_of r = Ok (JObj d) ->
         dict_get d (lit "data") = Some (JArr [JObj e]) ->
         dict_get e (lit "updated") = Some (JArr items) ->
         (forall item, In item items -> item_uid item <> None) ->
         exists m,
           get_chapter_info r = Ok (Some m)
           /\ (forall u,
                  map_get m (JInt u) = find (item_has_uid u) (rev items))
           /\ (NoDup (map item_uid items) ->
               forall item u,
                 In item items -> item_uid item = Some u ->
                 map_get m (JInt u) = Some item)).
Proof.
  split; [|split; [|split; [|split]]].
  - intros r H. unfold get_chapter_info. rewrite H. reflexivity.
  - intros r d Hok Hj Hd. unfold get_chapter_info. rewrite Hok, Hj.
    cbn [bind py_contains]. unfold has_key. rewrite Hd. reflexivity.
  - intros r d l Hok Hj Hd Hlen. unfold get_chapter_info. rewrite Hok, Hj.
    cbn [bind py_contains py_getitem]. unfold has_key. rewrite Hd.
    cbn [bind py_len]. apply Nat.eqb_neq in Hlen. rewrite Hlen. reflexivity.
  - intros r d e Hok Hj Hd He. unfold get_chapter_info. rewrite Hok, Hj.
    cbn [bind py_contains py_getitem]. unfold has_key. rewrite Hd.
    cbn [bind py_len length Nat.eqb py_getitem_0 py_contains].
    unfold has_key. rewrite He. reflexivity.
  - intros r d e items Hok Hj Hd He Hitems.
    destruct (chapter_map_spec items (m := []) Hitems (Forall_nil _))
      as [m [Hm [_ Hget]]].
    exists m. split; [|split].
    + unfold get_chapter_info. rewrite Hok, Hj.
      cbn [bind py_contains py_getitem]. unfold has_key. rewrite Hd.
      cbn [bind py_len length Nat.eqb py_getitem_0 py_contains py_getitem].
      unfold has_key. rewrite He. cbn [bind py_iter]. rewrite Hm.
      reflexivity.
    + intros u. rewrite Hget.
      destruct (find (item_has_uid u) (rev items)); reflexivity.
    + intros Hnd item u Hin Hu. rewrite Hget.
      rewrite (find_unique_uid items item Hnd Hin Hu). reflexivity.
Qed.

Lemma get_chapter_info_amended_witness :
  get_chapter_info (failure (Ok JNull) []) = Ok None
  /\ exists m,
       get_chapter_info
         (chapters [JObj [(lit "chapterUid", JInt 7);
                          (lit "title", JStr (lit "Preface"))]])
       = Ok (Some m)
       /\ map_get m (JInt 7)
          = Some (JObj [(lit "chapterUid", JInt 7);
                        (lit "title", JStr (lit "Preface"))]).
Proof.
  split.
  - apply (proj1 get_chapter_info_amended). reflexivity.
  - destruct (proj2 (proj2 (proj2 (proj2 get_chapter_info_amended)))
                (chapters [JObj [(lit "chapterUid", JInt 7);
                                 (lit "title", JStr (lit "Preface"))]])
                [(lit "data",
                  JArr [JObj [(lit "bookId", JStr (lit "695233"));
                              (lit "updated",
                               JArr [JObj [(lit "chapterUid", JInt 7);
                                           (lit "title", JStr (lit "Preface"))]])]])]
                [(lit "bookId", JStr (lit "695233"));
                 (lit "updated",
                  JArr [JObj [(lit "chapterUid", JInt 7);
                              (lit "title", JStr (lit "Preface"))]])]
                [JObj [(lit "chapterUid", JInt 7);
                       (lit "title", JStr (lit "Preface"))]]
                eq_refl eq_refl eq_refl eq_refl)
      as [m [Hm [Hget _]]].
    + intros item [<-|[]]. discriminate.
    + exists m. split; [exact Hm|]. rewrite Hget. reflexivity.
Defined.

(** C8 as stated fails: with one data element whose update list holds an
    item without [chapterUid], neither the unavailable result nor a
    mapping is returned; the comprehension raises [KeyError]. *)
Lemma get_chapter_info_missing_uid_raises :
  ok chapter_without_uid = true
  /\ get_chapter_info chapter_without_uid = Raise KeyError.
Proof. split; reflexivity. Qed.

(** ** Fuel *)

(** The fuel of [MD5.blocks] is enough: beyond the length of the message
    more fuel changes nothing. *)
Lemma blocks_fuel (fuel : nat) :
  forall (st : MD5.state) (bs : list N),
    (length bs <= fuel)%nat ->
    MD5.blocks (S fuel) st bs = MD5.blocks fuel st bs.
Proof.
  induction fuel as [|fuel IH]; intros st bs Hlen.
  - destruct bs; [reflexivity | simpl in Hlen; lia].
  - destruct bs as [|b bs]; [reflexivity|].
    change (MD5.blocks (S (S fuel)) st (b :: bs))
      with (MD5.blocks (S fuel) (MD5.compress st (firstn 64 (b :: bs)))
              (skipn 64 (b :: bs))).
    change (MD5.blocks (S fuel) st (b :: bs))
      with (MD5.blocks fuel (MD5.compress st (firstn 64 (b :: bs)))
              (skipn 64 (b :: bs))).
    apply IH. rewrite length_skipn. cbn [length] in Hlen |- *. lia.
Qed.

(** The chunks of the specification cover the identifier. *)
Lemma chunks_loop_concat (k fuel : nat) :
  (1 <= k)%nat ->
  forall s, (length s <= fuel)%nat -> concat (Spec.chunks_loop fuel k s) = s.
Proof.
  intros Hk. induction fuel as [|fuel IH]; intros s Hlen.
  - destruct s; [reflexivity | simpl in Hlen; lia].
  - destruct s as [|c s]; [reflexivity|].
    cbn [Spec.chunks_loop concat]. rewrite IH.
    + apply firstn_skipn.
    + rewrite length_skipn. cbn [length] in Hlen |- *. lia.
Qed.

Lemma chunks_concat (s : pystr) : concat (Spec.chunks 9 s) = s.
Proof. apply chunks_loop_concat; lia. Qed.

(** Test vectors of RFC 1321, the last one two blocks long. *)
Example md5_empty :
  MD5.hexdigest [] = lit "d41d8cd98f00b204e9800998ecf8427e".
Proof. vm_compute. reflexivity. Qed.

Example md5_eighty_digits :
  MD5.hexdigest
    (utf8_bytes
       (lit "12345678901234567890123456789012345678901234567890123456789012345678901234567890"))
  = lit "57edf4a22be3c955ac49da2e2107b67a".
Proof. vm_compute. reflexivity. Qed.

(** ** Lengths *)

Lemma hexdigest_length (msg : list N) : length (MD5.hexdigest msg) = 32%nat.
Proof.
  unfold MD5.hexdigest.
  assert (H : forall l, length (flat_map MD5.byte_hex l) = (2 * length l)%nat).
  { induction l as [|b l IH]; simpl; [reflexivity | rewrite IH; lia]. }
  rewrite H. unfold MD5.digest, MD5.le_bytes.
  rewrite !length_app, !length_map, !length_seq. reflexivity.
Qed.

(** The count in front of a segment shorter than 256 characters has
    exactly two digits; a longer segment has a longer count. *)
Lemma segment_prefix_two_digits (seg : pystr) :
  (length seg < 256)%nat ->
  length (Spec.zero_pad2 (hex (N.of_nat (length seg)))) = 2%nat.
Proof.
  intros H. unfold Spec.zero_pad2.
  assert (Hh : (length (hex (N.of_nat (length seg))) <= 2)%nat).
  { set (n := N.of_nat (length seg)).
    assert (Hn : n < 256) by (unfold n; lia).
    unfold hex. rewrite hex_loop_S.
    destruct (n / 16 =? 0) eqn:E; [simpl; lia|].
    destruct n as [|p]; [discriminate|].
    destruct (N.size_nat (N.pos p)) as [|fuel] eqn:Ef;
      [destruct p; discriminate|].
    rewrite hex_loop_S.
    replace (N.pos p / 16 / 16 =? 0) with true; [simpl; lia|].
    symmetry. apply N.eqb_eq. rewrite N.Div0.div_div.
    apply N.div_small. exact Hn. }
  pose proof (hex_nonempty (N.of_nat (length seg))) as Hne.
  rewrite length_app, repeat_length. lia.
Qed.

Example long_segment_prefix :
  Spec.segment (repeat 97 256) = lit "100" ++ repeat 97 256.
Proof. vm_compute. reflexivity. Qed.

(** The identifier has at least 23 characters. *)
Lemma book_str_id_length (msg : list N) (code : pystr) (segs : list pystr) :
  (23 <= length (Spec.book_str_id (MD5.hexdigest msg) code segs))%nat.
Proof.
  unfold Spec.book_str_id. cbv zeta.
  set (body := Spec.head_and_segments (MD5.hexdigest msg) code segs).
  rewrite length_app, length_firstn, hexdigest_length.
  assert (H : (20 <= length (Spec.padded (MD5.hexdigest msg) body))%nat).
  { unfold Spec.padded. destruct (length body <? 20)%nat eqn:E.
    - apply Nat.ltb_lt in E.
      rewrite length_app, length_firstn, hexdigest_length. lia.
    - apply Nat.ltb_ge in E. exact E. }
  lia.
Qed.

(** * Further properties of the identifier codec *)

Lemma transform_id_code (book_id code : pystr) (segs : list pystr) :
  transform_id book_id = Ok (code, segs) ->
  code = lit "3" \/ code = lit "4".
Proof.
  unfold transform_id. destruct (re_match_digits book_id).
  - intros H. apply bind_Ok in H. destruct H as [ary [_ H]].
    injection H as <- _. left. reflexivity.
  - intros H. injection H as <- _. right. reflexivity.
Qed.

Lemma calculate_book_str_id_Ok (book_id s : pystr) :
  calculate_book_str_id book_id = Ok s ->
  exists code segs,
    existsb is_surrogate book_id = false
    /\ transform_id book_id = Ok (code, segs)
    /\ s = Spec.book_str_id (MD5.hexdigest (utf8_bytes book_id)) code segs.
Proof.
  rewrite calculate_book_str_id_bind. unfold md5_hex_of_str, encode_utf8.
  destruct (existsb is_surrogate book_id); cbn [bind]; [discriminate|].
  destruct (transform_id book_id) as [[code segs]|e]; cbn [bind];
    [|discriminate].
  intros H. injection H as <-. exists code, segs. auto.
Qed.

(** The layout of a web identifier.  Whenever [calculate_book_str_id]
    returns, the identifier is a body of at least 20 characters followed
    by the first 3 hexadecimal digits of the MD5 digest of that body; the
    body starts with the first 3 digits of the digest of the book
    identifier, then the mode code ["3"] or ["4"], then ["2"]. *)
Theorem web_id_layout (book_id s : pystr) :
  calculate_book_str_id book_id = Ok s ->
  exists body,
    s = body ++ firstn 3 (MD5.hexdigest (utf8_bytes body))
    /\ (20 <= length body)%nat
    /\ length s = (length body + 3)%nat
    /\ firstn 3 body = firstn 3 (MD5.hexdigest (utf8_bytes book_id))
    /\ (nth 3 body 0 = 51 \/ nth 3 body 0 = 52)
    /\ nth 4 body 0 = 50.
Proof.
  intros H. apply calculate_book_str_id_Ok in H.
  destruct H as [code [segs [_ [Ht ->]]]].
  apply transform_id_code in Ht.
  set (digest := MD5.hexdigest (utf8_bytes book_id)).
  pose proof (hexdigest_length (utf8_bytes book_id)) as Hlen.
  fold digest in Hlen.
  exists (Spec.padded digest (Spec.head_and_segments digest code segs)).
  assert (Hpad : forall body,
             (5 <= length body)%nat ->
             (20 <= length (Spec.padded digest body))%nat
             /\ firstn 5 (Spec.padded digest body) = firstn 5 body).
  { intros body Hb. unfold Spec.padded.
    destruct (length body <? 20)%nat eqn:E.
    - apply Nat.ltb_lt in E. split.
      + rewrite length_app, length_firstn. lia.
      + rewrite firstn_app. replace (5 - length body)%nat with 0%nat by lia.
        rewrite firstn_0, app_nil_r. reflexivity.
    - apply Nat.ltb_ge in E. auto. }
  destruct digest as [|d0 [|d1 [|d2 digest']]]; try discriminate Hlen.
  assert (Hhead : exists c rest,
             (c = 51 \/ c = 52)
             /\ Spec.head_and_segments (d0 :: d1 :: d2 :: digest') code segs
                = d0 :: d1 :: d2 :: c :: 50 :: rest).
  { destruct Ht as [-> | ->]; eexists; eexists; split;
      [left; reflexivity | reflexivity | right; reflexivity | reflexivity]. }
  destruct Hhead as [c [rest [Hc Hhead]]]. rewrite Hhead.
  destruct (Hpad (d0 :: d1 :: d2 :: c :: 50 :: rest)) as [H20 H5];
    [simpl; lia|].
  set (body := Spec.padded (d0 :: d1 :: d2 :: digest')
                 (d0 :: d1 :: d2 :: c :: 50 :: rest)) in *.
  assert (Hb : exists tail, body = d0 :: d1 :: d2 :: c :: 50 :: tail).
  { destruct body as [|b0 [|b1 [|b2 [|b3 [|b4 tail]]]]];
      try (simpl in H20; lia).
    simpl in H5. injection H5 as -> -> -> -> ->. eexists. reflexivity. }
  destruct Hb as [tail Hb].
  assert (Hs : Spec.book_str_id (d0 :: d1 :: d2 :: digest') code segs
               = body ++ firstn 3 (MD5.hexdigest (utf8_bytes body))).
  { unfold Spec.book_str_id. cbv zeta. rewrite Hhead. reflexivity. }
  repeat split.
  - exact Hs.
  - exact H20.
  - rewrite Hs, length_app, length_firstn, hexdigest_length. lia.
  - rewrite Hb. reflexivity.
  - rewrite Hb. exact Hc.
  - rewrite Hb. reflexivity.
Qed.

Lemma web_id_layout_witness :
  exists body,
    lit "ce032b305a9bc1ce0b0dd2a"
    = body ++ firstn 3 (MD5.hexdigest (utf8_bytes body))
    /\ (20 <= length body)%nat
    /\ length (lit "ce032b305a9bc1ce0b0dd2a") = (length body + 3)%nat
    /\ firstn 3 body = firstn 3 (MD5.hexdigest (utf8_bytes (lit "695233")))
    /\ (nth 3 body 0 = 51 \/ nth 3 body 0 = 52)
    /\ nth 4 body 0 = 50.
Proof.
  apply (@web_id_layout (lit "695233")). vm_compute. reflexivity.
Defined.

(** ** Signs and [int] *)

(** The two sign characters [int] looks for. *)
Lemma sign_cases (c : N) (ds : pystr) :
  match c :: ds with
  | 43 :: d => (1%Z, d)
  | 45 :: d => ((-1)%Z, d)
  | _ => (1%Z, c :: ds)
  end
  = if c =? 43 then (1%Z, ds)
    else if c =? 45 then ((-1)%Z, ds)
    else (1%Z, c :: ds).
Proof.
  destruct c as [|p]; [reflexivity|].
  do 6 (try (destruct p as [p|p|]; try reflexivity)).
Qed.

Lemma lstrip_incl (s : pystr) (c : N) : In c (lstrip s) -> In c s.
Proof.
  induction s as [|d s IH]; simpl; [auto|].
  destruct (int_space d); [intros H; right; apply IH, H | auto].
Qed.

Lemma strip_incl (s : pystr) (c : N) : In c (strip s) -> In c s.
Proof.
  unfold strip. intros H. apply in_rev in H. apply lstrip_incl in H.
  apply in_rev in H. apply lstrip_incl, H.
Qed.

Lemma digits_value_nonneg (s : pystr) :
  forall b acc count v n,
    digits_value s b acc count = Some (v, n) -> (0 <= acc)%Z -> (0 <= v)%Z.
Proof.
  induction s as [|c s IH]; intros b acc count v n H Hacc.
  - simpl in H. destruct b; [|discriminate]. injection H as <- _. exact Hacc.
  - cbn [digits_value] in H. destruct (decimal_value c) as [d|].
    + apply IH in H; [exact H | lia].
    + destruct ((c =? 95) && b); [|discriminate]. apply IH in H; assumption.
Qed.

(** Without a minus sign [int] never returns a negative number. *)
Lemma py_int_nonneg (s : pystr) (z : Z) :
  ~ In 45 s -> py_int s = Ok z -> (0 <= z)%Z.
Proof.
  intros Hminus. unfold py_int.
  assert (Hbody : ~ In 45 (strip s)) by (intros H; apply Hminus, strip_incl, H).
  destruct (strip s) as [|c ds].
  - simpl. discriminate.
  - rewrite sign_cases.
    destruct (c =? 45) eqn:E45.
    { apply N.eqb_eq in E45. subst c. exfalso. apply Hbody. left. reflexivity. }
    assert (Hpos : forall ds' : pystr,
               match digits_value ds' false 0 0 with
               | Some (v, count) =>
                   if (int_max_str_digits <? count)%nat then Raise ValueError
                   else Ok (1 * v)%Z
               | None => Raise ValueError
               end = Ok z -> (0 <= z)%Z).
    { intros ds'. destruct (digits_value ds' false 0 0) as [[v n]|] eqn:Ev;
        [|discriminate].
      destruct (int_max_str_digits <? n)%nat; [discriminate|].
      intros H. injection H as <-.
      apply digits_value_nonneg in Ev; [|lia]. destruct v; assumption. }
    destruct (c =? 43); apply Hpos.
Qed.

(** ** The characters of what the codec returns *)

Lemma hexdigit_hex (n : N) : is_hex_char (hexdigit (n mod 16)) = true.
Proof.
  assert (H : n mod 16 < 16) by (apply N.mod_lt; discriminate).
  set (d := n mod 16) in *. clearbody d.
  unfold hexdigit, is_hex_char.
  destruct (d <? 10) eqn:E.
  - apply N.ltb_lt in E. apply orb_true_iff. left.
    apply andb_true_iff. split; apply N.leb_le; lia.
  - apply N.ltb_ge in E. apply orb_true_iff. right.
    apply andb_true_iff. split; apply N.leb_le; lia.
Qed.

Lemma hex_loop_hex (fuel : nat) :
  forall n acc, hex_string acc -> hex_string (hex_loop fuel n acc).
Proof.
  induction fuel as [|fuel IH]; intros n acc Hacc; [exact Hacc|].
  rewrite hex_loop_S.
  assert (Hc : hex_string (hexdigit (n mod 16) :: acc))
    by (constructor; [apply hexdigit_hex | exact Hacc]).
  destruct (n / 16 =? 0); [exact Hc | apply IH, Hc].
Qed.

Lemma hex_hex (n : N) : hex_string (hex n).
Proof. apply hex_loop_hex. constructor. Qed.

Lemma format_x_hex (z : Z) : (0 <= z)%Z -> hex_string (format_x z).
Proof.
  intros H. unfold format_x.
  replace (z <? 0)%Z with false by (symmetry; apply Z.ltb_ge; exact H).
  apply hex_hex.
Qed.

Lemma hexdigest_hex (msg : list N) : hex_string (MD5.hexdigest msg).
Proof.
  unfold MD5.hexdigest. induction (MD5.digest msg) as [|b bs IH]; simpl.
  - constructor.
  - constructor; [apply hexdigit_hex|].
    constructor; [apply hexdigit_hex | exact IH].
Qed.

Lemma hex_string_web (s : pystr) : hex_string s -> web_id_string s.
Proof.
  apply Forall_impl. intros c H. unfold is_web_id_char. rewrite H. reflexivity.
Qed.

Lemma web_id_string_app (s t : pystr) :
  web_id_string s -> web_id_string t -> web_id_string (s ++ t).
Proof. intros Hs Ht. apply Forall_app. split; assumption. Qed.

Lemma web_id_string_firstn (k : nat) (s : pystr) :
  web_id_string s -> web_id_string (firstn k s).
Proof.
  intros H. unfold web_id_string in *. rewrite <- (firstn_skipn k s) in H.
  apply Forall_app in H. tauto.
Qed.

Lemma web_id_string_rev (s : pystr) :
  web_id_string s -> web_id_string (rev s).
Proof. apply Forall_rev. Qed.

Lemma segment_web (seg : pystr) :
  hex_string seg -> web_id_string (Spec.segment seg).
Proof.
  intros H. unfold Spec.segment, Spec.zero_pad2.
  repeat apply web_id_string_app.
  - apply Forall_forall. intros c Hc. apply repeat_spec in Hc. subst c.
    reflexivity.
  - apply hex_string_web, hex_hex.
  - apply hex_string_web, H.
Qed.

Lemma segments_web (segs : list pystr) :
  Forall hex_string segs -> web_id_string (Spec.segments segs).
Proof.
  induction 1 as [|seg rest Hseg Hrest IH].
  - constructor.
  - destruct rest as [|seg' rest'].
    + simpl. apply segment_web, Hseg.
    + change (Spec.segments (seg :: seg' :: rest'))
        with (Spec.segment seg ++ lit "g" ++ Spec.segments (seg' :: rest')).
      apply web_id_string_app; [apply segment_web, Hseg|].
      apply web_id_string_app; [|exact IH].
      constructor; [reflexivity | constructor].
Qed.

(** What the pattern lets through: decimal digits, and a line feed. *)
Lemma drop_digits_chars (s : pystr) (c : N) :
  In c s -> is_digit c = true \/ In c (drop_digits s).
Proof.
  induction s as [|d s IH]; simpl; [contradiction|].
  destruct (is_digit d) eqn:E.
  - intros [<-|H]; [left; exact E | apply IH, H].
  - intros H. right. exact H.
Qed.

Lemma re_match_digits_chars (s : pystr) (c : N) :
  re_match_digits s = true -> In c s -> is_digit c = true \/ c = 10.
Proof.
  unfold re_match_digits. intros Hm Hin.
  destruct (drop_digits_chars s c Hin) as [H|H]; [left; exact H|].
  destruct (drop_digits s) as [|d [|d' rest]].
  - contradiction.
  - destruct H as [<-|[]]. right.
    destruct (N.eq_dec d 10) as [->|Hne]; [reflexivity|].
    exfalso. destruct d as [|p]; [discriminate|].
    do 4 (try (destruct p as [p|p|]; try discriminate; try congruence)).
  - exfalso. destruct d as [|p]; [discriminate|].
    do 4 (try (destruct p as [p|p|]; try discriminate)).
Qed.

Lemma slice_incl (s : pystr) (i j : nat) (c : N) :
  In c (slice s i j) -> In c s.
Proof.
  unfold slice. intros H.
  rewrite <- (firstn_skipn i s). apply in_or_app. right.
  rewrite <- (firstn_skipn (j - i) (skipn i s)). apply in_or_app. left. exact H.
Qed.

Lemma transform_id_hex (book_id code : pystr) (segs : list pystr) :
  transform_id book_id = Ok (code, segs) -> Forall hex_string segs.
Proof.
  unfold transform_id. destruct (re_match_digits book_id) eqn:Em.
  - intros H. apply bind_Ok in H. destruct H as [ary [Hary H]].
    injection H as _ <-.
    eapply mapM_Forall; [|exact Hary].
    intros i y Hy. cbv beta in Hy. apply bind_Ok in Hy.
    destruct Hy as [n [Hn Hy]]. injection Hy as <-.
    apply format_x_hex. apply py_int_nonneg in Hn; [exact Hn|].
    intros Hin. apply slice_incl in Hin.
    destruct (@re_match_digits_chars book_id 45 Em Hin) as [H|H];
      [vm_compute in H|]; discriminate.
  - intros H. injection H as _ <-. constructor; [|constructor].
    assert (Hloop : forall idx acc,
               hex_string acc ->
               hex_string
                 (fold_left
                    (fun result i =>
                       result ++ format_x (Z.of_N (nth i book_id 0)))
                    idx acc)).
    { induction idx as [|i idx IH]; intros acc Hacc; [exact Hacc|].
      simpl. apply IH. apply Forall_app. split; [exact Hacc|].
      apply format_x_hex. lia. }
    apply Hloop. constructor.
Qed.

Lemma calculate_book_str_id_web (book_id s : pystr) :
  calculate_book_str_id book_id = Ok s -> web_id_string s.
Proof.
  intros H. apply calculate_book_str_id_Ok in H.
  destruct H as [code [segs [_ [Ht ->]]]].
  pose proof (hexdigest_hex (utf8_bytes book_id)) as Hd.
  apply hex_string_web in Hd.
  assert (Hcode : web_id_string code).
  { destruct (transform_id_code _ Ht) as [-> | ->];
      (constructor; [reflexivity | constructor]). }
  apply transform_id_hex in Ht.
  unfold Spec.book_str_id. cbv zeta.
  apply web_id_string_app;
    [|apply web_id_string_firstn, hex_string_web, hexdigest_hex].
  assert (Hh : web_id_string
                 (Spec.head_and_segments
                    (MD5.hexdigest (utf8_bytes book_id)) code segs)).
  { unfold Spec.head_and_segments, Spec.last_chars.
    apply web_id_string_app; [apply web_id_string_firstn, Hd|].
    apply web_id_string_app; [exact Hcode|].
    apply web_id_string_app; [constructor; [reflexivity | constructor]|].
    apply web_id_string_app; [|apply segments_web, Ht].
    apply web_id_string_rev, web_id_string_firstn, web_id_string_rev, Hd. }
  unfold Spec.padded.
  destruct (length _ <? 20)%nat; [apply web_id_string_app|];
    auto using web_id_string_firstn.
Qed.

(** Every character of a web identifier is a lowercase hexadecimal digit
    or the letter ["g"]: the identifier can be put in a URL as it is. *)
Theorem web_id_characters (book_id s : pystr) :
  calculate_book_str_id book_id = Ok s -> web_id_string s.
Proof. apply calculate_book_str_id_web. Qed.

Lemma web_id_characters_witness :
  web_id_string (lit "341326f0775bcd15g01c007").
Proof.
  apply (@web_id_characters (lit "123456789012")). vm_compute. reflexivity.
Defined.

(** ** When [transform_id] raises *)

Lemma digits_satisfy_spec (P : N -> bool) (c : N) :
  digits_satisfy P = true -> is_digit c = true -> P c = true.
Proof.
  unfold digits_satisfy, is_digit, decimal_value. intros Hall Hc.
  destruct (find (fun z => (z <=? c) && (c <? z + 10)) nd_zeros) as [z|] eqn:E;
    [|discriminate].
  apply find_some in E. destruct E as [Hz Hrange].
  apply andb_true_iff in Hrange. destruct Hrange as [Hlo Hhi].
  apply N.leb_le in Hlo. apply N.ltb_lt in Hhi.
  rewrite forallb_forall in Hall. specialize (Hall z Hz).
  rewrite forallb_forall in Hall.
  specialize (Hall (N.to_nat (c - z))).
  replace (z + N.of_nat (N.to_nat (c - z))) with c in Hall
    by (rewrite N2Nat.id; lia).
  apply Hall. apply in_seq. lia.
Qed.

Lemma digit_not_space (c : N) : is_digit c = true -> int_space c = false.
Proof.
  intros H. apply (digits_satisfy_spec (fun c => negb (int_space c))) in H.
  - apply negb_true_iff in H. exact H.
  - vm_compute. reflexivity.
Qed.

Lemma digit_not_sign (c : N) :
  is_digit c = true -> (c =? 43) = false /\ (c =? 45) = false.
Proof.
  intros H.
  apply (digits_satisfy_spec (fun c => negb (c =? 43) && negb (c =? 45))) in H.
  - apply andb_true_iff in H. destruct H as [H1 H2].
    apply negb_true_iff in H1, H2. auto.
  - vm_compute. reflexivity.
Qed.

Lemma digit_not_surrogate (c : N) :
  is_digit c = true -> is_surrogate c = false.
Proof.
  intros H. apply (digits_satisfy_spec (fun c => negb (is_surrogate c))) in H.
  - apply negb_true_iff in H. exact H.
  - vm_compute. reflexivity.
Qed.

Lemma lstrip_digits (s : pystr) : forallb is_digit s = true -> lstrip s = s.
Proof.
  destruct s as [|c s]; [reflexivity|]. simpl. intros H.
  apply andb_true_iff in H. destruct H as [Hc _].
  rewrite (digit_not_space c Hc). reflexivity.
Qed.

Lemma forallb_rev {A : Type} (f : A -> bool) (l : list A) :
  forallb f l = true -> forallb f (rev l) = true.
Proof.
  rewrite !forallb_forall. intros H x Hx. apply H, in_rev, Hx.
Qed.

Lemma strip_digits (s : pystr) : forallb is_digit s = true -> strip s = s.
Proof.
  intros H. unfold strip. rewrite (lstrip_digits s H).
  rewrite (lstrip_digits (rev s) (forallb_rev _ _ H)). apply rev_involutive.
Qed.

Lemma strip_digits_newline (s : pystr) :
  forallb is_digit s = true -> s <> [] -> strip (s ++ [10]) = s.
Proof.
  intros H Hne. unfold strip.
  assert (Hl : lstrip (s ++ [10]) = s ++ [10]).
  { destruct s as [|c s]; [contradiction|]. simpl in H |- *.
    apply andb_true_iff in H. destruct H as [Hc _].
    rewrite (digit_not_space c Hc). reflexivity. }
  rewrite Hl, rev_app_distr. simpl rev at 1. cbn [app lstrip].
  change (int_space 10) with true. cbv iota.
  rewrite (lstrip_digits (rev s) (forallb_rev _ _ H)). apply rev_involutive.
Qed.

Lemma digits_value_digits (s : pystr) :
  forall (after_digit : bool) (acc : Z) (count : nat),
    forallb is_digit s = true ->
    s <> [] \/ after_digit = true ->
    exists v, digits_value s after_digit acc count
              = Some (v, (count + length s)%nat).
Proof.
  induction s as [|c s IH]; intros b acc count Hs Hne.
  - destruct Hne as [Hne| ->]; [contradiction|]. exists acc. simpl.
    rewrite Nat.add_0_r. reflexivity.
  - simpl in Hs. apply andb_true_iff in Hs. destruct Hs as [Hc Hs].
    cbn [digits_value]. unfold is_digit in Hc.
    destruct (decimal_value c) as [d|]; [|discriminate].
    destruct (IH true (10 * acc + Z.of_N d)%Z (S count) Hs (or_intror eq_refl))
      as [v Hv].
    exists v. rewrite Hv. cbn [length]. do 2 f_equal. lia.
Qed.

(** [int] accepts every non-empty string of decimal digits that is short
    enough. *)
Lemma py_int_digits (s : pystr) :
  forallb is_digit s = true -> s <> [] ->
  (length s <= int_max_str_digits)%nat ->
  exists z, py_int s = Ok z.
Proof.
  intros Hs Hne Hlen. unfold py_int. rewrite (strip_digits s Hs).
  destruct s as [|c ds]; [contradiction|].
  rewrite sign_cases.
  assert (Hc : is_digit c = true)
    by (simpl in Hs; apply andb_true_iff in Hs; tauto).
  destruct (digit_not_sign c Hc) as [H43 H45]. rewrite H43, H45.
  destruct (@digits_value_digits (c :: ds) false 0%Z 0%nat Hs
              (or_introl Hne)) as [v Hv].
  rewrite Hv.
  replace (int_max_str_digits <? 0 + length (c :: ds))%nat with false
    by (symmetry; apply Nat.ltb_ge; exact Hlen).
  eexists. reflexivity.
Qed.

(** A line feed after the digits is stripped. *)
Lemma py_int_digits_newline (s : pystr) :
  forallb is_digit s = true -> s <> [] ->
  py_int (s ++ [10]) = py_int s.
Proof.
  intros Hs Hne. unfold py_int.
  rewrite (@strip_digits_newline s Hs Hne), (@strip_digits s Hs). reflexivity.
Qed.

Lemma chunk_segment_digits (s : pystr) :
  forallb is_digit s = true -> s <> [] -> (length s <= 9)%nat ->
  exists y, chunk_segment s = Ok y /\ chunk_segment (s ++ [10]) = Ok y.
Proof.
  intros Hs Hne Hlen. unfold chunk_segment.
  rewrite (@py_int_digits_newline s Hs Hne).
  destruct (@py_int_digits s Hs Hne) as [z Hz];
    [unfold int_max_str_digits; lia|].
  rewrite Hz. cbn [bind]. eexists. split; reflexivity.
Qed.

Lemma chunk_segment_newline : chunk_segment [10] = Raise ValueError.
Proof. reflexivity. Qed.

(** The slices taken by the loop are the chunks of nine characters. *)
Lemma range_loop_chunks_any {B : Type} (f : pystr -> result B) (s : pystr)
    (fuel : nat) :
  forall i,
    mapM (fun i => f (slice s i (Nat.min (i + 9) (length s))))
         (range_loop fuel i (length s) 9)
    = mapM f (Spec.chunks_loop fuel 9 (skipn i s)).
Proof.
  induction fuel as [|fuel IH]; intros i; [reflexivity|].
  cbn [range_loop Spec.chunks_loop].
  destruct (i <? length s)%nat eqn:E.
  - apply Nat.ltb_lt in E.
    destruct (skipn i s) as [|c rest] eqn:Hskip.
    { apply (f_equal (@length N)) in Hskip. rewrite length_skipn in Hskip.
      simpl in Hskip. lia. }
    rewrite <- Hskip. cbn [mapM]. rewrite slice_chunk, IH.
    rewrite skipn_skipn, (Nat.add_comm 9 i). reflexivity.
  - apply Nat.ltb_ge in E. rewrite skipn_all2 by exact E. reflexivity.
Qed.

Lemma forallb_firstn {A : Type} (f : A -> bool) (k : nat) (l : list A) :
  forallb f l = true -> forallb f (firstn k l) = true.
Proof.
  rewrite !forallb_forall. intros H x Hx. apply H.
  rewrite <- (firstn_skipn k l). apply in_or_app. left. exact Hx.
Qed.

Lemma forallb_skipn {A : Type} (f : A -> bool) (k : nat) (l : list A) :
  forallb f l = true -> forallb f (skipn k l) = true.
Proof.
  rewrite !forallb_forall. intros H x Hx. apply H.
  rewrite <- (firstn_skipn k l). apply in_or_app. right. exact Hx.
Qed.

(** On digits alone every chunk is read. *)
Lemma chunks_digits_ok (fuel : nat) :
  forall d,
    forallb is_digit d = true ->
    exists ys, mapM chunk_segment (Spec.chunks_loop fuel 9 d) = Ok ys.
Proof.
  induction fuel as [|fuel IH]; intros d Hd; [exists []; reflexivity|].
  destruct d as [|c d']; [exists []; reflexivity|].
  cbn [Spec.chunks_loop mapM].
  destruct (@chunk_segment_digits (firstn 9 (c :: d'))) as [y [Hy _]].
  - apply forallb_firstn, Hd.
  - discriminate.
  - rewrite length_firstn. lia.
  - rewrite Hy. cbn [bind].
    destruct (IH (skipn 9 (c :: d')) (forallb_skipn _ _ _ Hd)) as [ys Hys].
    rewrite Hys. cbn [bind]. eexists. reflexivity.
Qed.

(** On digits and a final line feed the last chunk decides: it is the
    line feed alone when the digits fill whole chunks. *)
Lemma chunks_digits_newline (fuel : nat) :
  forall d,
    forallb is_digit d = true ->
    (length d < fuel)%nat ->
    ((length d mod 9 = 0)%nat ->
     mapM chunk_segment (Spec.chunks_loop fuel 9 (d ++ [10]))
     = Raise ValueError)
    /\ ((length d mod 9 <> 0)%nat ->
        exists ys,
          mapM chunk_segment (Spec.chunks_loop fuel 9 (d ++ [10])) = Ok ys).
Proof.
  induction fuel as [|fuel IH]; intros d Hd Hfuel; [lia|].
  assert (Hstep : Spec.chunks_loop (S fuel) 9 (d ++ [10])
                  = firstn 9 (d ++ [10])
                      :: Spec.chunks_loop fuel 9 (skipn 9 (d ++ [10]))).
  { destruct d; reflexivity. }
  rewrite Hstep. cbn [mapM].
  destruct (Nat.le_gt_cases 9 (length d)) as [Hlong|Hshort].
  - rewrite firstn_app, skipn_app.
    replace (9 - length d)%nat with 0%nat by lia.
    rewrite firstn_0, skipn_0, app_nil_r.
    destruct (@chunk_segment_digits (firstn 9 d)) as [y [Hy _]].
    + apply forallb_firstn, Hd.
    + destruct d; [simpl in Hlong; lia | discriminate].
    + rewrite length_firstn. lia.
    + rewrite Hy. cbn [bind].
      destruct (IH (skipn 9 d) (forallb_skipn _ _ _ Hd)) as [Hraise Hok].
      { rewrite length_skipn. lia. }
      assert (Hmod : (length (skipn 9 d) mod 9 = length d mod 9)%nat).
      { rewrite length_skipn.
        replace (length d) with (length d - 9 + 1 * 9)%nat at 2 by lia.
        rewrite Nat.Div0.mod_add. reflexivity. }
      rewrite Hmod in Hraise, Hok. split.
      * intros H0. rewrite (Hraise H0). reflexivity.
      * intros Hn. destruct (Hok Hn) as [ys Hys]. rewrite Hys.
        eexists. reflexivity.
  - rewrite firstn_all2 by (rewrite length_app; simpl; lia).
    rewrite skipn_all2 by (rewrite length_app; simpl; lia).
    assert (Hnil : Spec.chunks_loop fuel 9 [] = [])
      by (destruct fuel; reflexivity).
    rewrite Hnil. cbn [mapM].
    rewrite Nat.mod_small by exact Hshort.
    destruct d as [|c d'].
    + split; [intros _; reflexivity | intros H; contradiction].
    + destruct (@chunk_segment_digits (c :: d') Hd) as [y [_ Hy]];
        [discriminate | simpl in Hshort |- *; lia|].
      rewrite Hy. split; [intros H; discriminate H|].
      intros _. eexists. reflexivity.
Qed.

(** The strings the pattern accepts: decimal digits, with or without a
    final line feed. *)
Lemma drop_digits_split (s : pystr) :
  exists d, forallb is_digit d = true /\ s = d ++ drop_digits s.
Proof.
  induction s as [|c s [d [Hd Hs]]].
  - exists []. split; reflexivity.
  - simpl. destruct (is_digit c) eqn:E.
    + exists (c :: d). split; [simpl; rewrite E; exact Hd|].
      simpl. rewrite <- Hs. reflexivity.
    + exists []. split; reflexivity.
Qed.

Lemma drop_digits_app (d rest : pystr) :
  forallb is_digit d = true -> drop_digits (d ++ rest) = drop_digits rest.
Proof.
  induction d as [|c d IH]; simpl; [reflexivity|].
  intros H. apply andb_true_iff in H. destruct H as [Hc Hd].
  rewrite Hc. apply IH, Hd.
Qed.

Lemma re_match_digits_shape (s : pystr) :
  re_match_digits s = true <->
  exists d, forallb is_digit d = true /\ (s = d \/ s = d ++ [10]).
Proof.
  split.
  - intros Hm. destruct (drop_digits_split s) as [d [Hd Hs]].
    exists d. split; [exact Hd|]. unfold re_match_digits in Hm.
    destruct (drop_digits s) as [|c [|c' rest]].
    + left. rewrite Hs. apply app_nil_r.
    + right. rewrite Hs. f_equal. f_equal.
      destruct (N.eq_dec c 10) as [->|Hne]; [reflexivity|].
      exfalso. destruct c as [|p]; [discriminate|].
      do 4 (try (destruct p as [p|p|]; try discriminate; try congruence)).
    + exfalso. destruct c as [|p]; [discriminate|].
      do 4 (try (destruct p as [p|p|]; try discriminate)).
  - intros [d [Hd [-> | ->]]]; unfold re_match_digits.
    + rewrite <- (app_nil_r d), (drop_digits_app d [] Hd). reflexivity.
    + rewrite (drop_digits_app d [10] Hd). reflexivity.
Qed.

Lemma transform_id_numeric_branch (book_id : pystr) :
  re_match_digits book_id = true ->
  transform_id book_id
  = (ary <- mapM chunk_segment (Spec.chunks 9 book_id) ;; Ok (lit "3", ary)).
Proof.
  intros Hm. unfold transform_id. rewrite Hm.
  change (mapM _ (py_range 0 (length book_id) 9))
    with (mapM (fun i =>
                  chunk_segment
                    (slice book_id i (Nat.min (i + 9) (length book_id))))
               (range_loop (length book_id) 0 (length book_id) 9)).
  rewrite range_loop_chunks_any. reflexivity.
Qed.

Lemma transform_id_raises_iff (book_id : pystr) (e : exn) :
  transform_id book_id = Raise e <->
  e = ValueError /\ whole_chunks_then_newline book_id.
Proof.
  split.
  - intros H. destruct (re_match_digits book_id) eqn:Em.
    + rewrite (@transform_id_numeric_branch book_id Em) in H.
      apply re_match_digits_shape in Em.
      destruct Em as [d [Hd [-> | ->]]].
      * destruct (@chunks_digits_ok (length d) d Hd) as [ys Hys].
        unfold Spec.chunks in H. rewrite Hys in H. discriminate.
      * destruct (@chunks_digits_newline (length (d ++ [10])) d Hd)
          as [Hraise Hok].
        { rewrite length_app. simpl. lia. }
        unfold Spec.chunks in H.
        destruct (Nat.eq_dec (length d mod 9) 0) as [H0|Hn].
        -- rewrite (Hraise H0) in H. injection H as <-.
           split; [reflexivity|]. exists d. auto.
        -- destruct (Hok Hn) as [ys Hys]. rewrite Hys in H. discriminate.
    + unfold transform_id in H. rewrite Em in H. discriminate.
  - intros [-> [d [Hd [H0 ->]]]].
    assert (Em : re_match_digits (d ++ [10]) = true).
    { apply re_match_digits_shape. exists d. auto. }
    rewrite (transform_id_numeric_branch _ Em). unfold Spec.chunks.
    destruct (@chunks_digits_newline (length (d ++ [10])) d Hd) as [Hraise _].
    { rewrite length_app. simpl. lia. }
    rewrite (Hraise H0). reflexivity.
Qed.

(** [transform_id] raises on exactly one kind of identifier: whole
    chunks of nine decimal digits followed by a line feed (the line feed
    alone included); the exception is then [ValueError], and no other
    exception is ever raised. *)
Theorem transform_id_raises_exactly (book_id : pystr) (e : exn) :
  transform_id book_id = Raise e <->
  e = ValueError /\ whole_chunks_then_newline book_id.
Proof. apply transform_id_raises_iff. Qed.

Lemma whole_chunks_no_surrogate (s : pystr) :
  whole_chunks_then_newline s -> existsb is_surrogate s = false.
Proof.
  intros [d [Hd [_ ->]]]. rewrite existsb_app. simpl.
  rewrite orb_false_r.
  induction d as [|c d IH]; simpl; [reflexivity|].
  simpl in Hd. apply andb_true_iff in Hd. destruct Hd as [Hc Hd].
  rewrite (digit_not_surrogate c Hc). apply IH, Hd.
Qed.

Lemma calculate_book_str_id_raises_iff (book_id : pystr) (e : exn) :
  calculate_book_str_id book_id = Raise e <->
  (e = UnicodeEncodeError /\ existsb is_surrogate book_id = true)
  \/ (e = ValueError /\ whole_chunks_then_newline book_id).
Proof.
  rewrite calculate_book_str_id_bind. unfold md5_hex_of_str, encode_utf8.
  split.
  - destruct (existsb is_surrogate book_id) eqn:Es; cbn [bind].
    + intros H. injection H as <-. left. auto.
    + destruct (transform_id book_id) as [[code segs]|e'] eqn:Et; cbn [bind];
        [discriminate|].
      intros H. injection H as <-. right.
      apply transform_id_raises_iff. exact Et.
  - intros [[-> Hs] | [-> Hw]].
    + rewrite Hs. reflexivity.
    + rewrite (whole_chunks_no_surrogate Hw). cbn [bind].
      assert (Ht : transform_id book_id = Raise ValueError)
        by (apply transform_id_raises_iff; auto).
      rewrite Ht. reflexivity.
Qed.

(** [calculate_book_str_id] raises in two cases only: on an identifier
    that holds a lone surrogate, with [UnicodeEncodeError] from the first
    encoding, and on whole chunks of nine decimal digits followed by a
    line feed, with [ValueError] from [transform_id]. *)
Theorem calculate_book_str_id_raises_exactly (book_id : pystr) (e : exn) :
  calculate_book_str_id book_id = Raise e <->
  (e = UnicodeEncodeError /\ existsb is_surrogate book_id = true)
  \/ (e = ValueError /\ whole_chunks_then_newline book_id).
Proof. apply calculate_book_str_id_raises_iff. Qed.

(** ** The identifier, case by case *)

Lemma not_whole_chunks (s : pystr) :
  last s 0 <> 10 -> ~ whole_chunks_then_newline s.
Proof.
  intros Hl [d [_ [_ ->]]]. apply Hl. apply last_last.
Qed.

(** C1 (as amended).  On every identifier without a surrogate that is
    not whole chunks of nine decimal digits followed by a line feed,
    [transform_id] returns a mode code and segments and
    [calculate_book_str_id] returns the string of the specification:
    the first 3 characters of the hexadecimal MD5 digest of the UTF-8
    bytes of the identifier, the mode code, ["2"], the last 2 characters
    of the digest; each segment in order behind the hexadecimal count of
    its characters, zero-padded to at least two digits, with ["g"] after
    every segment but the last; the first (20 minus length) characters
    of the digest when the string is shorter than 20; and the first 3
    characters of the MD5 digest of the UTF-8 bytes of the string so
    far.  On the other identifiers it raises: [UnicodeEncodeError] on a
    surrogate, [ValueError] on whole chunks of nine digits followed by a
    line feed.  The count has exactly two digits in front of every
    segment shorter than 256 characters. *)
Theorem calculate_book_str_id_amended (book_id : pystr) :
  (existsb is_surrogate book_id = false ->
   ~ whole_chunks_then_newline book_id ->
   exists code segs,
     transform_id book_id = Ok (code, segs)
     /\ calculate_book_str_id book_id
        = Ok (Spec.book_str_id (MD5.hexdigest (utf8_bytes book_id))
                               code segs))
  /\ (existsb is_surrogate book_id = true ->
      calculate_book_str_id book_id = Raise UnicodeEncodeError)
  /\ (whole_chunks_then_newline book_id ->
      calculate_book_str_id book_id = Raise ValueError)
  /\ (forall seg,
         (length seg < 256)%nat ->
         exists high low, Spec.segment seg = high :: low :: seg).
Proof.
  split; [|split; [|split]].
  - intros Hs Hw.
    destruct (transform_id book_id) as [[code segs]|e] eqn:Et.
    + exists code, segs. split; [reflexivity|].
      rewrite calculate_book_str_id_bind.
      unfold md5_hex_of_str, encode_utf8. rewrite Hs. cbn [bind].
      rewrite Et. reflexivity.
    + exfalso. apply Hw.
      apply (proj1 (@transform_id_raises_iff book_id e)) in Et.
      exact (proj2 Et).
  - intros Hs. apply (proj2 (@calculate_book_str_id_raises_iff book_id
                               UnicodeEncodeError)).
    left. auto.
  - intros Hw. apply (proj2 (@calculate_book_str_id_raises_iff book_id
                               ValueError)).
    right. auto.
  - intros seg Hlen. unfold Spec.segment.
    pose proof (@segment_prefix_two_digits seg Hlen) as H2.
    destruct (Spec.zero_pad2 (hex (N.of_nat (length seg))))
      as [|high [|low [|c rest]]]; try discriminate H2.
    exists high, low. reflexivity.
Qed.

Lemma calculate_book_str_id_amended_witness :
  exists code segs,
    transform_id (lit "695233") = Ok (code, segs)
    /\ calculate_book_str_id (lit "695233")
       = Ok (Spec.book_str_id (MD5.hexdigest (utf8_bytes (lit "695233")))
                              code segs).
Proof.
  apply (proj1 (calculate_book_str_id_amended (lit "695233"))).
  - reflexivity.
  - apply not_whole_chunks. vm_compute. discriminate.
Defined.

(** C1 as stated fails.  An identifier of 128 letters has one segment
    of 256 characters; the count written in front of it is ["100"],
    three digits and not two, so that the segment starts at position 10
    of the result and the result has 269 characters. *)
Lemma calculate_book_str_id_three_digit_count :
  exists s,
    transform_id (repeat 97 128)
    = Ok (lit "4", [concat (repeat (lit "61") 128)])
    /\ length (concat (repeat (lit "61") 128)) = 256%nat
    /\ calculate_book_str_id (repeat 97 128) = Ok s
    /\ firstn 3 (skipn 7 s) = lit "100"
    /\ firstn 256 (skipn 10 s) = concat (repeat (lit "61") 128)
    /\ length s = 269%nat.
Proof.
  eexists. split; [vm_compute; reflexivity|].
  split; [reflexivity|].
  split; [vm_compute; reflexivity|].
  split; [reflexivity|]. split; reflexivity.
Qed.

(** ** The segments of a numeric identifier *)

Lemma chunks_loop_length (fuel : nat) :
  forall s,
    (length s <= fuel)%nat ->
    length (Spec.chunks_loop fuel 9 s) = ((length s + 8) / 9)%nat.
Proof.
  induction fuel as [|fuel IH]; intros s Hlen.
  - destruct s; [reflexivity | simpl in Hlen; lia].
  - destruct s as [|c s']; [reflexivity|].
    cbn [Spec.chunks_loop length]. rewrite IH.
    + rewrite length_skipn. cbn [length].
      destruct (Nat.le_gt_cases 9 (S (length s'))) as [H|H].
      * replace (S (length s') + 8)%nat
          with ((S (length s') - 9 + 8) + 1 * 9)%nat by lia.
        rewrite Nat.div_add by discriminate. lia.
      * replace (S (length s') - 9)%nat with 0%nat by lia.
        rewrite (Nat.div_small (0 + 8) 9) by lia.
        assert (Hq : ((S (length s') + 8) / 9 = 1)%nat).
        { replace (S (length s') + 8)%nat
            with (length s' + 1 * 9)%nat by lia.
          rewrite Nat.div_add by discriminate.
          rewrite Nat.div_small by lia. reflexivity. }
        lia.
    + rewrite length_skipn. cbn [length] in Hlen |- *. lia.
Qed.

Lemma chunks_loop_numeric (fuel : nat) :
  forall s,
    Spec.numeric s = true ->
    Forall (fun chunk =>
              Spec.numeric chunk = true
              /\ (1 <= length chunk <= 9)%nat)
           (Spec.chunks_loop fuel 9 s).
Proof.
  induction fuel as [|fuel IH]; intros s Hs; [constructor|].
  destruct s as [|c s']; [constructor|].
  cbn [Spec.chunks_loop]. constructor.
  - split; [apply numeric_firstn, Hs|].
    rewrite length_firstn. cbn [length]. lia.
  - apply IH, numeric_skipn, Hs.
Qed.

Lemma base10_bound (s : pystr) :
  Spec.numeric s = true ->
  forall acc,
    fold_left (fun a c => 10 * a + (c - 48)) s acc
    < (acc + 1) * 10 ^ N.of_nat (length s).
Proof.
  unfold Spec.numeric. induction s as [|c s IH]; intros Hs acc.
  - simpl. lia.
  - simpl in Hs. apply andb_true_iff in Hs. destruct Hs as [Hc Hs].
    unfold is_ascii_digit in Hc. apply andb_true_iff in Hc.
    destruct Hc as [Hlo Hhi]. apply N.leb_le in Hlo, Hhi.
    cbn [fold_left length]. rewrite Nat2N.inj_succ, N.pow_succ_r'.
    eapply N.lt_le_trans; [apply IH, Hs|].
    set (p := 10 ^ N.of_nat (length s)).
    replace ((acc + 1) * (10 * p)) with ((10 * acc + 10) * p) by lia.
    apply N.mul_le_mono_r. lia.
Qed.

Lemma hex_loop_short (fuel : nat) :
  forall n acc k,
    n < 16 ^ N.of_nat (S k) ->
    (length (hex_loop fuel n acc) <= S k + length acc)%nat.
Proof.
  induction fuel as [|fuel IH]; intros n acc k Hn; [simpl; lia|].
  rewrite hex_loop_S. destruct (n / 16 =? 0) eqn:E; [simpl; lia|].
  apply N.eqb_neq in E.
  destruct k as [|k].
  - exfalso. apply E. apply N.div_small. exact Hn.
  - specialize (IH (n / 16) (hexdigit (n mod 16) :: acc) k).
    cbn [length] in IH.
    assert (Hq : n / 16 < 16 ^ N.of_nat (S k)).
    { apply N.Div0.div_lt_upper_bound.
      rewrite (Nat2N.inj_succ (S k)), N.pow_succ_r' in Hn. exact Hn. }
    specialize (IH Hq). lia.
Qed.

Lemma hex_short (n : N) (k : nat) :
  n < 16 ^ N.of_nat (S k) -> (length (hex n) <= S k)%nat.
Proof.
  intros H. unfold hex.
  pose proof (@hex_loop_short (S (N.size_nat n)) n [] k H) as Hl.
  change (length (@nil N)) with 0%nat in Hl. rewrite Nat.add_0_r in Hl.
  exact Hl.
Qed.

(** An identifier of ASCII decimal digits is cut into
    ceil(length / 9) segments of 1 to 8 hexadecimal digits each, under
    mode code ["3"]. *)
Theorem transform_id_numeric_segments (book_id code : pystr)
    (segs : list pystr) :
  Spec.numeric book_id = true ->
  transform_id book_id = Ok (code, segs) ->
  code = lit "3"
  /\ length segs = ((length book_id + 8) / 9)%nat
  /\ Forall (fun seg => (1 <= length seg <= 8)%nat /\ hex_string seg) segs.
Proof.
  intros Hn Ht.
  rewrite (@transform_id_numeric book_id Hn) in Ht.
  unfold Spec.transform_id in Ht. rewrite Hn in Ht.
  injection Ht as <- <-. split; [reflexivity|]. split.
  - rewrite length_map. apply chunks_loop_length. lia.
  - apply Forall_forall. intros seg Hseg. apply in_map_iff in Hseg.
    destruct Hseg as [chunk [<- Hchunk]].
    pose proof (@chunks_loop_numeric (length book_id) book_id Hn) as Hall.
    rewrite Forall_forall in Hall.
    destruct (Hall chunk Hchunk) as [Hcn [_ Hlen]].
    split; [split; [apply hex_nonempty|] | apply hex_hex].
    apply hex_short.
    pose proof (@base10_bound chunk Hcn 0) as Hb.
    fold (Spec.base10 chunk) in Hb.
    eapply N.lt_le_trans; [exact Hb|].
    eapply N.le_trans with (m := 10 ^ 9).
    + rewrite N.add_0_l, N.mul_1_l. apply N.pow_le_mono_r; lia.
    + vm_compute. discriminate.
Qed.

Lemma transform_id_numeric_segments_witness :
  lit "3" = lit "3"
  /\ length [lit "75bcd15"; lit "c"]
     = ((length (lit "123456789012") + 8) / 9)%nat
  /\ Forall (fun seg => (1 <= length seg <= 8)%nat /\ hex_string seg)
            [lit "75bcd15"; lit "c"].
Proof.
  apply (@transform_id_numeric_segments (lit "123456789012"));
    vm_compute; reflexivity.
Defined.

(** ** Leading zeros of a chunk *)

Lemma chunks_loop_more_fuel (f1 : nat) :
  forall f2 s,
    (length s <= f1)%nat -> (length s <= f2)%nat ->
    Spec.chunks_loop f1 9 s = Spec.chunks_loop f2 9 s.
Proof.
  induction f1 as [|f1 IH]; intros f2 s H1 H2.
  - destruct s; [destruct f2; reflexivity | simpl in H1; lia].
  - destruct s as [|c s']; [destruct f2; reflexivity|].
    destruct f2 as [|f2]; [simpl in H2; lia|].
    cbn [Spec.chunks_loop]. f_equal.
    apply IH; rewrite length_skipn; cbn [length] in H1, H2 |- *; lia.
Qed.

Lemma chunks_cons (s : pystr) :
  s <> [] ->
  Spec.chunks 9 s = firstn 9 s :: Spec.chunks 9 (skipn 9 s).
Proof.
  intros Hne. unfold Spec.chunks.
  destruct s as [|c s']; [contradiction|].
  cbn [length Spec.chunks_loop]. f_equal.
  apply chunks_loop_more_fuel; rewrite length_skipn; cbn [length]; lia.
Qed.

Lemma chunks_single (s : pystr) :
  (1 <= length s <= 9)%nat -> Spec.chunks 9 s = [s].
Proof.
  intros H. rewrite chunks_cons by (destruct s; [simpl in H; lia | discriminate]).
  rewrite firstn_all2 by lia. rewrite skipn_all2 by lia. reflexivity.
Qed.

Lemma chunks_app_whole (n : nat) :
  forall p r,
    length p = (9 * n)%nat ->
    Spec.chunks 9 (p ++ r) = Spec.chunks 9 p ++ Spec.chunks 9 r.
Proof.
  induction n as [|n IH]; intros p r Hlen.
  - destruct p; [reflexivity | simpl in Hlen; lia].
  - assert (Hp : p <> []) by (destruct p; [simpl in Hlen; lia | discriminate]).
    rewrite (chunks_cons Hp).
    assert (Hpr : p ++ r <> []) by (destruct p; [contradiction | discriminate]).
    rewrite (chunks_cons Hpr).
    rewrite firstn_app, skipn_app.
    replace (9 - length p)%nat with 0%nat by lia.
    rewrite firstn_0, skipn_0, app_nil_r.
    rewrite (IH (skipn 9 p) r) by (rewrite length_skipn; lia).
    reflexivity.
Qed.

Lemma numeric_app (s t : pystr) :
  Spec.numeric s = true -> Spec.numeric t = true ->
  Spec.numeric (s ++ t) = true.
Proof. unfold Spec.numeric. intros Hs Ht. rewrite forallb_app, Hs, Ht. reflexivity. Qed.

(** [transform_id] does not see a zero at the head of the last chunk:
    after whole chunks of nine digits, the digits [0 s] and the digits
    [s] give the same mode code and segments.  Identifiers of different
    lengths thus share their segments. *)
Theorem transform_id_drops_leading_zero (n : nat) (p s : pystr) :
  Spec.numeric p = true -> length p = (9 * n)%nat ->
  Spec.numeric s = true -> (1 <= length s <= 8)%nat ->
  transform_id (p ++ 48 :: s) = transform_id (p ++ s).
Proof.
  intros Hp Hlen Hs Hs8.
  assert (H0s : Spec.numeric (48 :: s) = true) by exact Hs.
  rewrite (@transform_id_numeric (p ++ 48 :: s) (numeric_app p (48 :: s) Hp H0s)).
  rewrite (@transform_id_numeric (p ++ s) (numeric_app p s Hp Hs)).
  unfold Spec.transform_id.
  rewrite (numeric_app p (48 :: s) Hp H0s), (numeric_app p s Hp Hs).
  rewrite (@chunks_app_whole n p (48 :: s) Hlen).
  rewrite (@chunks_app_whole n p s Hlen).
  rewrite (@chunks_single (48 :: s)) by (cbn [length]; lia).
  rewrite (@chunks_single s) by lia.
  rewrite !map_app. reflexivity.
Qed.

Lemma transform_id_drops_leading_zero_witness :
  transform_id (lit "123456789" ++ 48 :: lit "7")
  = transform_id (lit "123456789" ++ lit "7").
Proof.
  apply (@transform_id_drops_leading_zero 1 (lit "123456789") (lit "7"));
    [reflexivity | reflexivity | reflexivity | simpl; lia].
Defined.

(** * Further properties of the queries *)

(** ** Stability of the sort *)

Lemma insert_keyed_Forall {K A : Type} (lt : K -> K -> result bool)
    (Q : K * A -> Prop) (x : K * A) (l : list (K * A)) :
  forall r,
    Forall Q (x :: l) -> insert_keyed lt x l = Ok r -> Forall Q r.
Proof.
  induction l as [|y l IH]; intros r HQ H.
  - simpl in H. injection H as <-. exact HQ.
  - inversion HQ as [|? ? Hx Hyl]; subst.
    inversion Hyl as [|? ? Hy Hl]; subst.
    simpl in H. destruct (lt (fst y) (fst x)) as [[|]|e]; cbn [bind] in H;
      [| |discriminate].
    + destruct (insert_keyed lt x l) as [r'|e]; cbn [bind] in H;
        [|discriminate].
      injection H as <-. constructor; [exact Hy|].
      apply IH; [constructor; assumption | reflexivity].
    + injection H as <-. exact HQ.
Qed.

Lemma sort_keyed_Forall {K A : Type} (lt : K -> K -> result bool)
    (Q : K * A -> Prop) (l : list (K * A)) :
  forall r, Forall Q l -> sort_keyed lt l = Ok r -> Forall Q r.
Proof.
  induction l as [|x l IH]; intros r HQ H.
  - simpl in H. injection H as <-. constructor.
  - inversion HQ as [|? ? Hx Hl]; subst. simpl in H.
    destruct (sort_keyed lt l) as [s|e]; cbn [bind] in H; [|discriminate].
    apply (@insert_keyed_Forall K A lt Q x s r); [|exact H].
    constructor; [exact Hx | apply IH; [exact Hl | reflexivity]].
Qed.

Section StableSorting.

Variables (K A : Type) (lt : K -> K -> result bool).
Variables (ltb : K -> K -> bool) (good : K -> Prop) (same : K -> bool).

Hypothesis lt_good : forall a b, good a -> good b -> lt a b = Ok (ltb a b).
Hypothesis ltb_same :
  forall a b, same a = true -> same b = true -> ltb a b = false.

Lemma insert_keyed_filter (x : K * A) (l r : list (K * A)) :
  good (fst x) -> Forall (fun p => good (fst p)) l ->
  insert_keyed lt x l = Ok r ->
  filter (fun p => same (fst p)) r = filter (fun p => same (fst p)) (x :: l).
Proof.
  intros Hx Hl. revert r. induction Hl as [|y l Hy Hl IH]; intros r H.
  - simpl in H. injection H as <-. reflexivity.
  - simpl in H. rewrite (lt_good Hy Hx) in H. cbn [bind] in H.
    destruct (ltb (fst y) (fst x)) eqn:E.
    + destruct (insert_keyed lt x l) as [r'|e]; cbn [bind] in H;
        [|discriminate].
      injection H as <-. specialize (IH r' eq_refl).
      cbn [filter] in IH |- *. rewrite IH.
      destruct (same (fst y)) eqn:Ey, (same (fst x)) eqn:Ex; try reflexivity.
      rewrite (@ltb_same (fst y) (fst x) Ey Ex) in E. discriminate.
    + injection H as <-. reflexivity.
Qed.

Lemma sort_keyed_filter (l : list (K * A)) :
  Forall (fun p => good (fst p)) l ->
  forall r,
    sort_keyed lt l = Ok r ->
    filter (fun p => same (fst p)) r = filter (fun p => same (fst p)) l.
Proof.
  induction 1 as [|x l Hx Hl IH]; intros r H.
  - simpl in H. injection H as <-. reflexivity.
  - simpl in H. destruct (sort_keyed lt l) as [s|e] eqn:Es; cbn [bind] in H;
      [|discriminate].
    pose proof (@sort_keyed_Forall K A lt (fun p => good (fst p)) l s Hl Es)
      as Hg.
    rewrite (@insert_keyed_filter x s r Hx Hg H).
    cbn [filter]. rewrite (IH s eq_refl). reflexivity.
Qed.

Variables (key : A -> result K) (keyf : A -> K).

(** Items of one key leave [sorted] in the order they came in. *)
Lemma sorted_by_stable (l r : list A) :
  (forall x, In x l -> key x = Ok (keyf x) /\ good (keyf x)) ->
  sorted_by lt key l = Ok r ->
  filter (fun x => same (keyf x)) r = filter (fun x => same (keyf x)) l.
Proof.
  intros Hkey H. unfold sorted_by in H.
  rewrite (mapM_pure key keyf) in H by (intros x Hx; apply Hkey, Hx).
  cbn [bind] in H. rewrite combine_keys in H.
  destruct (sort_keyed lt (map (fun x => (keyf x, x)) l)) as [s|e] eqn:Es;
    cbn [bind] in H; [|discriminate].
  injection H as <-.
  assert (Hf : filter (fun p => same (fst p)) s
               = filter (fun p => same (fst p))
                        (map (fun x => (keyf x, x)) l)).
  { apply sort_keyed_filter; [|exact Es].
    apply Forall_forall. intros p Hp. apply in_map_iff in Hp.
    destruct Hp as [x [<- Hx]]. apply Hkey, Hx. }
  assert (Hshape : forall t : list (K * A),
             Forall (fun p => fst p = keyf (snd p)) t ->
             filter (fun x => same (keyf x)) (map snd t)
             = map snd (filter (fun p => same (fst p)) t)).
  { induction 1 as [|p t Hp Ht IHt]; [reflexivity|].
    cbn [map filter]. rewrite <- Hp, IHt.
    destruct (same (fst p)); reflexivity. }
  assert (Hpairs : forall t : list A,
             filter (fun p : K * A => same (fst p))
                    (map (fun x => (keyf x, x)) t)
             = map (fun x => (keyf x, x)) (filter (fun x => same (keyf x)) t)).
  { induction t as [|x t IHt]; [reflexivity|].
    cbn [map filter fst]. rewrite IHt. destruct (same (keyf x)); reflexivity. }
  rewrite Hshape.
  - rewrite Hf, Hpairs, map_map. cbn [snd]. apply map_id.
  - apply (@sort_keyed_Forall K A lt (fun p => fst p = keyf (snd p))
             (map (fun x => (keyf x, x)) l) s); [|exact Es].
    apply Forall_forall. intros p Hp. apply in_map_iff in Hp.
    destruct Hp as [x [<- _]]. reflexivity.
Qed.

End StableSorting.

(** ** The library list in order *)

Lemma py_lt_int_like (a b : json) :
  int_like a -> int_like b -> py_lt a b = Ok (int_ltb a b).
Proof.
  intros [u Hu] [v Hv]. unfold int_ltb. rewrite Hu, Hv.
  apply py_lt_int; assumption.
Qed.

Lemma int_ltb_asym (a b : json) : int_ltb a b = true -> int_ltb b a = false.
Proof.
  unfold int_ltb. destruct (as_int a) as [u|], (as_int b) as [v|];
    try discriminate.
  intros H. apply Z.ltb_lt in H. apply Z.ltb_ge. lia.
Qed.

Lemma int_ltb_same (u : Z) (a b : json) :
  sort_is u a = true -> sort_is u b = true -> int_ltb a b = false.
Proof.
  unfold sort_is, int_ltb.
  destruct (as_int a) as [x|], (as_int b) as [y|]; try discriminate.
  intros Hx Hy. apply Z.eqb_eq in Hx, Hy. apply Z.ltb_ge. lia.
Qed.

Lemma book_key_ok (x : json) :
  book_ok x = true ->
  py_getitem x (lit "sort") = Ok (field x (lit "sort") JNull)
  /\ as_int (field x (lit "sort") JNull) = Some (sort_value x).
Proof.
  destruct x as [| | | | |d]; try discriminate.
  unfold book_ok, sort_value, py_getitem, field.
  destruct (dict_get d (lit "sort")) as [v|]; [|discriminate].
  destruct (as_int v); [auto | discriminate].
Qed.

Lemma get_notebooklist_order (r : response) (d : list (pystr * json))
    (l : list json) :
  ok r = true ->
  json_of r = Ok (JObj d) ->
  field (JObj d) (lit "books") (JArr []) = JArr l ->
  forallb book_ok l = true ->
  exists sorted,
    get_notebooklist r = Ok (Some sorted)
    /\ Permutation l sorted
    /\ Sorted (fun x y => (sort_value x <= sort_value y)%Z) sorted
    /\ forall u, filter (has_sort u) sorted = filter (has_sort u) l.
Proof.
  intros Hok Hj Hl Hwf. rewrite forallb_forall in Hwf.
  assert (Hkey : forall x, In x l ->
             py_getitem x (lit "sort") = Ok (field x (lit "sort") JNull)
             /\ int_like (field x (lit "sort") JNull)).
  { intros x Hx. destruct (book_key_ok x (Hwf x Hx)) as [Hk Hu].
    split; [exact Hk | eexists; exact Hu]. }
  destruct (@sorted_by_sorted _ _ py_lt int_ltb int_like
              py_lt_int_like int_ltb_asym
              (fun x => py_getitem x (lit "sort"))
              (fun x => field x (lit "sort") JNull) l Hkey)
    as [sorted [Hs [Hp Hsorted]]].
  exists sorted. split; [|split; [exact Hp|split]].
  - unfold get_notebooklist. rewrite Hok, Hj. cbn [bind].
    rewrite py_get_object, Hl. cbn [bind]. rewrite Hs. reflexivity.
  - apply Sorted_impl_in with (2 := Hsorted). intros x y Hx Hy.
    assert (Hlx : In x l)
      by (apply Permutation_in with (l := sorted); [symmetry|]; assumption).
    assert (Hly : In y l)
      by (apply Permutation_in with (l := sorted); [symmetry|]; assumption).
    unfold int_ltb.
    rewrite (proj2 (book_key_ok x (Hwf x Hlx))).
    rewrite (proj2 (book_key_ok y (Hwf y Hly))).
    intros H. apply Z.ltb_ge in H. exact H.
  - intros u.
    apply (@sorted_by_stable _ _ py_lt int_ltb int_like (sort_is u)
             py_lt_int_like (int_ltb_same u)
             (fun x => py_getitem x (lit "sort"))
             (fun x => field x (lit "sort") JNull) l sorted Hkey Hs).
Qed.

(** On a success response whose [books] is absent or a list of records
    with an integer [sort], [get_notebooklist] returns all the records in
    ascending order of [sort], records of equal [sort] in the order
    upstream sent them. *)
Theorem get_notebooklist_sorted (r : response) (d : list (pystr * json))
    (l : list json) :
  ok r = true ->
  json_of r = Ok (JObj d) ->
  field (JObj d) (lit "books") (JArr []) = JArr l ->
  forallb book_ok l = true ->
  exists sorted,
    get_notebooklist r = Ok (Some sorted)
    /\ Permutation l sorted
    /\ Sorted (fun x y => (sort_value x <= sort_value y)%Z) sorted
    /\ forall u, filter (has_sort u) sorted = filter (has_sort u) l.
Proof. apply get_notebooklist_order. Qed.

Lemma get_notebooklist_sorted_witness :
  exists sorted,
    get_notebooklist
      (success
         (JObj [(lit "books",
                 JArr [JObj [(lit "bookId", JStr (lit "b")); (lit "sort", JInt 20)];
                       JObj [(lit "bookId", JStr (lit "a")); (lit "sort", JInt 10)]])]))
    = Ok (Some sorted)
    /\ Permutation
         [JObj [(lit "bookId", JStr (lit "b")); (lit "sort", JInt 20)];
          JObj [(lit "bookId", JStr (lit "a")); (lit "sort", JInt 10)]]
         sorted
    /\ Sorted (fun x y => (sort_value x <= sort_value y)%Z) sorted
    /\ forall u,
        filter (has_sort u) sorted
        = filter (has_sort u)
            [JObj [(lit "bookId", JStr (lit "b")); (lit "sort", JInt 20)];
             JObj [(lit "bookId", JStr (lit "a")); (lit "sort", JInt 10)]].
Proof.
  apply (@get_notebooklist_sorted
           (success
              (JObj [(lit "books",
                      JArr [JObj [(lit "bookId", JStr (lit "b")); (lit "sort", JInt 20)];
                            JObj [(lit "bookId", JStr (lit "a")); (lit "sort", JInt 10)]])]))
           [(lit "books",
             JArr [JObj [(lit "bookId", JStr (lit "b")); (lit "sort", JInt 20)];
                   JObj [(lit "bookId", JStr (lit "a")); (lit "sort", JInt 10)]])]);
    reflexivity.
Defined.

(** ** Bookmarks of one position *)

Lemma key_ltb_same (u s : Z) (a b : json * Z) :
  key_is u s a = true -> key_is u s b = true -> key_ltb a b = false.
Proof.
  unfold key_is, key_ltb.
  destruct (as_int (fst a)) as [x|], (as_int (fst b)) as [y|];
    try discriminate.
  intros Ha Hb. apply andb_true_iff in Ha, Hb.
  destruct Ha as [Hx Hsa], Hb as [Hy Hsb].
  apply Z.eqb_eq in Hx, Hy, Hsa, Hsb. subst x y.
  rewrite Z.eqb_refl. apply Z.ltb_ge. lia.
Qed.

(** The sort of [get_bookmark_list] is stable: the bookmarks of one
    chapter and one start of range are returned in the order upstream
    sent them. *)
Theorem get_bookmark_list_stable (r : response) (d : list (pystr * json))
    (l sorted : list json) :
  ok r = true ->
  json_of r = Ok (JObj d) ->
  field (JObj d) (lit "updated") (JArr []) = JArr l ->
  forallb bookmark_ok l = true ->
  get_bookmark_list r = Ok (Some sorted) ->
  forall u s, filter (at_position u s) sorted = filter (at_position u s) l.
Proof.
  intros Hok Hj Hl Hwf H u s. rewrite forallb_forall in Hwf.
  unfold get_bookmark_list in H. rewrite Hok, Hj in H. cbn [bind] in H.
  rewrite py_get_object, Hl in H. cbn [bind py_iter] in H.
  destruct (sorted_by tuple_lt bookmark_key l) as [sorted'|e] eqn:Es;
    cbn [bind] in H; [|discriminate].
  injection H as <-.
  apply (@sorted_by_stable _ _ tuple_lt key_ltb int_key (key_is u s)
           tuple_lt_int_key (key_ltb_same u s) bookmark_key key_of
           l sorted'); [|exact Es].
  intros x Hx. destruct (bookmark_key_ok x (Hwf x Hx)) as [Hk Hu].
  split; [exact Hk | eexists; exact Hu].
Qed.

Lemma get_bookmark_list_stable_witness :
  filter (at_position 2 5)
    [noted_bookmark 1 "0-3" "first"; noted_bookmark 2 "5-9" "second";
     noted_bookmark 2 "5-7" "third"]
  = filter (at_position 2 5) tied_bookmarks.
Proof.
  apply (@get_bookmark_list_stable
           (success (JObj [(lit "updated", JArr tied_bookmarks)]))
           [(lit "updated", JArr tied_bookmarks)]
           tied_bookmarks
           [noted_bookmark 1 "0-3" "first"; noted_bookmark 2 "5-9" "second";
            noted_bookmark 2 "5-7" "third"]);
    reflexivity.
Defined.

(** The two bookmarks at chapter 2, start 5, come out in the order of
    upstream, the one with the longer range first. *)
Example tied_bookmarks_keep_their_order :
  get_bookmark_list (success (JObj [(lit "updated", JArr tied_bookmarks)]))
  = Ok (Some [noted_bookmark 1 "0-3" "first";
              noted_bookmark 2 "5-9" "second";
              noted_bookmark 2 "5-7" "third"])
  /\ filter (at_position 2 5) tied_bookmarks
     = [noted_bookmark 2 "5-9" "second"; noted_bookmark 2 "5-7" "third"].
Proof. split; reflexivity. Qed.

(** ** The cookie jar *)

Lemma parse_loop (morsels : list (pystr * pystr)) :
  forall (d : list (pystr * pystr)) (jar : option cookiejar),
    fold_left
      (fun (st : list (pystr * pystr) * option cookiejar) morsel =>
         let cookies_dict := dict_set (fst st) (fst morsel) (snd morsel) in
         (cookies_dict, Some (cookiejar_from_dict cookies_dict)))
      morsels (d, jar)
    = (cookies_of morsels d,
       match morsels with [] => jar | _ => Some (cookies_of morsels d) end).
Proof.
  induction morsels as [|m morsels IH]; intros d jar; [reflexivity|].
  cbn [fold_left fst snd]. cbv zeta. rewrite IH.
  unfold cookies_of. cbn [fold_left]. destruct morsels; reflexivity.
Qed.




Lemma parse_cookie_string_loaded
    (load : pystr -> result (list (pystr * pystr)))
    (cookie_string : pystr) (morsels : list (pystr * pystr)) :
  load cookie_string = Ok morsels ->
  _parse_cookie_string load cookie_string
  = Ok (match morsels with
        | [] => None
        | _ => Some (cookies_of morsels [])
        end).
Proof.
  intros H. unfold _parse_cookie_string. rewrite H. cbn [bind].
  rewrite parse_loop. reflexivity.
Qed.

Lemma parse_cookie_string_raises
    (load : pystr -> result (list (pystr * pystr)))
    (cookie_string : pystr) (e : exn) :
  _parse_cookie_string load cookie_string = Raise e
  <-> load cookie_string = Raise e.
Proof.
  unfold _parse_cookie_string.
  destruct (load cookie_string) as [morsels|e']; cbn [bind]; split;
    intros H; try discriminate; congruence.
Qed.



(** ** Construction *)

Lemma init_cases
    (load : pystr -> result (list (pystr * pystr)))
    (send : option cookiejar -> pystr -> result response)
    (cookie_string : pystr) :
  match load cookie_string with
  | Raise e => __init__ load send cookie_string = Raise e
  | Ok [] =>
      match send None WEREAD_URL with
      | Raise e => __init__ load send cookie_string = Raise e
      | Ok _ => __init__ load send cookie_string = Raise AttributeError
      end
  | Ok (_ :: _) =>
      exists jar,
        _parse_cookie_string load cookie_string = Ok (Some jar)
        /\ match send (Some jar) WEREAD_URL with
           | Raise e => __init__ load send cookie_string = Raise e
           | Ok _ =>
               __init__ load send cookie_string = Ok (mkClient (Some jar))
           end
  end.
Proof.
  unfold __init__.
  destruct (load cookie_string) as [[|m ms]|e] eqn:El.
  - rewrite (@parse_cookie_string_loaded load cookie_string [] El).
    cbn [bind]. unfold session_get.
    destruct (send _ _); reflexivity.
  - rewrite (@parse_cookie_string_loaded load cookie_string (m :: ms) El).
    cbn [bind]. eexists. split; [reflexivity|]. unfold session_get.
    destruct (send _ _); reflexivity.
  - rewrite (proj2 (@parse_cookie_string_raises load cookie_string e) El).
    reflexivity.
Qed.

(** C5 (as amended).  The constructor defines no error of its own and
    catches nothing; it fails in three cases and in no other.  When
    [SimpleCookie.load] raises, on an illegal key, it raises the same
    exception whatever the transport does.  When the cookie string has
    no morsel, as the empty one, it always fails: with the exception of
    the transport when the probe raises, and with [AttributeError] when
    the probe is answered, the session having no jar.  When the cookie
    string has morsels it fails exactly when the probe raises, with the
    exception of the transport, and otherwise yields a client that holds
    the jar of the morsels. *)
Theorem init_fails_exactly
    (load : pystr -> result (list (pystr * pystr)))
    (send : option cookiejar -> pystr -> result response)
    (cookie_string : pystr) :
  match load cookie_string with
  | Raise e => __init__ load send cookie_string = Raise e
  | Ok [] =>
      match send None WEREAD_URL with
      | Raise e => __init__ load send cookie_string = Raise e
      | Ok _ => __init__ load send cookie_string = Raise AttributeError
      end
  | Ok (_ :: _) =>
      exists jar,
        _parse_cookie_string load cookie_string = Ok (Some jar)
        /\ match send (Some jar) WEREAD_URL with
           | Raise e => __init__ load send cookie_string = Raise e
           | Ok _ =>
               __init__ load send cookie_string = Ok (mkClient (Some jar))
           end
  end.
Proof. apply init_cases. Qed.

Lemma init_fails_exactly_witness :
  exists jar,
    _parse_cookie_string load_one (lit "wr_skey=abc") = Ok (Some jar)
    /\ __init__ load_one probe_answered (lit "wr_skey=abc")
       = Ok (mkClient (Some jar)).
Proof.
  exact (init_fails_exactly load_one probe_answered (lit "wr_skey=abc")).
Defined.

(** C5 as stated fails.  The empty cookie string raises
    [AttributeError] when the probe is answered and [ConnectionError]
    when the transport is down, never an [AuthenticationError]; a cookie
    string with an illegal key raises [CookieError] although the probe
    would be answered, a construction path that fails without a failure
    of the probe; and a failure of the transport comes out as it is. *)
Lemma init_raises_no_authentication_error :
  __init__ load_one probe_answered [] = Raise AttributeError
  /\ __init__ load_one probe_down [] = Raise ConnectionError
  /\ __init__ load_one probe_answered (lit "a,b=1") = Raise CookieError
  /\ __init__ load_one probe_down (lit "wr_skey=abc") = Raise ConnectionError
  /\ (forall cookie_string,
         In cookie_string [[]; lit "a,b=1"; lit "wr_skey=abc"] ->
         __init__ load_one probe_answered cookie_string
         <> Raise AuthenticationError
         /\ __init__ load_one probe_down cookie_string
            <> Raise AuthenticationError).
Proof.
  repeat split; try reflexivity;
    destruct H as [<-|[<-|[<-|[]]]]; discriminate.
Qed.

(** * [weread/mcp/utils.py] *)

Section FormatHighlights.

Variable container_str : json -> result pystr.

Local Abbreviation format_highlights :=
  (McpUtils.format_highlights container_str).

Lemma format_highlights_positive (bookmarks : list json) (z : Z) :
  (0 < z)%Z ->
  format_highlights bookmarks (Some z)
  = format_highlights (firstn (Z.to_nat z) bookmarks) None.
Proof.
  intros Hz. destruct bookmarks as [|b l].
  - rewrite firstn_nil. reflexivity.
  - unfold McpUtils.format_highlights, McpUtils.limit_given, slice_to.
    replace (z =? 0)%Z with false by (symmetry; apply Z.eqb_neq; lia).
    replace (z <? 0)%Z with false by (symmetry; apply Z.ltb_ge; lia).
    cbn [negb].
    destruct (Z.to_nat z) as [|k] eqn:Ek; [lia|]. reflexivity.
Qed.

(** How [format_highlights] reads its limit.  Without bookmarks the
    answer is the fixed sentence, whatever the limit.  A limit of 0
    limits nothing, as no limit.  A positive limit keeps the first
    bookmarks.  A negative limit drops bookmarks from the end, and when
    it drops them all the answer is the empty string, not the fixed
    sentence. *)
Theorem format_highlights_limit :
  (forall max_highlights,
      format_highlights [] max_highlights = Ok (lit "No highlights found."))
  /\ (forall bookmarks,
         format_highlights bookmarks (Some 0%Z)
         = format_highlights bookmarks None)
  /\ (forall bookmarks z,
         (0 < z)%Z ->
         format_highlights bookmarks (Some z)
         = format_highlights (firstn (Z.to_nat z) bookmarks) None)
  /\ (forall bookmarks z,
         (z < 0)%Z -> (Z.to_nat (- z) < length bookmarks)%nat ->
         format_highlights bookmarks (Some z)
         = format_highlights
             (firstn (length bookmarks - Z.to_nat (- z)) bookmarks) None)
  /\ (forall bookmarks z,
         (z < 0)%Z -> bookmarks <> [] ->
         (length bookmarks <= Z.to_nat (- z))%nat ->
         format_highlights bookmarks (Some z) = Ok []).
Proof.
  split; [|split; [|split; [|split]]].
  - reflexivity.
  - intros [|b l]; reflexivity.
  - intros bookmarks z Hz. apply format_highlights_positive, Hz.
  - intros [|b l] z Hz Hlen; [simpl in Hlen; lia|].
    unfold McpUtils.format_highlights, McpUtils.limit_given, slice_to.
    replace (z =? 0)%Z with false by (symmetry; apply Z.eqb_neq; lia).
    replace (z <? 0)%Z with true by (symmetry; apply Z.ltb_lt; lia).
    cbn [negb].
    destruct (length (b :: l) - Z.to_nat (- z))%nat as [|k] eqn:Ek; [lia|].
    reflexivity.
  - intros [|b l] z Hz Hne Hlen; [contradiction|].
    unfold McpUtils.format_highlights, McpUtils.limit_given, slice_to.
    replace (z =? 0)%Z with false by (symmetry; apply Z.eqb_neq; lia).
    replace (z <? 0)%Z with true by (symmetry; apply Z.ltb_lt; lia).
    cbn [negb].
    replace (length (b :: l) - Z.to_nat (- z))%nat with 0%nat by lia.
    reflexivity.
Qed.

Lemma highlight_line_ok (bm : json) :
  highlight_ok bm = true ->
  McpUtils.highlight_line container_str bm = Ok (highlight_text bm).
Proof.
  unfold highlight_ok. intros H.
  repeat (apply andb_true_iff in H; destruct H as [H ?]).
  destruct bm as [| | | | |d]; try discriminate.
  unfold McpUtils.highlight_line, highlight_text.
  rewrite !py_get_object. cbn [bind].
  destruct (field (JObj d) (lit "markText") (JStr [])) as [| | |t| |];
    try discriminate.
  destruct (field (JObj d) (lit "chapterTitle") (JStr [])) as [| | |c| |];
    try discriminate.
  reflexivity.
Qed.

Lemma highlight_line_other (bm : json) :
  is_object bm = false ->
  McpUtils.highlight_line container_str bm = Raise AttributeError.
Proof. destruct bm; try discriminate; reflexivity. Qed.

Lemma highlight_lines_ok (l : list json) :
  forallb highlight_ok l = true ->
  mapM (McpUtils.highlight_line container_str) l
  = Ok (map highlight_text l).
Proof.
  induction l as [|bm l IH]; intros H; [reflexivity|].
  simpl in H. apply andb_true_iff in H. destruct H as [Hbm Hl].
  simpl. rewrite (highlight_line_ok bm Hbm). cbn [bind].
  rewrite (IH Hl). reflexivity.
Qed.

Lemma highlight_lines_raise (inspected : list json) (bad : json)
    (others : list json) :
  forallb highlight_ok inspected = true ->
  is_object bad = false ->
  mapM (McpUtils.highlight_line container_str) (inspected ++ bad :: others)
  = Raise AttributeError.
Proof.
  intros Hok Hbad. induction inspected as [|bm l IH].
  - simpl. rewrite (highlight_line_other bad Hbad). reflexivity.
  - simpl in Hok. apply andb_true_iff in Hok. destruct Hok as [Hbm Hl].
    simpl. rewrite (highlight_line_ok bm Hbm). cbn [bind].
    rewrite (IH Hl). reflexivity.
Qed.

(** [format_highlights] looks at the bookmarks within the limit and at
    no other.  When the first [k] bookmarks are objects whose text and
    chapter title are absent or strings, under a limit of [k] it returns
    their lines joined by line feeds, whatever follows them; without a
    limit it raises [AttributeError] at the first bookmark that is not
    an object. *)
Theorem format_highlights_inspects_within_limit :
  (forall inspected others,
      inspected <> [] ->
      forallb highlight_ok inspected = true ->
      format_highlights (inspected ++ others)
                        (Some (Z.of_nat (length inspected)))
      = Ok (join [10] (map highlight_text inspected)))
  /\ (forall inspected bad others,
         forallb highlight_ok inspected = true ->
         is_object bad = false ->
         format_highlights (inspected ++ bad :: others) None
         = Raise AttributeError).
Proof.
  split.
  - intros inspected others Hne Hobj.
    rewrite (@format_highlights_positive (inspected ++ others)
               (Z.of_nat (length inspected)))
      by (destruct inspected; [contradiction | simpl; lia]).
    rewrite Nat2Z.id, firstn_app, Nat.sub_diag, firstn_0, app_nil_r.
    rewrite firstn_all.
    destruct inspected as [|b l]; [contradiction|].
    unfold McpUtils.format_highlights.
    rewrite (highlight_lines_ok (b :: l) Hobj). reflexivity.
  - intros inspected bad others Hok Hbad.
    unfold McpUtils.format_highlights.
    rewrite (highlight_lines_raise inspected bad others Hok Hbad).
    destruct inspected; reflexivity.
Qed.

End FormatHighlights.

(** * [weread/mcp/server.py] and [weread/api/routes.py] *)

Section GetWeReadClient.

Variable DEFAULT_COOKIE : pystr.
Variable SimpleCookie_load : pystr -> result (list (pystr * pystr)).
Variable session_get :
  option WeReadClient.cookiejar -> pystr -> list (pystr * pystr)
  -> result response.

Local Abbreviation get_weread_client :=
  (Server.get_weread_client DEFAULT_COOKIE SimpleCookie_load session_get).
Local Abbreviation new_client :=
  (Server.WeReadClient SimpleCookie_load session_get).

(** What a call of the caching [get_weread_client] does, for every
    cache and cookie.  When it returns a client, the cookie in force
    (the argument, or the default when the argument is [None] or empty)
    is not empty, the cache then holds this client under this cookie and
    its other entries are as before, and the client was in the cache or
    has just been built.  When it raises, the cache is as before, and
    the exception is the complaint about a missing cookie or wraps the
    failure of the construction: no exception of the client comes out
    as it is. *)
Theorem get_weread_client_outcomes (cookie : option pystr)
    (cache : Server.client_cache) :
  let effective := str_or cookie DEFAULT_COOKIE in
  match get_weread_client cookie cache with
  | (Server.Done client, cache') =>
      effective <> []
      /\ dict_get cache' effective = Some client
      /\ (forall other, other <> effective ->
                        dict_get cache' other = dict_get cache other)
      /\ (dict_get cache effective = Some client
          \/ (dict_get cache effective = None
              /\ new_client effective = Ok client))
  | (Server.Failed e, cache') =>
      cache' = cache
      /\ ((e = Server.CookieRequired /\ effective = [])
          \/ exists cause,
               e = Server.AuthenticationFailed cause
               /\ effective <> []
               /\ dict_get cache effective = None
               /\ new_client effective = Raise cause)
  end.
Proof.
  cbv zeta. unfold Server.get_weread_client.
  destruct (str_or cookie DEFAULT_COOKIE) as [|c s] eqn:Ec.
  - split; [reflexivity|]. left. auto.
  - destruct (dict_get cache (c :: s)) as [client|] eqn:Eg.
    + split; [discriminate|]. split; [exact Eg|]. split; [reflexivity|].
      left. reflexivity.
    + destruct (new_client (c :: s)) as [client|e] eqn:En.
      * split; [discriminate|]. split; [apply dict_get_set_same|].
        split.
        -- intros other Ho. apply dict_get_set_other. congruence.
        -- right. auto.
      * split; [reflexivity|]. right. exists e.
        repeat split; try assumption. discriminate.
Qed.

End GetWeReadClient.

Lemma get_weread_client_hit (DEFAULT_COOKIE : pystr)
    (load : pystr -> result (list (pystr * pystr)))
    (get : option WeReadClient.cookiejar -> pystr -> list (pystr * pystr)
           -> result response)
    (cache : Server.client_cache) (cookie : pystr)
    (client : WeReadClient.client) :
  cookie <> [] ->
  dict_get cache cookie = Some client ->
  Server.get_weread_client DEFAULT_COOKIE load get (Some cookie) cache
  = (Server.Done client, cache).
Proof.
  intros Hne Hg. unfold Server.get_weread_client.
  destruct cookie as [|c s]; [contradiction|].
  cbn [str_or]. rewrite Hg. reflexivity.
Qed.

Lemma get_weread_client_keeps (DEFAULT_COOKIE : pystr)
    (load : pystr -> result (list (pystr * pystr)))
    (get : option WeReadClient.cookiejar -> pystr -> list (pystr * pystr)
           -> result response)
    (argument : option pystr)
    (cache : Server.client_cache) (cookie : pystr)
    (client : WeReadClient.client) :
  dict_get cache cookie = Some client ->
  dict_get
    (snd (Server.get_weread_client DEFAULT_COOKIE load get argument cache))
    cookie
  = Some client.
Proof.
  intros Hg. unfold Server.get_weread_client.
  destruct (str_or argument DEFAULT_COOKIE) as [|c s] eqn:Ec; [exact Hg|].
  destruct (dict_get cache (c :: s)) as [cached|] eqn:Eg; [exact Hg|].
  destruct (Server.WeReadClient load get (c :: s)) as [built|e];
    [|exact Hg].
  cbn [snd]. rewrite dict_get_set_other; [exact Hg|].
  intros E. rewrite <- E in Hg. congruence.
Qed.

Lemma cache_after_keeps (DEFAULT_COOKIE : pystr)
    (load : pystr -> result (list (pystr * pystr))) (calls : list Server.call) :
  forall (cache : Server.client_cache) (cookie : pystr)
         (client : WeReadClient.client),
    dict_get cache cookie = Some client ->
    dict_get (Server.cache_after DEFAULT_COOKIE load calls cache) cookie
    = Some client.
Proof.
  induction calls as [|c calls IH]; intros cache cookie client Hg;
    [exact Hg|].
  cbn [Server.cache_after]. apply IH.
  apply get_weread_client_keeps, Hg.
Qed.

(** A client, once in the cache, stays: after any sequence of calls of
    [get_weread_client], with any cookies and any transports, a call
    for the cookie returns the client cached at first and sends no
    request, so that it succeeds even when the transport now fails. *)
Theorem cached_client_is_kept (DEFAULT_COOKIE : pystr)
    (load : pystr -> result (list (pystr * pystr)))
    (calls : list Server.call)
    (get : option WeReadClient.cookiejar -> pystr -> list (pystr * pystr)
           -> result response)
    (cache : Server.client_cache) (cookie : pystr)
    (client : WeReadClient.client) :
  cookie <> [] ->
  dict_get cache cookie = Some client ->
  let cache' := Server.cache_after DEFAULT_COOKIE load calls cache in
  Server.get_weread_client DEFAULT_COOKIE load get (Some cookie) cache'
  = (Server.Done client, cache').
Proof.
  intros Hne Hg cache'. apply get_weread_client_hit; [exact Hne|].
  apply cache_after_keeps, Hg.
Qed.

Lemma cached_client_is_kept_witness :
  Server.get_weread_client [] load_one transport_down (Some (lit "a=1"))
    (Server.cache_after [] load_one
       [Server.mkCall transport_down (Some (lit "b=2"));
        Server.mkCall (transport_answers refused) (Some (lit "c=3"))]
       [(lit "a=1", client_a)])
  = (Server.Done client_a,
     Server.cache_after [] load_one
       [Server.mkCall transport_down (Some (lit "b=2"));
        Server.mkCall (transport_answers refused) (Some (lit "c=3"))]
       [(lit "a=1", client_a)]).
Proof.
  apply (@cached_client_is_kept [] load_one
           [Server.mkCall transport_down (Some (lit "b=2"));
            Server.mkCall (transport_answers refused) (Some (lit "c=3"))]
           transport_down [(lit "a=1", client_a)] (lit "a=1") client_a);
    [discriminate | reflexivity].
Defined.

(** ** [authenticate] *)

(** For a cookie that is not empty and not in the cache, both
    [authenticate] front ends answer as the construction of a client
    goes.  When [SimpleCookie.load] raises, on an illegal key, they
    answer that the cookie is not authenticated, with the wrapped
    exception, whatever the transport does.  When the cookie string has
    no morsel they always answer that it is not, with the wrapped
    exception of the transport when the probe raises and the wrapped
    [AttributeError] when it is answered.  When the cookie string has
    morsels, they answer that the cookie is authenticated as soon as the
    probe returns a response, of whatever status and body, and the tool
    caches the client; they answer that it is not, with the wrapped
    exception, when the probe raises.  The tool leaves the cache as it
    is whenever it answers no; the route answers with status 200 for
    yes and 401 for no. *)
Theorem authenticate_outcomes (DEFAULT_COOKIE env_cookie : pystr)
    (load : pystr -> result (list (pystr * pystr)))
    (get : option WeReadClient.cookiejar -> pystr -> list (pystr * pystr)
           -> result response)
    (cookie : pystr) (cache : Server.client_cache) :
  cookie <> [] ->
  dict_get cache cookie = None ->
  let tool := Server.authenticate DEFAULT_COOKIE load get cookie cache in
  let route :=
    Routes.authenticate env_cookie load (fun c u => get c u []) cookie in
  let refused e :=
    tool = (Server.mkAuth false (Some (Server.AuthenticationFailed e)), cache)
    /\ route = Routes.mkAuthResponse 401 false
                 (Some (Server.AuthenticationFailed e)) in
  match load cookie with
  | Raise e => refused e
  | Ok [] =>
      match get None WeReadClient.WEREAD_URL [] with
      | Raise e => refused e
      | Ok _ => refused AttributeError
      end
  | Ok (_ :: _) =>
      exists jar,
        WeReadClient._parse_cookie_string load cookie = Ok (Some jar)
        /\ match get (Some jar) WeReadClient.WEREAD_URL [] with
           | Raise e => refused e
           | Ok _ =>
               tool = (Server.mkAuth true None,
                       dict_set cache cookie
                         (WeReadClient.mkClient (Some jar)))
               /\ route = Routes.mkAuthResponse 200 true None
           end
  end.
Proof.
  intros Hne Hg. cbv zeta.
  unfold Server.authenticate, Server.get_weread_client, Routes.authenticate,
    Routes.get_weread_client, Server.WeReadClient.
  destruct cookie as [|c s]; [contradiction|].
  cbn [str_or]. rewrite Hg.
  pose proof (@init_cases load (fun c0 u => get c0 u []) (c :: s)) as H.
  cbv beta in H.
  destruct (load (c :: s)) as [[|m ms]|e].
  - destruct (get None WeReadClient.WEREAD_URL []); rewrite H;
      split; reflexivity.
  - destruct H as [jar [Hj H]]. exists jar. split; [exact Hj|].
    destruct (get (Some jar) WeReadClient.WEREAD_URL []); rewrite H;
      split; reflexivity.
  - rewrite H. split; reflexivity.
Qed.

Lemma authenticate_outcomes_witness :
  (exists jar,
      WeReadClient._parse_cookie_string load_one (lit "a=1") = Ok (Some jar)
      /\ Server.authenticate [] load_one (transport_answers refused)
           (lit "a=1") []
         = (Server.mkAuth true None,
            dict_set [] (lit "a=1") (WeReadClient.mkClient (Some jar)))
      /\ Routes.authenticate [] load_one
           (fun c u => transport_answers refused c u []) (lit "a=1")
         = Routes.mkAuthResponse 200 true None)
  /\ (Server.authenticate [] load_one (transport_answers refused)
        (lit "garbage") []
      = (Server.mkAuth false
           (Some (Server.AuthenticationFailed AttributeError)), [])
      /\ Routes.authenticate [] load_one
           (fun c u => transport_answers refused c u []) (lit "garbage")
         = Routes.mkAuthResponse 401 false
             (Some (Server.AuthenticationFailed AttributeError)))
  /\ (Server.authenticate [] load_one (transport_answers refused)
        (lit "a,b=1") []
      = (Server.mkAuth false
           (Some (Server.AuthenticationFailed CookieError)), [])
      /\ Routes.authenticate [] load_one
           (fun c u => transport_answers refused c u []) (lit "a,b=1")
         = Routes.mkAuthResponse 401 false
             (Some (Server.AuthenticationFailed CookieError))).
Proof.
  split; [|split].
  - apply (@authenticate_outcomes [] [] load_one
             (transport_answers refused) (lit "a=1") []);
      [discriminate | reflexivity].
  - apply (@authenticate_outcomes [] [] load_one
             (transport_answers refused) (lit "garbage") []);
      [discriminate | reflexivity].
  - apply (@authenticate_outcomes [] [] load_one
             (transport_answers refused) (lit "a,b=1") []);
      [discriminate | reflexivity].
Defined.

(** An empty cookie is not refused as such: both [authenticate] front
    ends then test the default cookie, and answer for the empty cookie
    what they answer for the default one. *)
Theorem authenticate_empty_cookie_tests_default
    (DEFAULT_COOKIE : pystr)
    (load : pystr -> result (list (pystr * pystr)))
    (get : option WeReadClient.cookiejar -> pystr -> list (pystr * pystr)
           -> result response)
    (cache : Server.client_cache) :
  Server.authenticate DEFAULT_COOKIE load get [] cache
  = Server.authenticate DEFAULT_COOKIE load get DEFAULT_COOKIE cache
  /\ Routes.authenticate DEFAULT_COOKIE load (fun c u => get c u []) []
     = Routes.authenticate DEFAULT_COOKIE load (fun c u => get c u [])
         DEFAULT_COOKIE.
Proof.
  unfold Server.authenticate, Server.get_weread_client, Routes.authenticate,
    Routes.get_weread_client.
  destruct DEFAULT_COOKIE as [|c s]; split; reflexivity.
Qed.

(** ** [get_web_url] *)

(** The two [get_web_url] front ends fail on the same identifiers, those
    on which the codec raises: the tool lets the exception of the codec
    through, the route answers with status 500 and never another error
    status.  On every other identifier both return the same object,
    whose [url] is the reader address followed by a web identifier of at
    least 23 characters, each a hexadecimal digit or ["g"]. *)
Theorem get_web_url_outcomes (book_id : pystr) :
  (forall e,
      Server.get_web_url book_id = Raise e
      <-> (e = UnicodeEncodeError /\ existsb is_surrogate book_id = true)
          \/ (e = ValueError /\ whole_chunks_then_newline book_id))
  /\ (forall status e,
         Routes.get_web_url book_id = Routes.HTTPException status e
         <-> status = 500%Z /\ Server.get_web_url book_id = Raise e)
  /\ (forall body,
         Routes.get_web_url book_id = Routes.Respond body
         <-> Server.get_web_url book_id = Ok body)
  /\ (forall body,
         Server.get_web_url book_id = Ok body ->
         exists web_id,
           body = JObj [(lit "url",
                         JStr (lit "https://weread.qq.com/web/reader/"
                               ++ web_id))]
           /\ web_id_string web_id
           /\ (23 <= length web_id)%nat).
Proof.
  unfold Routes.get_web_url, Server.get_web_url.
  split; [|split; [|split]].
  - intros e. rewrite <- calculate_book_str_id_raises_iff.
    destruct (WeReadClient.calculate_book_str_id book_id) as [s|e'];
      cbn [bind]; split; intros H; try discriminate; congruence.
  - intros status e.
    destruct (WeReadClient.calculate_book_str_id book_id) as [s|e'];
      cbn [bind]; split.
    + discriminate.
    + intros [_ H]. discriminate.
    + intros H. injection H as <- <-. auto.
    + intros [-> H]. injection H as <-. reflexivity.
  - intros body.
    destruct (WeReadClient.calculate_book_str_id book_id) as [s|e'];
      cbn [bind]; split; intros H; try discriminate;
      injection H as <-; reflexivity.
  - intros body.
    destruct (WeReadClient.calculate_book_str_id book_id) as [s|e'] eqn:E;
      cbn [bind]; [|discriminate].
    intros H. injection H as <-. exists s.
    split; [reflexivity|].
    split; [exact (@calculate_book_str_id_web book_id s E)|].
    destruct (@calculate_book_str_id_Ok book_id s E)
      as [code [segs [_ [_ ->]]]].
    apply book_str_id_length.
Qed.

(** ** [search_books] and [format_book_highlights] *)

Section LibraryTools.

Variable DEFAULT_COOKIE : pystr.
Variable SimpleCookie_load : pystr -> result (list (pystr * pystr)).
Variable session_get :
  option WeReadClient.cookiejar -> pystr -> list (pystr * pystr)
  -> result response.
Variable lower : pystr -> pystr.
Variable container_str : json -> result pystr.

Local Abbreviation get_weread_client :=
  (Server.get_weread_client DEFAULT_COOKIE SimpleCookie_load session_get).
Local Abbreviation search_books :=
  (Server.search_books DEFAULT_COOKIE SimpleCookie_load session_get lower).
Local Abbreviation format_book_highlights :=
  (Server.format_book_highlights DEFAULT_COOKIE SimpleCookie_load session_get
     container_str).

Lemma search_step_searchable (query : pystr) (results : list json)
    (x : json) :
  book_searchable x = true ->
  Server.search_step lower query results x
  = Ok (if book_matches lower query x then results ++ [book_summary x]
        else results).
Proof.
  unfold book_searchable. intros H.
  repeat (apply andb_true_iff in H; destruct H as [H ?]).
  destruct x as [| | | | |d]; try discriminate.
  unfold Server.search_step, book_matches, book_summary.
  rewrite py_get_object. cbn [bind].
  change (field (JObj d) (lit "book") (JObj [])) with (details (JObj d)).
  destruct (details (JObj d)) as [| | | | |db]; try discriminate.
  rewrite !py_get_object. cbn [bind].
  destruct (field (JObj db) (lit "title") (JStr [])) as [| | |t| |];
    try discriminate.
  destruct (field (JObj db) (lit "author") (JStr [])) as [| | |a| |];
    try discriminate.
  destruct (field (JObj db) (lit "cover") (JStr [])) as [| | |c| |];
    try discriminate.
  cbn [Server.py_lower bind text_of py_replace].
  destruct (is_substring query (lower t) || is_substring query (lower a));
    reflexivity.
Qed.

Lemma search_loop (query : pystr) (l : list json) :
  forall results,
    forallb book_searchable l = true ->
    foldM (Server.search_step lower query) l results
    = Ok (results
          ++ map book_summary (filter (book_matches lower query) l)).
Proof.
  induction l as [|x l IH]; intros results H.
  - simpl. rewrite app_nil_r. reflexivity.
  - simpl in H. apply andb_true_iff in H. destruct H as [Hx Hl].
    cbn [foldM]. rewrite (@search_step_searchable query results x Hx).
    cbn [bind]. rewrite (IH _ Hl). cbn [filter].
    destruct (book_matches lower query x).
    + rewrite <- app_assoc. reflexivity.
    + reflexivity.
Qed.

Lemma search_books_filter (query : pystr) (cookie : option pystr)
    (cache cache' : Server.client_cache) (client : WeReadClient.client)
    (r : response) (d : list (pystr * json)) (l : list json) :
  get_weread_client cookie cache = (Server.Done client, cache') ->
  session_get (WeReadClient.cookies client) Server.WEREAD_NOTEBOOKS_URL []
  = Ok r ->
  ok r = true ->
  json_of r = Ok (JObj d) ->
  field (JObj d) (lit "books") (JArr []) = JArr l ->
  forallb book_ok l = true ->
  forallb book_searchable l = true ->
  exists sorted,
    Permutation l sorted
    /\ Sorted (fun x y => (sort_value x <= sort_value y)%Z) sorted
    /\ search_books query cookie cache
       = (Server.Done
            (map book_summary
               (filter (book_matches lower (lower query)) sorted)),
          cache').
Proof.
  intros Hc Hr Hok Hj Hl Hwf Hs.
  destruct (@get_notebooklist_order r d l Hok Hj Hl Hwf)
    as [sorted [Hn [Hp [Hsorted _]]]].
  exists sorted. split; [exact Hp|]. split; [exact Hsorted|].
  unfold Server.search_books, Server.tbind. rewrite Hc.
  unfold Server.lift, Server.client_get_notebooklist.
  rewrite Hr. cbn [bind]. rewrite Hn. cbn [bind].
  assert (Hs' : forallb book_searchable sorted = true).
  { apply forallb_forall. intros x Hx.
    rewrite forallb_forall in Hs. apply Hs.
    apply Permutation_in with (l := sorted); [symmetry; exact Hp | exact Hx]. }
  destruct sorted as [|b rest]; [reflexivity|].
  rewrite (@search_loop (lower query) (b :: rest) [] Hs'). reflexivity.
Qed.

(** What [search_books] returns.  With a usable client and a library
    of well-shaped records (an integer [sort], a [book] absent or an
    object whose [title], [author] and [cover] are absent or strings),
    the tool returns a summary of exactly the records whose lowered
    title or lowered author contains the lowered query, in ascending
    order of [sort]; the cache is the one [get_weread_client] left. *)
Theorem search_books_returns_the_matches (query : pystr)
    (cookie : option pystr)
    (cache cache' : Server.client_cache) (client : WeReadClient.client)
    (r : response) (d : list (pystr * json)) (l : list json) :
  get_weread_client cookie cache = (Server.Done client, cache') ->
  session_get (WeReadClient.cookies client) Server.WEREAD_NOTEBOOKS_URL []
  = Ok r ->
  ok r = true ->
  json_of r = Ok (JObj d) ->
  field (JObj d) (lit "books") (JArr []) = JArr l ->
  forallb book_ok l = true ->
  forallb book_searchable l = true ->
  exists sorted,
    Permutation l sorted
    /\ Sorted (fun x y => (sort_value x <= sort_value y)%Z) sorted
    /\ search_books query cookie cache
       = (Server.Done
            (map book_summary
               (filter (book_matches lower (lower query)) sorted)),
          cache').
Proof. apply search_books_filter. Qed.

Lemma filter_all {A : Type} (f : A -> bool) (l : list A) :
  (forall x, f x = true) -> filter f l = l.
Proof.
  intros H. induction l as [|x l IH]; [reflexivity|].
  simpl. rewrite H, IH. reflexivity.
Qed.

(** A query that lowers to the empty string selects nothing: on a
    library of well-shaped records [search_books] then returns a summary
    of every record of the library, in ascending order of [sort]. *)
Theorem search_books_empty_query (query : pystr) (cookie : option pystr)
    (cache cache' : Server.client_cache) (client : WeReadClient.client)
    (r : response) (d : list (pystr * json)) (l : list json) :
  lower query = [] ->
  get_weread_client cookie cache = (Server.Done client, cache') ->
  session_get (WeReadClient.cookies client) Server.WEREAD_NOTEBOOKS_URL []
  = Ok r ->
  ok r = true ->
  json_of r = Ok (JObj d) ->
  field (JObj d) (lit "books") (JArr []) = JArr l ->
  forallb book_ok l = true ->
  forallb book_searchable l = true ->
  exists sorted,
    Permutation l sorted
    /\ Sorted (fun x y => (sort_value x <= sort_value y)%Z) sorted
    /\ search_books query cookie cache
       = (Server.Done (map book_summary sorted), cache').
Proof.
  intros Hq Hc Hr Hok Hj Hl Hwf Hs.
  destruct (@search_books_filter query cookie cache cache' client r d l
              Hc Hr Hok Hj Hl Hwf Hs) as [sorted [Hp [Hsorted H]]].
  exists sorted. split; [exact Hp|]. split; [exact Hsorted|].
  rewrite H, Hq. rewrite filter_all; [reflexivity|].
  intros x. unfold book_matches.
  destruct (lower (text_of (field (details x) (lit "title") (JStr []))));
    reflexivity.
Qed.

(** An error status of upstream is no error of these tools.  With a
    usable client, when the library request is answered with an error
    status [search_books] returns the empty list for every query; when
    the request for the bookmarks is answered with an error status as
    well, [format_book_highlights] returns the heading that names the
    book by its identifier, followed by the sentence for no
    highlights. *)
Theorem error_status_is_silent (cookie : option pystr)
    (cache cache' : Server.client_cache) (client : WeReadClient.client)
    (r : response) :
  get_weread_client cookie cache = (Server.Done client, cache') ->
  session_get (WeReadClient.cookies client) Server.WEREAD_NOTEBOOKS_URL []
  = Ok r ->
  ok r = false ->
  (forall query, search_books query cookie cache = (Server.Done [], cache'))
  /\ (forall book_id max_highlights rb,
         session_get (WeReadClient.cookies client)
           Server.WEREAD_BOOKMARKLIST_URL [(lit "bookId", book_id)]
         = Ok rb ->
         ok rb = false ->
         format_book_highlights book_id max_highlights cookie cache
         = (Server.Done
              (lit "# Highlights for book ID: " ++ book_id ++ [10; 10]
               ++ lit "No highlights found."),
            cache')).
Proof.
  intros Hc Hr Hok. split.
  - intros query.
    unfold Server.search_books, Server.tbind. rewrite Hc.
    unfold Server.lift, Server.client_get_notebooklist.
    rewrite Hr. cbn [bind]. unfold WeReadClient.get_notebooklist.
    rewrite Hok. reflexivity.
  - intros book_id max_highlights rb Hrb Hokb.
    unfold Server.format_book_highlights, Server.tbind. rewrite Hc.
    unfold Server.lift, Server.client_get_notebooklist,
      Server.client_get_bookmark_list.
    rewrite Hr, Hrb. cbn [bind].
    unfold WeReadClient.get_notebooklist, WeReadClient.get_bookmark_list.
    rewrite Hok, Hokb. cbn [bind].
    unfold McpUtils.format_highlights. cbn [bind].
    rewrite <- !app_assoc. reflexivity.
Qed.

End LibraryTools.

Lemma search_books_returns_the_matches_witness :
  exists sorted,
    Permutation library_records sorted
    /\ Sorted (fun x y => (sort_value x <= sort_value y)%Z) sorted
    /\ Server.search_books (lit "a=1") load_one (transport_answers two_books)
         ascii_lower (lit "EMMA") None []
       = (Server.Done
            (map book_summary
               (filter (book_matches ascii_lower (ascii_lower (lit "EMMA")))
                       sorted)),
          [(lit "a=1", client_a)]).
Proof.
  apply (@search_books_returns_the_matches (lit "a=1") load_one
           (transport_answers two_books) ascii_lower (lit "EMMA") None []
           [(lit "a=1", client_a)] client_a two_books
           [(lit "books", JArr library_records)] library_records);
    reflexivity.
Defined.

Lemma search_books_empty_query_witness :
  exists sorted,
    Permutation library_records sorted
    /\ Sorted (fun x y => (sort_value x <= sort_value y)%Z) sorted
    /\ Server.search_books (lit "a=1") load_one (transport_answers two_books)
         ascii_lower [] None []
       = (Server.Done (map book_summary sorted), [(lit "a=1", client_a)]).
Proof.
  apply (@search_books_empty_query (lit "a=1") load_one
           (transport_answers two_books) ascii_lower [] None []
           [(lit "a=1", client_a)] client_a two_books
           [(lit "books", JArr library_records)] library_records);
    reflexivity.
Defined.

Lemma error_status_is_silent_witness :
  (forall query,
      Server.search_books (lit "a=1") load_one (transport_answers refused)
        ascii_lower query None []
      = (Server.Done [], [(lit "a=1", client_a)]))
  /\ (forall book_id max_highlights rb,
         transport_answers refused (WeReadClient.cookies client_a)
           Server.WEREAD_BOOKMARKLIST_URL [(lit "bookId", book_id)]
         = Ok rb ->
         ok rb = false ->
         Server.format_book_highlights (lit "a=1") load_one
           (transport_answers refused) (fun _ => Ok [])
           book_id max_highlights None []
         = (Server.Done
              (lit "# Highlights for book ID: " ++ book_id ++ [10; 10]
               ++ lit "No highlights found."),
            [(lit "a=1", client_a)])).
Proof.
  apply (@error_status_is_silent (lit "a=1") load_one
           (transport_answers refused) ascii_lower (fun _ => Ok []) None []
           [(lit "a=1", client_a)] client_a refused);
    reflexivity.
Defined.

Lemma format_highlights_limit_witness :
  McpUtils.format_highlights (fun _ => Ok []) two_highlights (Some 1%Z)
  = McpUtils.format_highlights (fun _ => Ok [])
      (firstn (Z.to_nat 1) two_highlights) None
  /\ McpUtils.format_highlights (fun _ => Ok []) two_highlights (Some (-1)%Z)
     = McpUtils.format_highlights (fun _ => Ok [])
         (firstn (length two_highlights - Z.to_nat (- (-1))) two_highlights)
         None
  /\ McpUtils.format_highlights (fun _ => Ok []) two_highlights (Some (-2)%Z)
     = Ok [].
Proof.
  split; [|split].
  - apply (proj1 (proj2 (proj2 (@format_highlights_limit (fun _ => Ok []))))).
    lia.
  - apply (proj1 (proj2 (proj2 (proj2
             (@format_highlights_limit (fun _ => Ok [])))))).
    + lia.
    + simpl. lia.
  - apply (proj2 (proj2 (proj2 (proj2
             (@format_highlights_limit (fun _ => Ok [])))))).
    + lia.
    + discriminate.
    + simpl. lia.
Defined.

Lemma format_highlights_inspects_within_limit_witness :
  McpUtils.format_highlights (fun _ => Ok [])
    ([highlight "To be" "Act 3"] ++ [JNull])
    (Some (Z.of_nat (length [highlight "To be" "Act 3"])))
  = Ok (join [10] (map highlight_text [highlight "To be" "Act 3"]))
  /\ McpUtils.format_highlights (fun _ => Ok [])
       ([highlight "To be" "Act 3"] ++ JNull :: []) None
     = Raise AttributeError.
Proof.
  split.
  - apply (proj1 (@format_highlights_inspects_within_limit
                    (fun _ => Ok []))).
    + discriminate.
    + reflexivity.
  - apply (proj2 (@format_highlights_inspects_within_limit
                    (fun _ => Ok []))).
    + reflexivity.
    + reflexivity.
Defined.

Lemma get_web_url_outcomes_witness :
  exists web_id,
    JObj [(lit "url",
           JStr (lit "https://weread.qq.com/web/reader/341326f0775bcd15g01c007"))]
    = JObj [(lit "url",
             JStr (lit "https://weread.qq.com/web/reader/" ++ web_id))]
    /\ web_id_string web_id
    /\ (23 <= length web_id)%nat.
Proof.
  apply (proj2 (proj2 (proj2 (get_web_url_outcomes (lit "123456789012"))))).
  vm_compute. reflexivity.
Defined.

(** * The length of the identifier of a short numeric book *)

Lemma numeric_no_surrogate (s : pystr) :
  Spec.numeric s = true -> existsb is_surrogate s = false.
Proof.
  unfold Spec.numeric. induction s as [|c s IH]; intros H; [reflexivity|].
  simpl in H. apply andb_true_iff in H. destruct H as [Hc Hs].
  simpl. rewrite (IH Hs), orb_false_r.
  unfold is_ascii_digit in Hc. apply andb_true_iff in Hc.
  destruct Hc as [_ Hc]. apply N.leb_le in Hc.
  unfold is_surrogate. apply andb_false_iff. left.
  apply N.leb_gt. lia.
Qed.

Lemma short_body_length (msg : list N) (code : pystr) (segs : list pystr) :
  (length (Spec.head_and_segments (MD5.hexdigest msg) code segs) < 20)%nat ->
  length (Spec.book_str_id (MD5.hexdigest msg) code segs) = 23%nat.
Proof.
  intros H. unfold Spec.book_str_id. cbv zeta.
  rewrite length_app, length_firstn, hexdigest_length.
  unfold Spec.padded.
  replace (length (Spec.head_and_segments (MD5.hexdigest msg) code segs)
           <? 20)%nat with true by (symmetry; apply Nat.ltb_lt; exact H).
  rewrite length_app, length_firstn, hexdigest_length. lia.
Qed.

Lemma head_and_segments_length (msg : list N) (code : pystr)
    (segs : list pystr) :
  length (Spec.head_and_segments (MD5.hexdigest msg) code segs)
  = (6 + length code + length (Spec.segments segs))%nat.
Proof.
  unfold Spec.head_and_segments, Spec.last_chars.
  rewrite !length_app, length_firstn, length_rev, length_firstn, length_rev,
    hexdigest_length.
  simpl. lia.
Qed.

(** The web identifier of a book identifier of at most nine ASCII
    decimal digits, the empty identifier included, has exactly 23
    characters: its head and its one segment stay under 20 characters,
    so the padding of step 7 always applies. *)
Theorem short_numeric_id_gives_23_characters (book_id : pystr) :
  Spec.numeric book_id = true ->
  (length book_id <= 9)%nat ->
  exists s,
    calculate_book_str_id book_id = Ok s /\ length s = 23%nat.
Proof.
  intros Hn Hlen.
  rewrite (@calculate_book_str_id_returns book_id
             (@numeric_no_surrogate book_id Hn) (or_introl Hn)).
  eexists. split; [reflexivity|].
  apply short_body_length. rewrite head_and_segments_length.
  unfold Spec.transform_id. rewrite Hn. cbn [fst snd].
  destruct book_id as [|c s'] eqn:Eb; [simpl; lia|].
  rewrite <- Eb in *.
  assert (Hl : (1 <= length book_id <= 9)%nat)
    by (rewrite Eb in *; cbn [length] in *; lia).
  rewrite (@chunks_single book_id Hl). cbn [map Spec.segments].
  unfold Spec.segment. rewrite length_app.
  assert (Hh : (length (hex (Spec.base10 book_id)) <= 8)%nat).
  { apply hex_short.
    pose proof (@base10_bound book_id Hn 0) as Hb.
    fold (Spec.base10 book_id) in Hb.
    eapply N.lt_le_trans; [exact Hb|].
    eapply N.le_trans with (m := 10 ^ 9).
    - rewrite N.add_0_l, N.mul_1_l. apply N.pow_le_mono_r; lia.
    - vm_compute. discriminate. }
  rewrite segment_prefix_two_digits by lia.
  change (length (lit "3")) with 1%nat. lia.
Qed.

Lemma short_numeric_id_gives_23_characters_witness :
  exists s,
    calculate_book_str_id (lit "26062651") = Ok s /\ length s = 23%nat.
Proof.
  apply (@short_numeric_id_gives_23_characters (lit "26062651"));
    [reflexivity | simpl; lia].
Defined.
